(** * Storefront theme scripts: variant resolution, cart drawer, client storage

    A shallow embedding of the theme's browser scripts
    (product form, cart drawer, wishlist, recently viewed, cookie consent)
    and the properties of them that the specification states, with further
    properties that the code shows.

    JavaScript numbers are modelled by [JsNum]: [NaN] or an integer, and
    the model computes with the integers themselves.  JavaScript computes
    with doubles, which hold the integers below 2^53 in magnitude ([safe])
    and add, compare and print them exactly; a property that depends on this
    asks for [safe] numbers. *)

From Stdlib Require Import ZArith Ascii String List Bool Lia DecimalString DecimalPos.
From stdpp Require Import base option list strings gmap.

Import ListNotations.
Local Open Scope string_scope.
Local Set Warnings "-register-all".

(** ** JavaScript values *)

Inductive JsNum : Type :=
| NaN
| Num (z : Z).

(** The integers a double holds with their neighbours
    ([Number.isSafeInteger]). *)
Definition safe (z : Z) : Prop := (- 2 ^ 53 < z < 2 ^ 53)%Z.

(** [a === b] on numbers: [NaN] equals nothing, itself included. *)
Definition strict_eq_num (a b : JsNum) : bool :=
  match a, b with
  | Num x, Num y => Z.eqb x y
  | _, _ => false
  end.

(** [a + b] and [Math.max(a, b)] propagate [NaN]; the sum is JavaScript's
    as long as it is [safe]. *)
Definition js_add (a b : JsNum) : JsNum :=
  match a, b with
  | Num x, Num y => Num (x + y)
  | _, _ => NaN
  end.

Definition Math_max (a b : JsNum) : JsNum :=
  match a, b with
  | Num x, Num y => Num (Z.max x y)
  | _, _ => NaN
  end.

(** Truthiness of a string: only the empty string is falsy. *)
Definition truthy_string (s : string) : bool :=
  match s with
  | EmptyString => false
  | String _ _ => true
  end.

(** Truthiness of a possibly [null] string. *)
Definition truthy_opt (o : option string) : bool :=
  match o with
  | Some s => truthy_string s
  | None => false
  end.

(** [String(n)] for a [safe] integer: its digits in decimal (from 10^21
    on JavaScript writes an exponent). *)
Definition string_of_Z (z : Z) : string := NilZero.string_of_int (Z.to_int z).

(** *** parseInt

    [parseInt(string, radix)]: leading white space is skipped, then an
    optional sign, then a "0x" prefix when the radix allows it, then the
    longest run of digits of the radix.  No digit at all gives [NaN].  The
    result is the integer read: the Number JavaScript returns is that integer
    when it is [safe], and a double of magnitude 2^53 or more otherwise.

    Strings are byte strings here, the UTF-8 bytes of the JavaScript string.
    The white space skipped is ECMAScript's WhiteSpace and LineTerminator:
    U+0009 to U+000D and U+0020, which take one byte; U+00A0, which takes
    two; U+1680, U+2000 to U+200A, U+2028, U+2029, U+202F, U+205F, U+3000 and
    U+FEFF, which take three. *)

Definition is_white_space (c : ascii) : bool :=
  let n := nat_of_ascii c in
  (n =? 9)%nat || (n =? 10)%nat || (n =? 11)%nat || (n =? 12)%nat
  || (n =? 13)%nat || (n =? 32)%nat.

Definition is_white_space2 (c1 c2 : ascii) : bool :=
  (nat_of_ascii c1 =? 194)%nat && (nat_of_ascii c2 =? 160)%nat.

Definition is_white_space3 (c1 c2 c3 : ascii) : bool :=
  let n1 := nat_of_ascii c1 in
  let n2 := nat_of_ascii c2 in
  let n3 := nat_of_ascii c3 in
  ((n1 =? 225)%nat && (n2 =? 154)%nat && (n3 =? 128)%nat)
  || ((n1 =? 226)%nat && (n2 =? 128)%nat
      && (((128 <=? n3)%nat && (n3 <=? 138)%nat)
          || (n3 =? 168)%nat || (n3 =? 169)%nat || (n3 =? 175)%nat))
  || ((n1 =? 226)%nat && (n2 =? 129)%nat && (n3 =? 159)%nat)
  || ((n1 =? 227)%nat && (n2 =? 128)%nat && (n3 =? 128)%nat)
  || ((n1 =? 239)%nat && (n2 =? 187)%nat && (n3 =? 191)%nat).

Fixpoint trim_start (s : string) : string :=
  match s with
  | String c1 rest1 =>
      if is_white_space c1 then trim_start rest1
      else
        match rest1 with
        | String c2 rest2 =>
            if is_white_space2 c1 c2 then trim_start rest2
            else
              match rest2 with
              | String c3 rest3 =>
                  if is_white_space3 c1 c2 c3 then trim_start rest3 else s
              | EmptyString => s
              end
        | EmptyString => s
        end
  | EmptyString => s
  end.

Definition digit_value (c : ascii) : option Z :=
  let n := Z.of_nat (nat_of_ascii c) in
  if (48 <=? n)%Z && (n <=? 57)%Z then Some (n - 48)%Z
  else if (97 <=? n)%Z && (n <=? 122)%Z then Some (n - 87)%Z
  else if (65 <=? n)%Z && (n <=? 90)%Z then Some (n - 55)%Z
  else None.

(** Longest prefix of digits below [R], accumulated from the left; [acc]
    is [NaN] until the first digit has been read. *)
Fixpoint parse_digits (R : Z) (s : string) (acc : JsNum) : JsNum :=
  match s with
  | String c rest =>
      match digit_value c with
      | Some d =>
          if (d <? R)%Z
          then parse_digits R rest
                 (Num (match acc with Num a => a * R + d | NaN => d end))
          else acc
      | None => acc
      end
  | EmptyString => acc
  end.

Definition strip_hex_prefix (s : string) : option string :=
  match s with
  | String "0" (String "x" rest) => Some rest
  | String "0" (String "X" rest) => Some rest
  | _ => None
  end.

(** What [parseInt] reads once the white space is skipped. *)
Definition parse_trimmed (s : string) (radix : option Z) : JsNum :=
  let '(sign, s) :=
    match s with
    | String "-" rest => ((-1)%Z, rest)
    | String "+" rest => (1%Z, rest)
    | _ => (1%Z, s)
    end in
  let r := match radix with Some r => r | None => 0%Z end in
  if negb (r =? 0)%Z && ((r <? 2)%Z || (36 <? r)%Z) then NaN
  else
    let strip := (r =? 0)%Z || (r =? 16)%Z in
    let R := if (r =? 0)%Z then 10%Z else r in
    let '(R, s) :=
      if strip
      then match strip_hex_prefix s with
           | Some rest => (16%Z, rest)
           | None => (R, s)
           end
      else (R, s) in
    match parse_digits R s NaN with
    | Num n => Num (sign * n)
    | NaN => NaN
    end.

Definition parseInt (input : string) (radix : option Z) : JsNum :=
  parse_trimmed (trim_start input) radix.

(** [array.every((x, index) => p(x, index))]. *)
Fixpoint every_from {A : Type} (p : A -> nat -> bool) (index : nat) (l : list A) : bool :=
  match l with
  | [] => true
  | x :: rest => p x index && every_from p (S index) rest
  end.

Definition every {A : Type} (p : A -> nat -> bool) (l : list A) : bool :=
  every_from p 0 l.

(** *** JSON values, errors, completions *)

Inductive JsValue : Type :=
| JUndefined
| JNull
| JBool (b : bool)
| JNumber (n : JsNum)
| JString (s : string)
| JArray (items : list JsValue)
| JObject (props : list (string * JsValue)).

Record Error : Type := { name : string; message : string }.

Definition TypeError (m : string) : Error := {| name := "TypeError"; message := m |}.
Definition SyntaxError (m : string) : Error := {| name := "SyntaxError"; message := m |}.
Definition new_Error (m : string) : Error := {| name := "Error"; message := m |}.

(** The outcome of evaluating an expression or a block: a value, or a thrown
    error. *)
Inductive Completion (A : Type) : Type :=
| Normal (a : A)
| Thrown (e : Error).
Arguments Normal {A} a.
Arguments Thrown {A} e.

(** Truthiness of a value. *)
Definition truthy (v : JsValue) : bool :=
  match v with
  | JUndefined | JNull => false
  | JBool b => b
  | JNumber NaN => false
  | JNumber (Num z) => negb (z =? 0)%Z
  | JString s => truthy_string s
  | JArray _ | JObject _ => true
  end.

Fixpoint assoc (key : string) (props : list (string * JsValue)) : option JsValue :=
  match props with
  | [] => None
  | (k, v) :: rest => if String.eqb k key then Some v else assoc key rest
  end.

(** [value.key] for a property that only plain objects carry: reading it
    from [null] or [undefined] throws, other values give [undefined]. *)
Definition get_prop (value : JsValue) (key : string) : Completion JsValue :=
  match value with
  | JUndefined | JNull => Thrown (TypeError "Cannot read properties of null")
  | JObject props => Normal (default JUndefined (assoc key props))
  | _ => Normal JUndefined
  end.

Definition join (sep : string) (parts : list string) : string :=
  match parts with
  | [] => ""
  | p :: rest => fold_left (fun acc q => acc ++ sep ++ q) rest p
  end.

(** [String(value)]. *)
Fixpoint to_string (v : JsValue) : string :=
  match v with
  | JUndefined => "undefined"
  | JNull => "null"
  | JBool true => "true"
  | JBool false => "false"
  | JNumber NaN => "NaN"
  | JNumber (Num z) => string_of_Z z
  | JString s => s
  | JArray items =>
      join "," (List.map (fun x => match x with
                                   | JUndefined | JNull => ""
                                   | _ => to_string x
                                   end) items)
  | JObject _ => "[object Object]"
  end.

(** [value > 0] for the values a count takes: a number or a boolean. *)
Definition greater_than_zero (v : JsValue) : bool :=
  match v with
  | JNumber (Num z) => (0 <? z)%Z
  | JBool b => b
  | _ => false
  end.

(** ** Network requests and responses *)

Inductive RequestBody : Type :=
| NoBody
| FormData (fields : list (string * string))
| JsonBody (value : JsValue).

Record Request : Type := {
  url : string;
  method : string;
  headers : list (string * string);
  body : RequestBody
}.

Definition GET (u : string) : Request :=
  {| url := u; method := "GET"; headers := []; body := NoBody |}.

(** A cart row of the drawer: the key of its [data-cart-item] attribute and
    the text of its [data-cart-item-quantity] element, when it has one. *)
Record CartRow : Type := { item_key : string; quantity_text : option string }.

(** The body of a response: JSON text of a value, the HTML of a page in
    which the drawer section was found with these rows (or was not found),
    or text that is neither. *)
Inductive Payload : Type :=
| PJson (value : JsValue)
| PHtml (section : option (list CartRow))
| PText (raw : string).

Record Response : Type := { ok : bool; payload : Payload }.

(** ** Asynchronous functions and the event loop

    An [async] function body is a tree of steps: synchronous reads and
    writes of the page, suspension at an [await] of a platform promise
    (with one continuation per way the promise can settle), calls of other
    async functions that are not awaited ([Spawn]), and [throw].  Awaiting a
    call of another async function is sequential composition: every async
    function below takes the steps that follow it as its last argument. *)

Inductive Settled (A : Type) : Type :=
| Fulfilled (a : A)
| Rejected (e : Error).
Arguments Fulfilled {A} a.
Arguments Rejected {A} e.

(** The platform promises the scripts await.  Reading a response as text is
    followed in the source by parsing it and selecting the drawer section:
    the result of [ReadText] is the rows of that section, when it is found. *)
Inductive AsyncOp : Type :=
| Fetch (request : Request)
| ReadJson (response : Response)
| ReadText (response : Response)
| Timeout (ms : nat).

Definition Result (op : AsyncOp) : Type :=
  match op with
  | Fetch _ => Response
  | ReadJson _ => JsValue
  | ReadText _ => option (list CartRow)
  | Timeout _ => unit
  end.

Definition is_timer (op : AsyncOp) : bool :=
  match op with
  | Timeout _ => true
  | _ => false
  end.

Section Async.

Context {Page : Type}.

Inductive Proc : Type :=
| Done
| Throw (e : Error)
| Act (f : Page -> Page) (k : Proc)
| Read (k : Page -> Proc)
| Await (op : AsyncOp) (k : Settled (Result op) -> Proc)
| Spawn (child : Proc) (k : Proc).

(** [p] followed by [q], when [p] completes without throwing. *)
Fixpoint and_then (p q : Proc) : Proc :=
  match p with
  | Done => q
  | Throw e => Throw e
  | Act f k => Act f (and_then k q)
  | Read k => Read (fun pg => and_then (k pg) q)
  | Await op k => Await op (fun o => and_then (k o) q)
  | Spawn c k => Spawn c (and_then k q)
  end.

(** [try { p } catch (e) { handler e }]. *)
Fixpoint try_catch (p : Proc) (handler : Error -> Proc) : Proc :=
  match p with
  | Done => Done
  | Throw e => handler e
  | Act f k => Act f (try_catch k handler)
  | Read k => Read (fun pg => try_catch (k pg) handler)
  | Await op k => Await op (fun o => try_catch (k o) handler)
  | Spawn c k => Spawn c (try_catch k handler)
  end.

(** [try { p } finally { fin }]: [fin] runs on both ways out of [p], and
    a throw of [p] goes on after it. *)
Fixpoint try_finally (p fin : Proc) : Proc :=
  match p with
  | Done => fin
  | Throw e => and_then fin (Throw e)
  | Act f k => Act f (try_finally k fin)
  | Read k => Read (fun pg => try_finally (k pg) fin)
  | Await op k => Await op (fun o => try_finally (k o) fin)
  | Spawn c k => Spawn c (try_finally k fin)
  end.

(** [setTimeout(callback, ms)]. *)
Definition setTimeout (callback : Proc) (ms : nat) (k : Proc) : Proc :=
  Spawn (Await (Timeout ms) (fun _ => callback)) k.

(** A suspended async function: the promise it awaits and what it does
    when the promise settles. *)
Record Task : Type := { op : AsyncOp; resume : Settled (Result op) -> Proc }.

(** The state of the page's event loop: the page, the suspended
    functions (oldest first), the requests sent so far (oldest first) and
    the errors no handler caught. *)
Record Loop : Type := {
  page : Page;
  pending : list Task;
  sent : list Request;
  unhandled : list Error
}.

Definition idle (pg : Page) : Loop :=
  {| page := pg; pending := []; sent := []; unhandled := [] |}.

Definition requests_of (o : AsyncOp) : list Request :=
  match o with
  | Fetch r => [r]
  | _ => []
  end.

(** Runs [p] until it completes or suspends: JavaScript runs a function
    to its next [await] without interruption.  A call that is not awaited
    runs to its own first suspension before its caller goes on. *)
Fixpoint exec (p : Proc) (s : Loop) : Loop :=
  match p with
  | Done => s
  | Throw e =>
      {| page := page s; pending := pending s; sent := sent s;
         unhandled := unhandled s ++ [e] |}
  | Act f k =>
      exec k {| page := f (page s); pending := pending s; sent := sent s;
                unhandled := unhandled s |}
  | Read k => exec (k (page s)) s
  | Await o k =>
      {| page := page s;
         pending := pending s ++ [{| op := o; resume := k |}];
         sent := sent s ++ requests_of o;
         unhandled := unhandled s |}
  | Spawn c k => exec k (exec c s)
  end.

(** How the platform settles each promise. *)
Definition Env : Type := forall o : AsyncOp, Settled (Result o).

(** The promise of the [i]-th suspended function settles as [env] says,
    and the function runs on. *)
Definition settle (i : nat) (env : Env) (s : Loop) : Loop :=
  match pending s !! i with
  | Some t =>
      exec (resume t (env (op t)))
           {| page := page s; pending := delete i (pending s); sent := sent s;
              unhandled := unhandled s |}
  | None => s
  end.

(** What happens on the page: a handler is called (a click, a submit),
    or a promise settles. *)
Inductive Event : Type :=
| Call (handler : Proc)
| Settle (i : nat) (env : Env).

Definition step (s : Loop) (ev : Event) : Loop :=
  match ev with
  | Call handler => exec handler s
  | Settle i env => settle i env s
  end.

Definition run (evs : list Event) (s : Loop) : Loop := foldl step s evs.

(** Position of the oldest suspended function that does not wait for a
    timer. *)
Fixpoint first_io (tasks : list Task) : option nat :=
  match tasks with
  | [] => None
  | t :: rest => if is_timer (op t) then S <$> first_io rest else Some 0
  end.

(** Settles network promises oldest first, the [n]-th as [envs n] says,
    until none is left or [fuel] runs out; timers are left pending. *)
Fixpoint drain (fuel : nat) (envs : nat -> Env) (s : Loop) : Loop :=
  match fuel with
  | O => s
  | S fuel' =>
      match first_io (pending s) with
      | Some i => drain fuel' (fun n => envs (S n)) (settle i (envs 0) s)
      | None => s
      end
  end.

(** Settles promises in the order and the way [schedule] says. *)
Definition settle_all (schedule : list (nat * Env)) (s : Loop) : Loop :=
  foldl (fun s ie => settle (fst ie) (snd ie) s) s schedule.

(** *** Properties of every path of a function *)

(** Every promise [p] awaits, on any of its paths and in the functions
    it calls, satisfies [P]. *)
Fixpoint awaits (P : AsyncOp -> Prop) (p : Proc) : Prop :=
  match p with
  | Done | Throw _ => True
  | Act _ k => awaits P k
  | Read k => forall pg, awaits P (k pg)
  | Await o k => P o /\ forall x, awaits P (k x)
  | Spawn c k => awaits P c /\ awaits P k
  end.

(** No write of [p], on any of its paths, changes the part [g] of the
    page. *)
Fixpoint keeps {B : Type} (g : Page -> B) (p : Proc) : Prop :=
  match p with
  | Done | Throw _ => True
  | Act f k => (forall pg, g (f pg) = g pg) /\ keeps g k
  | Read k => forall pg, keeps g (k pg)
  | Await _ k => forall x, keeps g (k x)
  | Spawn c k => keeps g c /\ keeps g k
  end.

(** Every path of [p] comes to a write that leaves the part [g] of the
    page in a state satisfying [Q], whatever the page was, and changes [g]
    no more after it. *)
Fixpoint establishes {B : Type} (g : Page -> B) (Q : B -> Prop) (p : Proc) : Prop :=
  match p with
  | Done | Throw _ => False
  | Act f k => establishes g Q k \/ ((forall pg, Q (g (f pg))) /\ keeps g k)
  | Read k => forall pg, establishes g Q (k pg)
  | Await _ k => forall x, establishes g Q (k x)
  | Spawn c k => keeps g c /\ establishes g Q k
  end.

(** [p] and the functions it calls suspend at most [n] times in all. *)
Fixpoint within (n : nat) (p : Proc) : Prop :=
  match p with
  | Done | Throw _ => True
  | Act _ k => within n k
  | Read k => forall pg, within n (k pg)
  | Await _ k =>
      match n with
      | O => False
      | S m => forall x, within m (k x)
      end
  | Spawn c k => exists a b, a + b <= n /\ within a c /\ within b k
  end.

(** The same, of a suspended function when it runs on. *)
Definition task_awaits (P : AsyncOp -> Prop) (t : Task) : Prop :=
  forall x, awaits P (resume t x).

Definition task_keeps {B : Type} (g : Page -> B) (t : Task) : Prop :=
  forall x, keeps g (resume t x).

Definition task_establishes {B : Type} (g : Page -> B) (Q : B -> Prop) (t : Task) : Prop :=
  forall x, establishes g Q (resume t x).

(** [t] and what it calls are done after at most [w] promises have
    settled, its own included. *)
Definition task_within (t : Task) (w : nat) : Prop :=
  match w with
  | O => False
  | S m => forall x, within m (resume t x)
  end.

(** The part [g] of the page is on course to satisfy [Q]: every suspended
    function leaves [g] alone or establishes [Q], and either one that
    establishes [Q] is still suspended or [Q] holds now. *)
Definition on_course {B : Type} (g : Page -> B) (Q : B -> Prop) (s : Loop) : Prop :=
  Forall (fun t => task_keeps g t \/ task_establishes g Q t) (pending s)
  /\ (Exists (task_establishes g Q) (pending s) \/ Q (g (page s))).

End Async.

(** A condition on the requests among the awaited promises. *)
Definition on_fetch (P : Request -> Prop) (o : AsyncOp) : Prop :=
  match o with
  | Fetch request => P request
  | _ => True
  end.

Arguments Proc Page : clear implicits.
Arguments Task Page : clear implicits.
Arguments Loop Page : clear implicits.
Arguments Event Page : clear implicits.

(** *** Errors no handler catches *)

Section Uncaught.

Context {Page : Type}.

(** No path of [p] ends in a throw, in [p] or in a function it calls
    without awaiting it. *)
Fixpoint never_throws (p : Proc Page) : Prop :=
  match p with
  | Done => True
  | Throw _ => False
  | Act _ k => never_throws k
  | Read k => forall pg, never_throws (k pg)
  | Await _ k => forall x, never_throws (k x)
  | Spawn c k => never_throws c /\ never_throws k
  end.

(** The functions [p] calls without awaiting them never throw; what [p]
    itself throws is left to the handler around it. *)
Fixpoint calls_never_throw (p : Proc Page) : Prop :=
  match p with
  | Done | Throw _ => True
  | Act _ k => calls_never_throw k
  | Read k => forall pg, calls_never_throw (k pg)
  | Await _ k => forall x, calls_never_throw (k x)
  | Spawn c k => never_throws c /\ calls_never_throw k
  end.


End Uncaught.

(** ** Product form: variant resolution and display state *)

Module ProductForm.

Record Image : Type := { src : string; alt : option string }.

(** A variant as it appears in the product JSON. *)
Record Variant : Type := {
  id : Z;
  options : list string;
  price : Z;
  compare_at_price : option Z;
  available : bool;
  inventory_management : option string;
  inventory_quantity : Z;
  featured_image : option Image
}.

(** [new URLSearchParams(window.location.search)]: the decoded
    name/value pairs of the query string, in order. *)
Definition URLSearchParams : Type := list (string * string).

(** [urlParams.get(name)]: the first value under [name], or [null]. *)
Definition get (urlParams : URLSearchParams) (name : string) : option string :=
  snd <$> List.find (fun p => String.eqb (fst p) name) urlParams.

(** [getInitialVariant]: the URL's variant first, else the first available
    variant, else the first variant.  [None] is [undefined].  The comparison
    of an identifier with the integer read from the URL is that of JavaScript
    as long as the identifier is [safe]: an integer that is not [safe] is read
    as a Number of magnitude 2^53 or more, which no such identifier equals. *)
Definition getInitialVariant (variants : list Variant) (urlParams : URLSearchParams)
  : option Variant :=
  let variantId := get urlParams "variant" in
  let from_url :=
    match variantId with
    | Some variantId =>
        if truthy_string variantId
        then List.find (fun v => strict_eq_num (Num (id v)) (parseInt variantId None)) variants
        else None
    | None => None
    end in
  match from_url with
  | Some variant => Some variant
  | None =>
      match List.find available variants with
      | Some v => Some v
      | None => head variants
      end
  end.

(** The checked option inputs of the page: option index to the value of
    the checked input of that index, when there is one. *)
Abbreviation SelectionState := (gmap nat string).

(** [getSelectedOptions]: walks the option indices in order and pushes the
    checked value of each index that has one. *)
Definition getSelectedOptions (product_options : list string) (checked : SelectionState)
  : list string :=
  foldl (fun (opts : list string) (index : nat) =>
           match checked !! index with
           | Some value => (opts ++ [value])%list
           | None => opts
           end)
        [] (seq 0 (length product_options)).

(** [getVariantFromOptions]: the first variant whose option at each
    position of [opts] is the value at that position. *)
Definition getVariantFromOptions (variants : list Variant) (opts : list string)
  : option Variant :=
  List.find (fun variant =>
               every (fun option index =>
                        bool_decide (options variant !! index = Some option)) opts)
            variants.

(** What [onOptionChange] stores in [currentVariant]. *)
Definition resolve (product_options : list string) (variants : list Variant)
    (checked : SelectionState) : option Variant :=
  getVariantFromOptions variants (getSelectedOptions product_options checked).

(** The markup written into the stock status element: a [span] with a
    class and a text. *)
Record Span : Type := { class : string; text : string }.

(** [updateStockStatus]: [stockStatus] is the element's current content
    when the element exists; the result is its content afterwards. *)
Definition updateStockStatus (stockStatus : option Span) (currentVariant : Variant)
  : option Span :=
  match stockStatus with
  | None => None
  | Some _ =>
      if negb (available currentVariant) then
        Some {| class := "text-red-600"; text := "Out of Stock" |}
      else if truthy_opt (inventory_management currentVariant)
              && (inventory_quantity currentVariant <=? 5)%Z
              && (0 <? inventory_quantity currentVariant)%Z then
        Some {| class := "text-amber-600";
                text := "Only " ++ string_of_Z (inventory_quantity currentVariant) ++ " left" |}
      else
        Some {| class := "text-green-600"; text := "In Stock" |}
  end.

(** *** The add-to-cart submit handler *)

(** The add-to-cart button: its [disabled] property and the two classes
    the script toggles on it. *)
Record AddToCartButton : Type := {
  disabled : bool;
  opacity_50 : bool;
  cursor_not_allowed : bool
}.

(** What the handler reads and writes: [window.theme?.ajaxCart],
    [window.routes.cart_add_url], the fields of the form, the button and its label (each may be absent
    from the page), the current variant, whether the native submit was
    prevented, the console and the events dispatched on the document. *)
Record FormPage : Type := {
  ajaxCart : bool;
  cart_add_url : string;
  form_fields : list (string * string);
  addToCartButton : option AddToCartButton;
  addToCartText : option string;
  currentVariant : option Variant;
  defaultPrevented : bool;
  console : list string;
  dispatched : list (string * JsValue)
}.

Definition updateAddToCartState (enabled : bool) (label : string) (pg : FormPage)
  : FormPage :=
  let '(Build_FormPage a u f b t v d c e) := pg in
  Build_FormPage a u f
    (match b with
     | Some _ => Some {| disabled := negb enabled; opacity_50 := negb enabled;
                         cursor_not_allowed := negb enabled |}
     | None => None
     end)
    (match t with Some _ => Some label | None => None end)
    v d c e.

Definition preventDefault (pg : FormPage) : FormPage :=
  let '(Build_FormPage a u f b t v d c e) := pg in
  Build_FormPage a u f b t v true c e.

Definition console_error (line : string) (pg : FormPage) : FormPage :=
  let '(Build_FormPage a u f b t v d c e) := pg in
  Build_FormPage a u f b t v d (c ++ [line])%list e.

Definition dispatchEvent (type : string) (detail : JsValue) (pg : FormPage) : FormPage :=
  let '(Build_FormPage a u f b t v d c e) := pg in
  Build_FormPage a u f b t v d c (e ++ [(type, detail)])%list.

(** [updateAvailability]: reading [available] of a missing current
    variant throws. *)
Definition updateAvailability (k : Proc FormPage) : Proc FormPage :=
  Read (fun pg =>
    match currentVariant pg with
    | None => Throw (TypeError "Cannot read properties of undefined")
    | Some v =>
        if available v
        then Act (updateAddToCartState true "Add to Cart") k
        else Act (updateAddToCartState false "Sold Out") k
    end).

Definition onFormSubmit (k : Proc FormPage) : Proc FormPage :=
  Read (fun pg =>
    if negb (ajaxCart pg) then k
    else
      Act preventDefault
      (Read (fun pg =>
         let formData := form_fields pg in
         Act (updateAddToCartState false "Adding...")
         (and_then
            (try_catch
               (Read (fun pg =>
                  Await (Fetch {| url := cart_add_url pg; method := "POST";
                                  headers := [("X-Requested-With", "XMLHttpRequest")];
                                  body := FormData formData |})
                    (fun settled =>
                       match settled with
                       | Rejected e => Throw e
                       | Fulfilled response =>
                           if negb (ok response)
                           then Throw (new_Error "Add to cart failed")
                           else
                             Await (ReadJson response)
                               (fun settled =>
                                  match settled with
                                  | Rejected e => Throw e
                                  | Fulfilled result =>
                                      Act (dispatchEvent "cart:updated"
                                             (JObject [("item", result)]))
                                      (Act (updateAddToCartState true "Added!")
                                      (setTimeout
                                         (Act (updateAddToCartState true "Add to Cart") Done)
                                         1500
                                      (Act (dispatchEvent "cart:open" JUndefined) Done)))
                                  end)
                       end)))
               (fun error =>
                  Act (console_error "Add to cart error:")
                  (Act (updateAddToCartState true "Error - Try Again")
                  (setTimeout (updateAvailability Done) 2000 Done))))
            k)))).

(** *** The page as the option, quantity and display handlers write it *)


Fixpoint has_dot (s : string) : bool :=
  match s with
  | EmptyString => false
  | String c rest => Ascii.eqb c "." || has_dot rest
  end.

(** The [src.replace] of [updateImage]: its pattern, a dot and then
    characters other than a dot up to the end of the string, matches from
    the last dot on, and the match is put back after the size suffix. *)
Fixpoint replace_extension (src : string) : string :=
  match src with
  | EmptyString => EmptyString
  | String c rest =>
      if Ascii.eqb c "." && negb (has_dot rest)
      then "_800x" ++ src
      else String c (replace_extension rest)
  end.

Record PriceElement : Type := { price_text : string; text_red_600 : bool }.

Record ComparePriceElement : Type := { compare_text : string; hidden : bool }.

Record MainImage : Type := { image_src : string; image_alt : string }.

(** The product page: the form with the add-to-cart button and the
    current variant, the product JSON (title, option names, variants), the
    checked option inputs, the elements the constructor looks up (each may be
    absent), the value of the quantity input and the query of the page's
    URL. *)
Record ProductPage : Type := {
  form : FormPage;
  title : string;
  product_options : list string;
  variants : list Variant;
  checked : SelectionState;
  variantIdInput : option string;
  priceElement : option PriceElement;
  comparePriceElement : option ComparePriceElement;
  mainImage : option MainImage;
  stockStatus : option Span;
  quantityInput : option string;
  search : URLSearchParams
}.





Definition set_mainImage (img : MainImage) (pg : ProductPage) : ProductPage :=
  let '(Build_ProductPage a b c d e g h i j k l m) := pg in
  Build_ProductPage a b c d e g h i (Some img) k l m.


Definition set_quantityInput (value : string) (pg : ProductPage) : ProductPage :=
  let '(Build_ProductPage a b c d e g h i j k l m) := pg in
  Build_ProductPage a b c d e g h i j k (Some value) m.



(** [updateQuantity(change)]: a value that does not read as a number, or
    reads as 0, counts as 1.  The sum and the text written are those of
    JavaScript as long as the numbers are [safe]. *)
Definition updateQuantity (change : Z) (pg : ProductPage) : ProductPage :=
  match quantityInput pg with
  | None => pg
  | Some value =>
      let currentValue :=
        if truthy (JNumber (parseInt value None)) then parseInt value None else Num 1 in
      let newValue := Math_max (Num 1) (js_add currentValue (Num change)) in
      set_quantityInput (to_string (JNumber newValue)) pg
  end.


(** [updateImage]. *)
Definition updateImage (v : Variant) (pg : ProductPage) : ProductPage :=
  match mainImage pg, featured_image v with
  | Some _, Some image =>
      set_mainImage {| image_src := replace_extension (src image);
                       image_alt := match alt image with
                                    | Some a => if truthy_string a then a else title pg
                                    | None => title pg
                                    end |} pg
  | _, _ => pg
  end.

Section Display.

(** [formatMoney] divides in floating point and reads the shop's money
    format; the text it gives for an amount in cents is taken as given. *)
Variable formatMoney : Z -> string.




End Display.

End ProductForm.

(** ** Cart drawer *)

Module CartDrawer.

Record SubmitButton : Type := { disabled : bool; textContent : string }.

(** A cart count badge: the value assigned to its text and its CSS
    [display]. *)
Record Badge : Type := { badge_text : JsValue; badge_display : string }.

Record Routes : Type := {
  cart_url : string;
  cart_add_url : string;
  cart_change_url : string
}.

(** An add-to-cart form: which form of the page it is, and its fields. *)
Record Form : Type := { form_id : nat; fields : list (string * string) }.

(** The part of the page the drawer works on: the [isOpen] flag, the
    drawer's [is-open] and [is-loading] classes, the overlay (when the page
    has one) and its [is-visible] class, [document.body.style.overflow], the
    contents container (when the drawer has one) with the cart rows in it,
    the count badges, the submit button of each form that has one,
    [window.routes], the console, the alerts shown and the
    events dispatched on the document. *)
Record Page : Type := {
  isOpen : bool;
  is_open_class : bool;
  is_loading : bool;
  overlay : option bool;
  body_overflow : string;
  contents : option (list CartRow);
  badges : list Badge;
  submit_buttons : gmap nat SubmitButton;
  routes : Routes;
  console : list string;
  alerts : list string;
  dispatched : list (string * JsValue)
}.

Definition set_isOpen (v : bool) (pg : Page) : Page :=
  let '(Build_Page a b c d e f g h i j k l) := pg in Build_Page v b c d e f g h i j k l.

Definition set_is_loading (v : bool) (pg : Page) : Page :=
  let '(Build_Page a b c d e f g h i j k l) := pg in Build_Page a b v d e f g h i j k l.

(** The drawer, overlay and body as [open] (true) or [close] (false)
    leave them. *)
Definition set_shown (v : bool) (pg : Page) : Page :=
  let '(Build_Page a b c d e f g h i j k l) := pg in
  Build_Page a v c (match d with Some _ => Some v | None => None end)
             (if v then "hidden" else "") f g h i j k l.

Definition set_contents (rows : list CartRow) (pg : Page) : Page :=
  let '(Build_Page a b c d e f g h i j k l) := pg in
  Build_Page a b c d e (Some rows) g h i j k l.

Definition set_badges (bs : list Badge) (pg : Page) : Page :=
  let '(Build_Page a b c d e f g h i j k l) := pg in Build_Page a b c d e f bs h i j k l.

Definition set_button (form : nat) (btn : SubmitButton) (pg : Page) : Page :=
  let '(Build_Page a b c d e f g h i j k l) := pg in
  Build_Page a b c d e f g (<[form := btn]> h) i j k l.

Definition console_error (line : string) (pg : Page) : Page :=
  let '(Build_Page a b c d e f g h i j k l) := pg in
  Build_Page a b c d e f g h i (j ++ [line])%list k l.

Definition alert (msg : string) (pg : Page) : Page :=
  let '(Build_Page a b c d e f g h i j k l) := pg in
  Build_Page a b c d e f g h i j (k ++ [msg])%list l.

Definition dispatchEvent (type : string) (detail : JsValue) (pg : Page) : Page :=
  let '(Build_Page a b c d e f g h i j k l) := pg in
  Build_Page a b c d e f g h i j k (l ++ [(type, detail)])%list.

(** [window.routes]. *)
Definition with_routes (k : Routes -> Proc Page) : Proc Page :=
  Read (fun pg => k (routes pg)).

Definition _setLoading (loading : bool) (k : Proc Page) : Proc Page :=
  Act (set_is_loading loading) k.

(** [updateCount]: the badges are set from [cart.item_count]; with no
    badge on the page the property is never read. *)
Definition updateCount (k : Proc Page) : Proc Page :=
  and_then
    (try_catch
       (with_routes (fun r =>
          Await (Fetch (GET (cart_url r ++ ".js")))
            (fun settled =>
               match settled with
               | Rejected e => Throw e
               | Fulfilled response =>
                   Await (ReadJson response)
                     (fun settled =>
                        match settled with
                        | Rejected e => Throw e
                        | Fulfilled cart =>
                            Read (fun pg =>
                              match badges pg with
                              | [] => Done
                              | _ :: _ =>
                                  match get_prop cart "item_count" with
                                  | Thrown e => Throw e
                                  | Normal item_count =>
                                      Act (fun pg =>
                                             set_badges
                                               (List.map
                                                  (fun _ =>
                                                     {| badge_text := item_count;
                                                        badge_display :=
                                                          if greater_than_zero item_count
                                                          then "" else "none" |})
                                                  (badges pg))
                                               pg)
                                          Done
                                  end
                              end)
                        end)
               end)))
       (fun e => Act (console_error "CartDrawer: Count update failed") Done))
    k.

(** [refresh]: the rows of the fetched section replace those of the
    contents container when both exist; [updateCount] is called and not
    awaited. *)
Definition refresh (k : Proc Page) : Proc Page :=
  and_then
    (try_catch
       (with_routes (fun r =>
          Await (Fetch (GET (cart_url r ++ "?section_id=cart-drawer-contents")))
            (fun settled =>
               match settled with
               | Rejected e => Throw e
               | Fulfilled response =>
                   if negb (ok response) then Throw (new_Error "Refresh failed")
                   else
                     Await (ReadText response)
                       (fun settled =>
                          match settled with
                          | Rejected e => Throw e
                          | Fulfilled newContent =>
                              Act (fun pg =>
                                     match contents pg, newContent with
                                     | Some _, Some rows => set_contents rows pg
                                     | _, _ => pg
                                     end)
                              (Spawn (updateCount Done) Done)
                          end)
               end)))
       (fun e => Act (console_error "CartDrawer: Refresh failed") Done))
    k.

Definition open (k : Proc Page) : Proc Page :=
  Read (fun pg =>
    if isOpen pg then k
    else Act (set_isOpen true) (refresh (Act (set_shown true) k))).

Definition close (pg : Page) : Page :=
  if negb (isOpen pg) then pg else set_shown false (set_isOpen false pg).

Definition toggle (k : Proc Page) : Proc Page :=
  Read (fun pg => if isOpen pg then Act close k else Spawn (open Done) k).

(** [addItem(form)]. *)
Definition addItem (form : Form) (k : Proc Page) : Proc Page :=
  Read (fun pg =>
    let submitBtn := submit_buttons pg !! form_id form in
    let originalText := textContent <$> submitBtn in
    Act (match submitBtn with
         | Some _ => set_button (form_id form) {| disabled := true; textContent := "Adding..." |}
         | None => fun pg => pg
         end)
    (and_then
       (try_finally
          (try_catch
             (with_routes (fun r =>
                Await (Fetch {| url := cart_add_url r ++ ".js"; method := "POST";
                                headers := []; body := FormData (fields form) |})
                  (fun settled =>
                     match settled with
                     | Rejected e => Throw e
                     | Fulfilled response =>
                         if negb (ok response) then
                           Await (ReadJson response)
                             (fun settled =>
                                match settled with
                                | Rejected e => Throw e
                                | Fulfilled error =>
                                    match get_prop error "description" with
                                    | Thrown e => Throw e
                                    | Normal description =>
                                        Throw (new_Error
                                                 (if truthy description
                                                  then to_string description
                                                  else "Failed to add item"))
                                    end
                                end)
                         else
                           refresh
                             (Spawn (open Done)
                                (Await (ReadJson response)
                                   (fun settled =>
                                      match settled with
                                      | Rejected e => Throw e
                                      | Fulfilled detail =>
                                          Act (dispatchEvent "cart:add" detail) Done
                                      end)))
                     end)))
             (fun e =>
                Act (console_error "CartDrawer: Add failed")
                (Act (alert (if truthy_string (message e) then message e
                             else "Failed to add item to cart"))
                   Done)))
          (Act (match originalText with
                | Some original =>
                    set_button (form_id form) {| disabled := false; textContent := original |}
                | None => fun pg => pg
                end)
             Done))
       k)).

(** [updateItem(key, quantity)]. *)
Definition updateItem (key : string) (quantity : JsNum) (k : Proc Page) : Proc Page :=
  _setLoading true
    (and_then
       (try_finally
          (try_catch
             (with_routes (fun r =>
                Await (Fetch {| url := cart_change_url r ++ ".js"; method := "POST";
                                headers := [("Content-Type", "application/json")];
                                body := JsonBody (JObject [("id", JString key);
                                                           ("quantity", JNumber quantity)]) |})
                  (fun settled =>
                     match settled with
                     | Rejected e => Throw e
                     | Fulfilled response =>
                         if negb (ok response) then Throw (new_Error "Update failed")
                         else refresh Done
                     end)))
             (fun e => Act (console_error "CartDrawer: Update failed") Done))
          (_setLoading false Done))
       k).

(** [removeItem(key)]. *)
Definition removeItem (key : string) (k : Proc Page) : Proc Page :=
  updateItem key (Num 0) k.

(** The characters that cannot stand as they are inside a double-quoted
    string of a selector: the double quote, the backslash, the line feed, the
    form feed and the carriage return end or escape the string, and a NUL is
    replaced. *)
Definition breaks_string (c : ascii) : bool :=
  let n := nat_of_ascii c in
  (n =? 0)%nat || (n =? 10)%nat || (n =? 12)%nat || (n =? 13)%nat
  || (n =? 34)%nat || (n =? 92)%nat.

Fixpoint selector_safe (key : string) : bool :=
  match key with
  | EmptyString => true
  | String c rest => negb (breaks_string c) && selector_safe rest
  end.

(** [this.drawer.querySelector(`[data-cart-item="${key}"]`)]: the key is
    written into the selector as it is.  For a key without a character that
    breaks the string, the selector finds the first row whose attribute is
    the key, or [null].  A key with a double quote or a line break makes, as
    a rule, a text that is no selector, and [querySelector] throws a
    [SyntaxError]; a key with a backslash or a NUL makes a selector for
    another key.  The model takes the throw for all of these: what is proved
    of [changeQuantity] is proved for keys that do not break the string, and
    its failure is shown at a key with a double quote. *)
Definition itemRow (key : string) (pg : Page) : Completion (option CartRow) :=
  if selector_safe key
  then Normal (match contents pg with
               | Some rows => List.find (fun row => String.eqb (item_key row) key) rows
               | None => None
               end)
  else Thrown (SyntaxError "The string did not match the expected pattern").

(** [quantityEl?.textContent || '1'], for the quantity element of the
    row, when there is a row and it has one. *)
Definition displayed_text (itemRow : option CartRow) : string :=
  match itemRow ≫= quantity_text with
  | Some t => if truthy_string t then t else "1"
  | None => "1"
  end.

(** [changeQuantity(key, change)]: the row is looked up outside any
    [try]. *)
Definition changeQuantity (key : string) (change : Z) (k : Proc Page) : Proc Page :=
  Read (fun pg =>
    match itemRow key pg with
    | Thrown e => Throw e
    | Normal itemRow =>
        let currentQty := parseInt (displayed_text itemRow) (Some 10%Z) in
        let newQty := Math_max (Num 0) (js_add currentQty (Num change)) in
        if strict_eq_num newQty (Num 0) then removeItem key k
        else updateItem key newQty k
    end).

(** *** The shop behind the endpoints

    A remote cart that applies each change request when it handles it,
    renders the drawer section from its lines and reports the item count. *)




Definition item_count (lines : list (string * Z)) : Z :=
  fold_right (fun l n => (snd l + n)%Z) 0%Z lines.









End CartDrawer.


(** ** Client-side storage

    [localStorage] holds strings under string keys.  A browser can refuse
    access to it altogether ([readable] false: every call throws) or refuse
    writes ([writable] false: [setItem] throws, as when the quota is
    exhausted). *)

Record Storage : Type := {
  entries : gmap string string;
  readable : bool;
  writable : bool
}.

(** [JSON.parse] and [JSON.stringify] of the platform. *)
Record Json : Type := {
  parse : string -> Completion JsValue;
  stringify : JsValue -> string
}.

(** A counter element of the page: the value assigned to its text and its
    CSS [display]. *)
Record Counter : Type := { counter_text : JsValue; counter_display : string }.

(** What the storage modules read and write. *)
Record Browser : Type := {
  localStorage : Storage;
  wishlist_counters : list Counter;
  console : list string;
  dispatched : list (string * JsValue)
}.

(** Script code working on the browser: it ends with a value or a thrown
    error, and leaves a browser state either way. *)
Definition M (A : Type) : Type := Browser -> Completion A * Browser.

Definition ret {A : Type} (a : A) : M A := fun b => (Normal a, b).

Definition bind {A B : Type} (m : M A) (f : A -> M B) : M B := fun b =>
  match m b with
  | (Normal a, b') => f a b'
  | (Thrown e, b') => (Thrown e, b')
  end.

Notation "'let!' x ':=' m 'in' k" := (bind m (fun x => k))
  (at level 10, x name, m at level 100, k at level 200).
Notation "'run!' m 'in' k" := (bind m (fun _ => k))
  (at level 10, m at level 100, k at level 200).

Definition throw {A : Type} (e : Error) : M A := fun b => (Thrown e, b).

Definition lift {A : Type} (c : Completion A) : M A := fun b => (c, b).

(** [try { m } catch (e) { handler e }]. *)
Definition try_ {A : Type} (m : M A) (handler : Error -> M A) : M A := fun b =>
  match m b with
  | (Normal a, b') => (Normal a, b')
  | (Thrown e, b') => handler e b'
  end.

Definition getItem (key : string) : M (option string) := fun b =>
  if readable (localStorage b) then (Normal (entries (localStorage b) !! key), b)
  else (Thrown {| name := "SecurityError"; message := "The operation is insecure." |}, b).

Definition setItem (key value : string) : M unit := fun b =>
  let st := localStorage b in
  if negb (readable st) then
    (Thrown {| name := "SecurityError"; message := "The operation is insecure." |}, b)
  else if negb (writable st) then
    (Thrown {| name := "QuotaExceededError"; message := "The quota has been exceeded." |}, b)
  else
    (Normal tt,
     {| localStorage := {| entries := <[key := value]> (entries st);
                           readable := readable st; writable := writable st |};
        wishlist_counters := wishlist_counters b;
        console := console b;
        dispatched := dispatched b |}).

Definition console_log (line : string) : M unit := fun b =>
  (Normal tt,
   {| localStorage := localStorage b; wishlist_counters := wishlist_counters b;
      console := console b ++ [line]; dispatched := dispatched b |}).

Definition dispatchEvent (type : string) (detail : JsValue) : M unit := fun b =>
  (Normal tt,
   {| localStorage := localStorage b; wishlist_counters := wishlist_counters b;
      console := console b; dispatched := dispatched b ++ [(type, detail)] |}).

Definition get_counters : M (list Counter) := fun b =>
  (Normal (wishlist_counters b), b).

Definition set_counters (cs : list Counter) : M unit := fun b =>
  (Normal tt,
   {| localStorage := localStorage b; wishlist_counters := cs;
      console := console b; dispatched := dispatched b |}).

(** [x === handle] for a string [handle]. *)
Definition is_string (handle : string) (x : JsValue) : bool :=
  match x with
  | JString s => String.eqb s handle
  | _ => false
  end.

(** [items.includes(handle)]: arrays and strings have the method. *)
Definition includes (items : JsValue) (handle : string) : Completion bool :=
  match items with
  | JArray l => Normal (existsb (is_string handle) l)
  | JString s => Normal (match String.index 0 handle s with Some _ => true | None => false end)
  | _ => Thrown (TypeError "items.includes is not a function")
  end.

(** [items.length]. *)
Definition length_of (items : JsValue) : Completion JsValue :=
  match items with
  | JArray l => Normal (JNumber (Num (Z.of_nat (length l))))
  | JString s => Normal (JNumber (Num (Z.of_nat (String.length s))))
  | _ => get_prop items "length"
  end.

Fixpoint find_index {A : Type} (p : A -> bool) (l : list A) : option nat :=
  match l with
  | [] => None
  | x :: rest => if p x then Some 0 else S <$> find_index p rest
  end.

(** [items.indexOf(handle)]: arrays and strings have the method; [None]
    is the result -1. *)
Definition indexOf (items : JsValue) (handle : string) : Completion (option nat) :=
  match items with
  | JArray l => Normal (find_index (is_string handle) l)
  | JString s => Normal (String.index 0 handle s)
  | _ => Thrown (TypeError "items.indexOf is not a function")
  end.

Module Wishlist.
Section WithJson.

Variable JSON : Json.

Definition STORAGE_KEY : string := "athyre_wishlist".
Definition MAX_ITEMS : nat := 50.

Definition getAll : M JsValue :=
  try_ (let! data := getItem STORAGE_KEY in
        match data with
        | Some data => if truthy_string data then lift (parse JSON data) else ret (JArray [])
        | None => ret (JArray [])
        end)
       (fun e => run! console_log "Wishlist: Failed to parse localStorage" in ret (JArray [])).

Definition has (handle : string) : M bool :=
  let! items := getAll in lift (includes items handle).

Definition count : M JsValue :=
  let! items := getAll in lift (length_of items).

Definition _updateCounters : M unit :=
  let! n := count in
  let! counters := get_counters in
  set_counters
    (List.map (fun _ => {| counter_text := n;
                           counter_display := if greater_than_zero n then "" else "none" |})
              counters).

Definition _save (items : JsValue) : M unit :=
  try_ (run! setItem STORAGE_KEY (stringify JSON items) in _updateCounters)
       (fun e => console_log "Wishlist: Failed to save to localStorage").

Definition _dispatch (eventName : string) (detail : JsValue) : M unit :=
  dispatchEvent eventName detail.

(** [add(handle)]: a string has [includes] and [length] but neither
    [shift] nor [push]. *)
Definition add (handle : string) : M bool :=
  if negb (truthy_string handle) then ret false
  else
    let! items := getAll in
    let! found := lift (includes items handle) in
    if found then ret false
    else
      match items with
      | JArray l =>
          let l := if (MAX_ITEMS <=? length l)%nat then tail l else l in
          let l := (l ++ [JString handle])%list in
          run! _save (JArray l) in
          run! _dispatch "wishlist:add" (JObject [("handle", JString handle)]) in
          ret true
      | _ => throw (TypeError "items.push is not a function")
      end.

(** [remove(handle)]: only an array has [splice]. *)
Definition remove (handle : string) : M bool :=
  let! items := getAll in
  let! index := lift (indexOf items handle) in
  match index with
  | None => ret false
  | Some index =>
      match items with
      | JArray l =>
          run! _save (JArray (delete index l)) in
          run! _dispatch "wishlist:remove" (JObject [("handle", JString handle)]) in
          ret true
      | _ => throw (TypeError "items.splice is not a function")
      end
  end.

(** [toggle(handle)]: what [remove] and [add] return is dropped. *)
Definition toggle (handle : string) : M bool :=
  let! present := has handle in
  if present then run! remove handle in ret false
  else run! add handle in ret true.

Definition clear : M unit :=
  run! _save (JArray []) in _dispatch "wishlist:clear" (JObject []).

End WithJson.
End Wishlist.

Module RecentlyViewed.
Section WithJson.

Variable JSON : Json.

Definition STORAGE_KEY : string := "athyre_recently_viewed".
Definition MAX_ITEMS : nat := 12.

Definition getAll : M JsValue :=
  try_ (let! data := getItem STORAGE_KEY in
        match data with
        | Some data => if truthy_string data then lift (parse JSON data) else ret (JArray [])
        | None => ret (JArray [])
        end)
       (fun e => run! console_log "RecentlyViewed: Failed to parse localStorage" in ret (JArray [])).

Definition _save (items : JsValue) : M unit :=
  try_ (setItem STORAGE_KEY (stringify JSON items))
       (fun e => console_log "RecentlyViewed: Failed to save to localStorage").

Definition count : M JsValue :=
  let! items := getAll in lift (length_of items).

(** [add(handle)]: only an array has [filter]. *)
Definition add (handle : string) : M unit :=
  if negb (truthy_string handle) then ret tt
  else
    let! items := getAll in
    match items with
    | JArray l =>
        let l := List.filter (fun h => negb (is_string handle h)) l in
        let l := JString handle :: l in
        let l := if (MAX_ITEMS <? length l)%nat then take MAX_ITEMS l else l in
        _save (JArray l)
    | _ => throw (TypeError "items.filter is not a function")
    end.

(** [getExcluding(currentHandle)]. *)
Definition getExcluding (currentHandle : string) : M JsValue :=
  let! items := getAll in
  match items with
  | JArray l => ret (JArray (List.filter (fun h => negb (is_string currentHandle h)) l))
  | _ => throw (TypeError "getAll(...).filter is not a function")
  end.

Definition clear : M unit := _save (JArray []).

(** [trackCurrentProduct]: [productHandle] is the handle of the element
    carrying [data-product-handle], when the page has one. *)
Definition trackCurrentProduct (productHandle : option string) : M unit :=
  match productHandle with
  | Some productHandle => if truthy_string productHandle then add productHandle else ret tt
  | None => ret tt
  end.

End WithJson.
End RecentlyViewed.

Module CookieConsent.
Section WithJson.

Variable JSON : Json.

Definition STORAGE_KEY : string := "athyre_cookie_consent".

Definition no_consent : JsValue :=
  JObject [("analytics", JBool false); ("marketing", JBool false);
           ("preferences", JBool false)].

Definition getConsent : M JsValue :=
  try_ (let! details := getItem (STORAGE_KEY ++ "_details") in
        match details with
        | Some details =>
            if truthy_string details then lift (parse JSON details) else ret no_consent
        | None => ret no_consent
        end)
       (fun e => ret no_consent).

(** [hasConsent(category)]: the stored value when it is truthy, else
    [false]. *)
Definition hasConsent (category : string) : M JsValue :=
  let! consent := getConsent in
  let! value := lift (get_prop consent category) in
  ret (if truthy value then value else JBool false).

(** The consent objects the module builds itself. *)
Record Consent : Type := { analytics : bool; marketing : bool; preferences : bool }.

Definition to_object (consent : Consent) : JsValue :=
  JObject [("analytics", JBool (analytics consent));
           ("marketing", JBool (marketing consent));
           ("preferences", JBool (preferences consent))].

Record Banner : Type := { display : string; is_visible : bool }.

(** An element that carries [data-cookie-category]: the category, its
    [data-activated], [data-src] and [data-async] attributes, and its text. *)
Record Script : Type := {
  category : string;
  activated : option string;
  data_src : option string;
  data_async : option string;
  inline : string
}.

(** A script element appended to the head: its [src], and whether
    [async] was set on it. *)
Record Inserted : Type := { inserted_src : string; async : bool }.

(** [window.Shopify.customerPrivacy]: the answer [userCanBeTracked] gives
    on this page, and the consents handed to [setTrackingConsent].  When the
    platform calls the callback passed along, which only logs, is the
    platform's. *)
Record CustomerPrivacy : Type := {
  userCanBeTracked : bool;
  tracking_consent : list JsValue
}.

(** What the module reads and writes: the storage, console and events,
    the banner element (when the page has one), the privacy API (when the
    page has it), the elements with a cookie category in document order, the
    scripts appended to the head, the code handed to [eval] (what that code
    does is not the module's), the three checkboxes and the preferences panel
    with its [is-visible] class (each when the page has it), and whether the
    click handlers are bound. *)
Record Page : Type := {
  browser : Browser;
  banner : option Banner;
  customerPrivacy : option CustomerPrivacy;
  scripts : list Script;
  inserted : list Inserted;
  evaluated : list string;
  analyticsCheckbox : option bool;
  marketingCheckbox : option bool;
  preferencesCheckbox : option bool;
  preferencesPanel : option bool;
  bound : bool
}.

Definition set_browser (b : Browser) (pg : Page) : Page :=
  let '(Build_Page _ c d e f g h i j k l) := pg in Build_Page b c d e f g h i j k l.

Definition set_banner (v : Banner) (pg : Page) : Page :=
  let '(Build_Page b _ d e f g h i j k l) := pg in Build_Page b (Some v) d e f g h i j k l.

Definition set_customerPrivacy (v : CustomerPrivacy) (pg : Page) : Page :=
  let '(Build_Page b c _ e f g h i j k l) := pg in Build_Page b c (Some v) e f g h i j k l.

Definition set_scripts (v : list Script) (pg : Page) : Page :=
  let '(Build_Page b c d _ f g h i j k l) := pg in Build_Page b c d v f g h i j k l.

Definition appendChild (v : Inserted) (pg : Page) : Page :=
  let '(Build_Page b c d e f g h i j k l) := pg in
  Build_Page b c d e (f ++ [v])%list g h i j k l.

Definition eval (code : string) (pg : Page) : Page :=
  let '(Build_Page b c d e f g h i j k l) := pg in
  Build_Page b c d e f (g ++ [code])%list h i j k l.

Definition set_panel (visible : bool) (pg : Page) : Page :=
  let '(Build_Page b c d e f g h i j k l) := pg in
  Build_Page b c d e f g h i j (match k with Some _ => Some visible | None => None end) l.

Definition set_bound (pg : Page) : Page :=
  let '(Build_Page b c d e f g h i j k l) := pg in Build_Page b c d e f g h i j k true.

(** A call that works on the storage, the console or the document's
    events: its value goes to what follows, its throw is thrown on. *)
Definition storage {A : Type} (m : M A) (k : A -> Proc Page) : Proc Page :=
  Read (fun pg =>
    match m (browser pg) with
    | (Normal a, b) => Act (set_browser b) (k a)
    | (Thrown e, b) => Act (set_browser b) (Throw e)
    end).

(** A write to [this.banner], which throws when there is none. *)
Definition with_banner (f : Banner -> Banner) (k : Proc Page) : Proc Page :=
  Read (fun pg =>
    match banner pg with
    | Some b => Act (set_banner (f b)) k
    | None => Throw (TypeError "Cannot read properties of null")
    end).

Definition _showBanner (k : Proc Page) : Proc Page :=
  with_banner (fun _ => {| display := ""; is_visible := true |}) k.

Definition _hideBanner (k : Proc Page) : Proc Page :=
  with_banner (fun b => {| display := display b; is_visible := false |})
    (setTimeout
       (with_banner (fun b => {| display := "none"; is_visible := is_visible b |}) Done)
       300 k).

(** [_activateScript(script)], for the [i]-th element. *)
Definition _activateScript (i : nat) (pg : Page) : Page :=
  match scripts pg !! i with
  | None => pg
  | Some script =>
      if truthy_opt (activated script) then pg
      else
        let pg :=
          set_scripts (<[i := {| category := category script; activated := Some "true";
                                 data_src := data_src script; data_async := data_async script;
                                 inline := inline script |}]> (scripts pg)) pg in
        match data_src script with
        | Some src =>
            if truthy_string src
            then appendChild {| inserted_src := src;
                                async := truthy_opt (data_async script) |} pg
            else if truthy_string (inline script) then eval (inline script) pg
            else pg
        | None => if truthy_string (inline script) then eval (inline script) pg else pg
        end
  end.

(** The [forEach] over the elements of one category, selected before the
    first of them is activated. *)
Definition activate_category (name : string) (pg : Page) : Page :=
  foldl (fun pg i => _activateScript i pg) pg
        (List.filter (fun i => match scripts pg !! i with
                               | Some script => String.eqb (category script) name
                               | None => false
                               end)
                     (seq 0 (length (scripts pg)))).

(** [_loadTrackingScripts]: reading a category from a stored [null]
    throws. *)
Definition _loadTrackingScripts (k : Proc Page) : Proc Page :=
  storage getConsent (fun consent =>
  storage (dispatchEvent "cookie:load-scripts" consent) (fun _ =>
  match get_prop consent "analytics" with
  | Thrown e => Throw e
  | Normal a =>
      Act (fun pg => if truthy a then activate_category "analytics" pg else pg)
      (match get_prop consent "marketing" with
       | Thrown e => Throw e
       | Normal m =>
           Act (fun pg => if truthy m then activate_category "marketing" pg else pg) k
       end)
  end)).

(** [_setConsent(consent)]. *)
Definition _setConsent (consent : Consent) (k : Proc Page) : Proc Page :=
  storage (setItem STORAGE_KEY
             (if analytics consent || marketing consent then "accepted" else "rejected"))
    (fun _ =>
  storage (setItem (STORAGE_KEY ++ "_details") (stringify JSON (to_object consent)))
    (fun _ =>
  Act (fun pg =>
         match customerPrivacy pg with
         | Some p =>
             set_customerPrivacy
               {| userCanBeTracked := userCanBeTracked p;
                  tracking_consent := tracking_consent p ++ [to_object consent] |} pg
         | None => pg
         end)
  (storage (dispatchEvent "cookie:consent" (to_object consent)) (fun _ => k)))).

Definition acceptAll (k : Proc Page) : Proc Page :=
  _setConsent {| analytics := true; marketing := true; preferences := true |}
    (_hideBanner (_loadTrackingScripts k)).

Definition rejectNonEssential (k : Proc Page) : Proc Page :=
  _setConsent {| analytics := false; marketing := false; preferences := false |}
    (_hideBanner k).

Definition showPreferences (k : Proc Page) : Proc Page := Act (set_panel true) k.

(** [savePreferences]: a checkbox the page does not have counts as not
    checked. *)
Definition savePreferences (k : Proc Page) : Proc Page :=
  Read (fun pg =>
    let consent := {| analytics := default false (analyticsCheckbox pg);
                      marketing := default false (marketingCheckbox pg);
                      preferences := default false (preferencesCheckbox pg) |} in
    _setConsent consent
      (_hideBanner
         (Act (set_panel false)
            (if analytics consent || marketing consent then _loadTrackingScripts k else k)))).

Definition _setupShopifyPrivacy (k : Proc Page) : Proc Page :=
  Read (fun pg =>
    match customerPrivacy pg with
    | None => Throw (TypeError "Cannot read properties of undefined")
    | Some privacySettings =>
        if userCanBeTracked privacySettings
        then with_banner (fun b => {| display := "none"; is_visible := is_visible b |})
               (_loadTrackingScripts k)
        else _showBanner k
    end).

(** [_setupFallback]: the read of the stored decision is not guarded. *)
Definition _setupFallback (k : Proc Page) : Proc Page :=
  storage (getItem STORAGE_KEY) (fun consent =>
    if bool_decide (consent = Some "accepted") then
      with_banner (fun b => {| display := "none"; is_visible := is_visible b |})
        (_loadTrackingScripts k)
    else if bool_decide (consent = Some "rejected") then
      with_banner (fun b => {| display := "none"; is_visible := is_visible b |}) k
    else _showBanner k).

Definition _bindEvents (k : Proc Page) : Proc Page := Act set_bound k.

(** [init]: with no banner on the page nothing is set up. *)
Definition init (k : Proc Page) : Proc Page :=
  Read (fun pg =>
    match banner pg with
    | None => k
    | Some _ =>
        match customerPrivacy pg with
        | Some _ => _setupShopifyPrivacy (_bindEvents k)
        | None => _setupFallback (_bindEvents k)
        end
    end).

End WithJson.
End CookieConsent.

(** ** A JSON codec

    An instance of [Json] for the examples below: [stringify] as the
    platform writes values, and a [parse] for the JSON it writes (strings with
    the short escapes and [\u00XX], integers, literals, arrays, objects;
    white space between tokens).  Text outside this grammar is a syntax
    error, as is text outside JSON. *)

Module MiniJson.

Definition quote : ascii := ascii_of_nat 34.
Definition backslash : ascii := ascii_of_nat 92.

Definition hex_digit (n : nat) : ascii :=
  ascii_of_nat (if (n <? 10)%nat then 48 + n else 87 + n).

Definition escape_char (c : ascii) : string :=
  let n := nat_of_ascii c in
  if Ascii.eqb c quote then String backslash (String quote "")
  else if Ascii.eqb c backslash then String backslash (String backslash "")
  else if (n =? 8)%nat then String backslash "b"
  else if (n =? 9)%nat then String backslash "t"
  else if (n =? 10)%nat then String backslash "n"
  else if (n =? 12)%nat then String backslash "f"
  else if (n =? 13)%nat then String backslash "r"
  else if (n <? 32)%nat then
    String backslash ("u00" ++ String (hex_digit (n / 16)) (String (hex_digit (n mod 16)) ""))
  else String c "".

Fixpoint escape (s : string) : string :=
  match s with
  | EmptyString => ""
  | String c rest => escape_char c ++ escape rest
  end.

Definition quoted (s : string) : string :=
  String quote (escape s ++ String quote "").

Fixpoint stringify (v : JsValue) : string :=
  match v with
  | JUndefined | JNull | JNumber NaN => "null"
  | JBool true => "true"
  | JBool false => "false"
  | JNumber (Num z) => string_of_Z z
  | JString s => quoted s
  | JArray items => "[" ++ join "," (List.map stringify items) ++ "]"
  | JObject props =>
      "{" ++ join ","
               ((fix members (ps : list (string * JsValue)) : list string :=
                   match ps with
                   | [] => []
                   | (_, JUndefined) :: rest => members rest
                   | (key, value) :: rest =>
                       (quoted key ++ ":" ++ stringify value) :: members rest
                   end) props)
          ++ "}"
  end.

Definition unescape (c : ascii) : option ascii :=
  if Ascii.eqb c quote then Some quote
  else if Ascii.eqb c backslash then Some backslash
  else if Ascii.eqb c "/" then Some "/"%char
  else if Ascii.eqb c "b" then Some (ascii_of_nat 8)
  else if Ascii.eqb c "t" then Some (ascii_of_nat 9)
  else if Ascii.eqb c "n" then Some (ascii_of_nat 10)
  else if Ascii.eqb c "f" then Some (ascii_of_nat 12)
  else if Ascii.eqb c "r" then Some (ascii_of_nat 13)
  else None.

Definition hex_value (c : ascii) : option nat :=
  match digit_value c with
  | Some d => if (d <? 16)%Z then Some (Z.to_nat d) else None
  | None => None
  end.

(** The characters of a string literal after its opening quote, up to
    the closing quote; [acc] holds those read so far. *)
Fixpoint parse_chars (s : string) (acc : string) : option (string * string) :=
  match s with
  | EmptyString => None
  | String c rest =>
      if Ascii.eqb c quote then Some (acc, rest)
      else if Ascii.eqb c backslash then
        match rest with
        | String "u" (String "0" (String "0" (String h (String l rest')))) =>
            match hex_value h, hex_value l with
            | Some h, Some l => parse_chars rest' (acc ++ String (ascii_of_nat (16 * h + l)) "")
            | _, _ => None
            end
        | String e rest' =>
            match unescape e with
            | Some c' => parse_chars rest' (acc ++ String c' "")
            | None => None
            end
        | EmptyString => None
        end
      else if (nat_of_ascii c <? 32)%nat then None
      else parse_chars rest (acc ++ String c "")
  end.

Definition is_json_space (c : ascii) : bool :=
  let n := nat_of_ascii c in
  (n =? 9)%nat || (n =? 10)%nat || (n =? 13)%nat || (n =? 32)%nat.

Fixpoint skip_space (s : string) : string :=
  match s with
  | String c rest => if is_json_space c then skip_space rest else s
  | EmptyString => s
  end.

(** A run of decimal digits and what follows it. *)
Fixpoint parse_number (s : string) (acc : JsNum) : JsNum * string :=
  match s with
  | String c rest =>
      match digit_value c with
      | Some d =>
          if (d <? 10)%Z
          then parse_number rest (Num (match acc with Num a => a * 10 + d | NaN => d end))
          else (acc, s)
      | None => (acc, s)
      end
  | EmptyString => (acc, s)
  end.

Definition after_number (rest : string) : bool :=
  match rest with
  | String c _ => negb (Ascii.eqb c "." || Ascii.eqb c "e" || Ascii.eqb c "E")
  | EmptyString => true
  end.

Definition strip (p s : string) : option string :=
  if String.prefix p s then Some (String.substring (String.length p) (String.length s - String.length p) s)
  else None.

Fixpoint parse_value (fuel : nat) (s : string) : option (JsValue * string) :=
  match fuel with
  | O => None
  | S fuel =>
      let s := skip_space s in
      match s with
      | EmptyString => None
      | String c rest =>
          if Ascii.eqb c quote then
            match parse_chars rest "" with
            | Some (str, rest) => Some (JString str, rest)
            | None => None
            end
          else if Ascii.eqb c "[" then
            match skip_space rest with
            | String "]" rest => Some (JArray [], rest)
            | rest =>
                match parse_items fuel rest with
                | Some (items, rest) => Some (JArray items, rest)
                | None => None
                end
            end
          else if Ascii.eqb c "{" then
            match skip_space rest with
            | String "}" rest => Some (JObject [], rest)
            | rest =>
                match parse_members fuel rest with
                | Some (props, rest) => Some (JObject props, rest)
                | None => None
                end
            end
          else if Ascii.eqb c "-" then
            match parse_number rest NaN with
            | (Num n, rest) => if after_number rest then Some (JNumber (Num (- n)), rest) else None
            | (NaN, _) => None
            end
          else
            match strip "true" s, strip "false" s, strip "null" s with
            | Some rest, _, _ => Some (JBool true, rest)
            | _, Some rest, _ => Some (JBool false, rest)
            | _, _, Some rest => Some (JNull, rest)
            | None, None, None =>
                match parse_number s NaN with
                | (Num n, rest) => if after_number rest then Some (JNumber (Num n), rest) else None
                | (NaN, _) => None
                end
            end
      end
  end
with parse_items (fuel : nat) (s : string) : option (list JsValue * string) :=
  match fuel with
  | O => None
  | S fuel =>
      match parse_value fuel s with
      | Some (v, rest) =>
          match skip_space rest with
          | String "," rest =>
              match parse_items fuel rest with
              | Some (vs, rest) => Some (v :: vs, rest)
              | None => None
              end
          | String "]" rest => Some ([v], rest)
          | _ => None
          end
      | None => None
      end
  end
with parse_members (fuel : nat) (s : string) : option (list (string * JsValue) * string) :=
  match fuel with
  | O => None
  | S fuel =>
      match skip_space s with
      | String c rest =>
          if Ascii.eqb c quote then
            match parse_chars rest "" with
            | Some (key, rest) =>
                match skip_space rest with
                | String ":" rest =>
                    match parse_value fuel rest with
                    | Some (v, rest) =>
                        match skip_space rest with
                        | String "," rest =>
                            match parse_members fuel rest with
                            | Some (ps, rest) => Some ((key, v) :: ps, rest)
                            | None => None
                            end
                        | String "}" rest => Some ([(key, v)], rest)
                        | _ => None
                        end
                    | None => None
                    end
                | _ => None
                end
            | None => None
            end
          else None
      | EmptyString => None
      end
  end.

Definition parse (text : string) : Completion JsValue :=
  match parse_value (2 * String.length text + 2) text with
  | Some (v, rest) =>
      match skip_space rest with
      | EmptyString => Normal v
      | String _ _ => Thrown (SyntaxError "Unexpected non-whitespace character after JSON")
      end
  | None => Thrown (SyntaxError "Unexpected token in JSON")
  end.

Definition JSON : Json := Build_Json parse stringify.

End MiniJson.

(** ** Specification predicates *)

(** The string with these bytes. *)
Definition bytes (l : list nat) : string :=
  fold_right (fun n s => String (ascii_of_nat n) s) "" l.

(** ECMAScript's white space characters and line terminators, each as
    its UTF-8 bytes: U+0009 to U+000D, U+0020, U+00A0, U+1680, U+2000 to
    U+200A, U+2028, U+2029, U+202F, U+205F, U+3000, U+FEFF. *)
Definition white_space : list string :=
  bytes <$> [[9]; [10]; [11]; [12]; [13]; [32]; [194; 160]; [225; 154; 128];
             [226; 128; 128]; [226; 128; 129]; [226; 128; 130]; [226; 128; 131];
             [226; 128; 132]; [226; 128; 133]; [226; 128; 134]; [226; 128; 135];
             [226; 128; 136]; [226; 128; 137]; [226; 128; 138];
             [226; 128; 168]; [226; 128; 169]; [226; 128; 175];
             [226; 129; 159]; [227; 128; 128]; [239; 187; 191]].

(** A run of white space characters. *)
Inductive blank : string -> Prop :=
| blank_nil : blank ""
| blank_cons (c s : string) : c ∈ white_space -> blank s -> blank (c ++ s).

(** [x] is the first element of [l] that satisfies [P]. *)
Definition first_such {A : Type} (P : A -> Prop) (l : list A) (x : A) : Prop :=
  exists before after,
    l = (before ++ x :: after)%list /\ P x /\ Forall (fun y => ~ P y) before.

Module ProductSpec.
Import ProductForm.

(** The URL names variant [v]: it carries a non-empty [variant] parameter
    that reads as the identifier of [v]. *)
Definition names (urlParams : URLSearchParams) (v : Variant) : Prop :=
  exists s, get urlParams "variant" = Some s /\ s <> "" /\ parseInt s None = Num (id v).

(** The matching rule of the specification: at every option index that
    has a checked value, the variant carries that value. *)
Definition matches (product_options : list string) (checked : SelectionState)
    (v : Variant) : Prop :=
  forall i x, i < length product_options -> checked !! i = Some x -> options v !! i = Some x.

(** The checked indices are the first [k] ones: no option without a
    checked value comes before one that has a checked value. *)
Definition gap_free (product_options : list string) (checked : SelectionState) : Prop :=
  forall i j, i <= j -> j < length product_options ->
              is_Some (checked !! j) -> is_Some (checked !! i).

Definition variant (n : Z) (opts : list string) (avail : bool) (tracked : option string)
    (quantity : Z) : Variant :=
  {| id := n; options := opts; price := 1000; compare_at_price := None;
     available := avail; inventory_management := tracked;
     inventory_quantity := quantity; featured_image := None |}.

(** The add-to-cart button can be used: it is not disabled (a page
    without the button has nothing to disable). *)
Definition enabled (pg : FormPage) : Prop :=
  match addToCartButton pg with
  | Some b => disabled b = false
  | None => True
  end.

(** A product page with the AJAX cart on and a purchasable current
    variant. *)
Definition formpage0 : FormPage :=
  {| ajaxCart := true; cart_add_url := "/cart/add";
     form_fields := [("id", "2"); ("quantity", "1")];
     addToCartButton := Some {| disabled := false; opacity_50 := false;
                                cursor_not_allowed := false |};
     addToCartText := Some "Add to Cart";
     currentVariant := Some (variant 2 ["M"] true (Some "shopify") 3);
     defaultPrevented := false; console := []; dispatched := [] |}.

(** The request the submit handler sends. *)
Definition add_request (pg : FormPage) : Request :=
  {| url := cart_add_url pg; method := "POST";
     headers := [("X-Requested-With", "XMLHttpRequest")];
     body := FormData (form_fields pg) |}.

(** The add went through: the request was answered with a success status
    and the body of the answer was read. *)
Definition added (pg : FormPage) (envs : nat -> Env) : Prop :=
  exists response result,
    envs 0 (Fetch (add_request pg)) = Fulfilled response
    /\ ok response = true
    /\ envs 1 (ReadJson response) = Fulfilled result.

(** The product page with a sold-out current variant, the button disabled
    or not. *)
Definition soldout (button_disabled : bool) : FormPage :=
  {| ajaxCart := true; cart_add_url := "/cart/add";
     form_fields := [("id", "1"); ("quantity", "1")];
     addToCartButton := Some {| disabled := button_disabled; opacity_50 := button_disabled;
                                cursor_not_allowed := button_disabled |};
     addToCartText := Some (if button_disabled then "Sold Out" else "Add to Cart");
     currentVariant := Some (variant 1 ["S"] false None 0);
     defaultPrevented := false; console := []; dispatched := [] |}.

(** The page of a product with one option and three variants, the second
    one selected, reached through a link that carries a campaign parameter. *)
Definition productpage0 : ProductPage :=
  {| form := formpage0; title := "Linen Shirt"; product_options := ["Size"];
     variants := [variant 1 ["S"] false None 0; variant 2 ["M"] true (Some "shopify") 3;
                  variant 3 ["L"] true None 0];
     checked := {[ 0 := "M" ]};
     variantIdInput := Some "2";
     priceElement := Some {| price_text := "$10.00"; text_red_600 := false |};
     comparePriceElement := Some {| compare_text := ""; hidden := true |};
     mainImage := Some {| image_src := "shirt_800x.jpg"; image_alt := "Linen Shirt" |};
     stockStatus := Some {| class := "text-amber-600"; text := "Only 3 left" |};
     quantityInput := Some "1";
     search := [("utm_source", "mail")] |}.

(** The variant L with a picture that carries no alternative text. *)
Definition pictured : Variant :=
  {| id := 3; options := ["L"]; price := 1000; compare_at_price := None;
     available := true; inventory_management := None; inventory_quantity := 0;
     featured_image := Some {| src := "//cdn.shop/files/shirt.l.jpg"; alt := None |} |}.

End ProductSpec.

Module CartSpec.
Import CartDrawer.

(** The request [updateItem] sends for a line and a quantity. *)
Definition update_request (r : Routes) (key : string) (quantity : JsNum) : Request :=
  {| url := cart_change_url r ++ ".js"; method := "POST";
     headers := [("Content-Type", "application/json")];
     body := JsonBody (JObject [("id", JString key); ("quantity", JNumber quantity)]) |}.

(** The request [refresh] sends. *)
Definition refresh_request (r : Routes) : Request :=
  GET (cart_url r ++ "?section_id=cart-drawer-contents").

(** A request that changes the cart: the scripts read with GET only. *)
Definition is_post (request : Request) : bool := String.eqb (method request) "POST".

Definition posts (requests : list Request) : list Request := List.filter is_post requests.

(** The quantity a row of the drawer shows, as [changeQuantity] reads it;
    no number when the lookup of the row throws. *)
Definition displayed (key : string) (pg : Page) : JsNum :=
  match itemRow key pg with
  | Normal row => parseInt (displayed_text row) (Some 10%Z)
  | Thrown _ => NaN
  end.

(** The submit button of a form is there and enabled, with this text. *)
Definition restored (form : Form) (original : string) (buttons : gmap nat SubmitButton) : Prop :=
  buttons !! form_id form = Some {| disabled := false; textContent := original |}.

Definition routes0 : Routes :=
  {| cart_url := "/cart"; cart_add_url := "/cart/add"; cart_change_url := "/cart/change" |}.

(** An open drawer that shows one line, [k], with quantity 2, and a page
    with one add-to-cart form. *)
Definition page0 : Page :=
  {| isOpen := true; is_open_class := true; is_loading := false; overlay := Some true;
     body_overflow := "hidden";
     contents := Some [{| item_key := "k"; quantity_text := Some "2" |}];
     badges := [{| badge_text := JNumber (Num 2); badge_display := "" |}];
     submit_buttons := {[ 0 := {| disabled := false; textContent := "Add to Cart" |} ]};
     routes := routes0; console := []; alerts := []; dispatched := [] |}.


(** A network that is down: every promise is rejected. *)
Definition offline : Env := fun o => Rejected (TypeError "Failed to fetch").

Definition form0 : Form := {| form_id := 0; fields := [("id", "42"); ("quantity", "1")] |}.

(** What [updateItem] does when the promise of its request settles. *)
Definition after_update (k : Proc Page) (settled : Settled Response) : Proc Page :=
  and_then
    (try_finally
       (try_catch
          (match settled with
           | Rejected e => Throw e
           | Fulfilled response =>
               if negb (ok response) then Throw (new_Error "Update failed")
               else refresh Done
           end)
          (fun e => Act (console_error "CartDrawer: Update failed") Done))
       (_setLoading false Done))
    k.

(** The state in which a failed update leaves the loop [s] that held the
    suspended [updateItem] alone: nothing suspended, nothing more sent, the
    failure on the console, the loading class cleared, the rows as they
    were. *)
Definition update_failed (pg : Page) (requests : list Request) (s : Loop Page) : Prop :=
  pending s = []
  /\ sent s = requests
  /\ is_loading (page s) = false
  /\ console (page s) = (console pg ++ ["CartDrawer: Update failed"])%list
  /\ contents (page s) = contents pg.

(** How the drawer shows: its [is-open] class, the overlay's [is-visible]
    class (when there is an overlay) and the overflow of the body. *)
Definition appearance (pg : Page) : bool * option bool * string :=
  (is_open_class pg, overlay pg, body_overflow pg).

Definition shown (a : bool * option bool * string) : Prop :=
  a.1.1 = true /\ a.1.2 <> Some false /\ a.2 = "hidden".

(** [page0] with the drawer closed. *)
Definition closed0 : Page := close page0.

(** The row of a line: the first row of the drawer that carries its
    key. *)
Definition row_of (key : string) (pg : Page) (row : CartRow) : Prop :=
  exists rows, contents pg = Some rows /\ first_such (fun r => item_key r = key) rows row.

(** No row of the drawer carries the key. *)
Definition no_row (key : string) (pg : Page) : Prop :=
  match contents pg with
  | Some rows => Forall (fun r => item_key r <> key) rows
  | None => True
  end.

(** The quantity text the drawer shows for a line: the text of the
    quantity element of the line's row; when there is no such row, no
    quantity element in it or no text in that, 1 stands in. *)
Definition quantity_shown (key : string) (pg : Page) (text : string) : Prop :=
  (exists row, row_of key pg row /\ quantity_text row = Some text /\ text <> "")
  \/ (text = "1"
      /\ (no_row key pg
          \/ exists row, row_of key pg row
                         /\ (quantity_text row = None \/ quantity_text row = Some ""))).

(** A drawer with two lines, [j] showing 5 above [k] showing 2. *)
Definition page2 : Page :=
  set_contents [{| item_key := "j"; quantity_text := Some "5" |};
                {| item_key := "k"; quantity_text := Some "2" |}] page0.

(** A key with a double quote in it, and a drawer whose line has that
    key and shows 2. *)
Definition quoted_key : string := bytes [97; 34; 98].

Definition quoted0 : Page :=
  set_contents [{| item_key := quoted_key; quantity_text := Some "2" |}] page0.



(** The badge every count element becomes when the cart reports
    [item_count]. *)
Definition badge_of (item_count : JsValue) : Badge :=
  {| badge_text := item_count;
     badge_display := if greater_than_zero item_count then "" else "none" |}.

(** The values that [greater_than_zero] compares as [> 0] does: all but
    a string, an array or an object, which [>] converts first. *)
Definition comparable (v : JsValue) : Prop :=
  match v with
  | JString _ | JArray _ | JObject _ => False
  | _ => True
  end.

End CartSpec.

Module StorageSpec.

(** The list of handles a module finds under its key: the parsed text when
    there is a non-empty text, the empty list when there is none. *)
Definition listed (JSON : Json) (key : string) (b : Browser) (l : list string) : Prop :=
  readable (localStorage b) = true
  /\ match entries (localStorage b) !! key with
     | Some data =>
         if truthy_string data then parse JSON data = Normal (JArray (JString <$> l))
         else l = []
     | None => l = []
     end.

(** The codec writes the list [l] as a non-empty text that it reads back
    as [l]. *)
Definition faithful (JSON : Json) (l : list string) : Prop :=
  truthy_string (stringify JSON (JArray (JString <$> l))) = true
  /\ parse JSON (stringify JSON (JArray (JString <$> l))) = Normal (JArray (JString <$> l)).

(** The list without the handle, in the same order. *)
Definition without (handle : string) (l : list string) : list string :=
  List.filter (fun h => negb (String.eqb h handle)) l.

(** What [setItem] leaves behind when the browser takes the write. *)
Definition written (key value : string) (b : Browser) : Browser :=
  {| localStorage := {| entries := <[key := value]> (entries (localStorage b));
                        readable := readable (localStorage b);
                        writable := writable (localStorage b) |};
     wishlist_counters := wishlist_counters b;
     console := console b;
     dispatched := dispatched b |}.

(** Nothing usable is stored under [key]: the storage cannot be read, or
    holds no text or the empty text under the key, or the text does not
    parse. *)
Definition unusable (JSON : Json) (key : string) (b : Browser) : Prop :=
  readable (localStorage b) = false
  \/ match entries (localStorage b) !! key with
     | None => True
     | Some data => data = "" \/ exists e, parse JSON data = Thrown e
     end.

(** A browser whose storage holds the text [data] under each key of the
    three modules. *)
Definition garbled (data : string) : Browser :=
  {| localStorage :=
       {| entries := {[ Wishlist.STORAGE_KEY := data;
                        RecentlyViewed.STORAGE_KEY := data;
                        (CookieConsent.STORAGE_KEY ++ "_details") := data ]};
          readable := true; writable := true |};
     wishlist_counters := []; console := []; dispatched := [] |}.

(** A browser whose storage holds [l] under [key], written by the codec
    of the examples, with no counter on the page. *)
Definition holding (key : string) (l : list string) (can_write : bool) : Browser :=
  {| localStorage := {| entries := {[ key := MiniJson.stringify (JArray (JString <$> l)) ]};
                        readable := true; writable := can_write |};
     wishlist_counters := []; console := []; dispatched := [] |}.

(** The text a browser holds under a key. *)
Definition text_at (key : string) (b : Browser) : option string :=
  entries (localStorage b) !! key.

(** Fifty distinct handles, [p1] the oldest. *)
Definition fifty : list string :=
  List.map (fun n => "p" ++ string_of_Z (Z.of_nat n)) (seq 1 50).

(** The list without the first occurrence of the handle. *)
Fixpoint without_first (handle : string) (l : list string) : list string :=
  match l with
  | [] => []
  | x :: rest => if String.eqb x handle then rest else x :: without_first handle rest
  end.

(** What [Wishlist.add] stores for a new handle. *)
Definition appended (handle : string) (l : list string) : list string :=
  ((if (Wishlist.MAX_ITEMS <=? length l)%nat then tail l else l) ++ [handle])%list.

(** What [RecentlyViewed.add] stores for a handle. *)
Definition fronted (handle : string) (l : list string) : list string :=
  take RecentlyViewed.MAX_ITEMS (handle :: without handle l).

(** A wishlist counter that shows the number of entries of [l]. *)
Definition counter_of (l : list string) : Counter :=
  {| counter_text := JNumber (Num (Z.of_nat (length l)));
     counter_display := match l with [] => "none" | _ :: _ => "" end |}.

(** The browser shows the wishlist [l]: it is what is stored, what [count]
    reports, and what each of the counters [before] had shows. *)
Definition shows (JSON : Json) (before : list Counter) (b : Browser) (l : list string)
  : Prop :=
  listed JSON Wishlist.STORAGE_KEY b l
  /\ fst (Wishlist.count JSON b) = Normal (JNumber (Num (Z.of_nat (length l))))
  /\ wishlist_counters b = ((fun _ => counter_of l) <$> before).

(** A recently-viewed list as [add] keeps it: no handle twice, no empty
    handle, at most 12 entries. *)
Definition tidy (l : list string) : Prop :=
  NoDup l /\ ("" ∉ l) /\ length l <= RecentlyViewed.MAX_ITEMS.

(** The codec writes the value as a non-empty text that it reads back as
    the value. *)
Definition reads_back (JSON : Json) (v : JsValue) : Prop :=
  truthy_string (stringify JSON v) = true
  /\ parse JSON (stringify JSON v) = Normal v.

(** A browser with two wishlist counters on the page and [l] stored under
    [key]. *)
Definition with_counters (key : string) (l : list string) : Browser :=
  {| localStorage := {| entries := {[ key := MiniJson.stringify (JArray (JString <$> l)) ]};
                        readable := true; writable := true |};
     wishlist_counters := [{| counter_text := JUndefined; counter_display := "" |};
                           {| counter_text := JUndefined; counter_display := "" |}];
     console := []; dispatched := [] |}.

End StorageSpec.

Module ConsentSpec.
Import CookieConsent.

(** The element once [_activateScript] has marked it. *)
Definition mark (script : Script) : Script :=
  {| category := category script; activated := Some "true";
     data_src := data_src script; data_async := data_async script;
     inline := inline script |}.

Definition is_activated (script : Script) : bool := truthy_opt (activated script).

(** The module loads scripts of these two categories only. *)
Definition tracked (name : string) : bool :=
  String.eqb name "analytics" || String.eqb name "marketing".

(** The category is consented to, as [hasConsent] reports it from the
    storage. *)
Definition consented (JSON : Json) (name : string) (b : Browser) : Prop :=
  exists v, fst (hasConsent JSON name b) = Normal v /\ truthy v = true.

(** What [_hideBanner] leaves at once, and what its timer leaves. *)
Definition hiding (before : Banner) : Banner :=
  {| display := display before; is_visible := false |}.

Definition hidden (before : Banner) : Banner :=
  {| display := "none"; is_visible := is_visible before |}.

(** The scripts the module wrote to the page: the marks, the scripts
    appended to the head and the code evaluated. *)
Definition loaded (pg : Page) : list Script * list Inserted * list string :=
  (scripts pg, inserted pg, evaluated pg).

(** The decision [_setConsent] stores for a consent. *)
Definition decision (consent : Consent) : string :=
  if analytics consent || marketing consent then "accepted" else "rejected".

(** The browser as [_setConsent] leaves it when it takes the writes: the
    decision and the consent stored, the event dispatched. *)
Definition decided (JSON : Json) (consent : Consent) (b : Browser) : Browser :=
  let b' := StorageSpec.written (STORAGE_KEY ++ "_details") (stringify JSON (to_object consent))
              (StorageSpec.written STORAGE_KEY (decision consent) b) in
  {| localStorage := localStorage b';
     wishlist_counters := wishlist_counters b;
     console := console b;
     dispatched := dispatched b ++ [("cookie:consent", to_object consent)] |}.

(** The privacy API, when the page has it, once told of the consent. *)
Definition told (consent : Consent) (pg : Page) : Page :=
  match customerPrivacy pg with
  | Some p =>
      set_customerPrivacy
        {| userCanBeTracked := userCanBeTracked p;
           tracking_consent := tracking_consent p ++ [to_object consent] |} pg
  | None => pg
  end.

(** The element as a [_loadTrackingScripts] under this consent leaves
    it. *)
Definition loaded_under (consent : Consent) (script : Script) : Script :=
  if negb (is_activated script)
     && ((analytics consent && String.eqb (category script) "analytics")
         || (marketing consent && String.eqb (category script) "marketing"))
  then mark script else script.

(** The categories [hasConsent] is documented for. *)
Definition categories : list string := ["analytics"; "marketing"; "preferences"].

(** The consent the checkboxes of the preferences panel give. *)
Definition chosen (pg : Page) : Consent :=
  {| analytics := default false (analyticsCheckbox pg);
     marketing := default false (marketingCheckbox pg);
     preferences := default false (preferencesCheckbox pg) |}.

(** A first visit: nothing stored, the banner in the markup, an analytics
    script with a source, an inline marketing script, and a widget of the
    category preferences. *)
Definition visit0 : Page :=
  {| browser := {| localStorage := {| entries := ∅; readable := true; writable := true |};
                   wishlist_counters := []; console := []; dispatched := [] |};
     banner := Some {| display := "none"; is_visible := false |};
     customerPrivacy := None;
     scripts := [{| category := "analytics"; activated := None;
                    data_src := Some "https://stats.example/a.js"; data_async := Some "";
                    inline := "" |};
                 {| category := "marketing"; activated := None; data_src := None;
                    data_async := None; inline := "pixel('init')" |};
                 {| category := "preferences"; activated := None;
                    data_src := Some "https://chat.example/w.js"; data_async := None;
                    inline := "" |}];
     inserted := []; evaluated := [];
     analyticsCheckbox := Some true; marketingCheckbox := Some false;
     preferencesCheckbox := Some true; preferencesPanel := Some false;
     bound := false |}.

(** A later visit: the page of [visit0] in a browser that holds the
    decision and the consent as [_setConsent] stores them. *)
Definition returning (consent : Consent) : Page :=
  set_browser
    {| localStorage :=
         {| entries :=
              {[ STORAGE_KEY := if analytics consent || marketing consent
                                then "accepted" else "rejected";
                 (STORAGE_KEY ++ "_details") := MiniJson.stringify (to_object consent) ]};
            readable := true; writable := true |};
       wishlist_counters := []; console := []; dispatched := [] |} visit0.

(** The same page in a browser that refuses access to the storage. *)
Definition blocked0 : Page :=
  set_browser {| localStorage := {| entries := ∅; readable := false; writable := false |};
                 wishlist_counters := []; console := []; dispatched := [] |} visit0.

End ConsentSpec.

(** * Properties *)

Example parseInt_decimal : parseInt "  42px" None = Num 42.
Proof. reflexivity. Qed.

Example parseInt_hex : parseInt "0x1f" None = Num 31.
Proof. reflexivity. Qed.

Example parseInt_radix10 : parseInt "0x1f" (Some 10%Z) = Num 0.
Proof. reflexivity. Qed.

Example parseInt_nan : parseInt "abc" None = NaN.
Proof. reflexivity. Qed.

Example parseInt_negative : parseInt "-7" (Some 10%Z) = Num (-7).
Proof. reflexivity. Qed.

Lemma find_first_such {A : Type} (p : A -> bool) (l : list A) (x : A) :
  List.find p l = Some x <-> first_such (fun y => p y = true) l x.
Proof.
  split.
  - induction l as [|y l IH]; simpl; [discriminate|].
    destruct (p y) eqn:Hy.
    + intros [= ->]. exists [], l. repeat split; auto.
    + intros H. destruct (IH H) as (b & a & -> & Hx & Hb).
      exists (y :: b), a. repeat split; auto.
      constructor; [congruence | assumption].
  - intros (b & a & -> & Hx & Hb).
    induction Hb as [|y b Hy Hb IH]; simpl.
    + now rewrite Hx.
    + destruct (p y); [congruence | assumption].
Qed.

Lemma find_none_iff {A : Type} (p : A -> bool) (l : list A) :
  List.find p l = None <-> Forall (fun y => p y <> true) l.
Proof.
  induction l as [|y l IH]; simpl.
  - split; [constructor | reflexivity].
  - destruct (p y) eqn:Hy.
    + split; [discriminate|]. intros H. inversion H; subst. congruence.
    + rewrite IH. split.
      * intros H. constructor; [congruence | assumption].
      * intros H. now inversion H.
Qed.

(** ** Numbers written in decimal read back *)

Ltac digit_code :=
  match goal with
  | |- context [Z.of_nat (nat_of_ascii ?c)] =>
      let v := eval vm_compute in (Z.of_nat (nat_of_ascii c)) in
      change (Z.of_nat (nat_of_ascii c)) with v
  end.

Lemma parse_digits_acc (d : Decimal.uint) (p : positive) :
  parse_digits 10 (NilEmpty.string_of_uint d) (Num (Z.pos p))
  = Num (Z.pos (Pos.of_uint_acc d p)).
Proof.
  revert p. induction d; intros p; simpl; try reflexivity;
    rewrite <- IHd; f_equal; f_equal; digit_code; lia.
Qed.

Lemma parse_digits_zero (d : Decimal.uint) :
  parse_digits 10 (NilEmpty.string_of_uint d) (Num 0) = Num (Z.of_N (Pos.of_uint d)).
Proof.
  induction d; simpl; try reflexivity; try exact IHd; apply parse_digits_acc.
Qed.

Lemma parse_digits_uint (d : Decimal.uint) :
  d <> Decimal.Nil ->
  parse_digits 10 (NilEmpty.string_of_uint d) NaN = Num (Z.of_N (Pos.of_uint d)).
Proof.
  destruct d; intros H; try contradiction; simpl;
    first [apply parse_digits_zero | apply parse_digits_acc].
Qed.

Lemma parse_digits_pos (p : positive) :
  parse_digits 10 (NilEmpty.string_of_uint (Pos.to_uint p)) NaN = Num (Z.pos p).
Proof.
  rewrite parse_digits_uint by apply Unsigned.to_uint_nonnil.
  now rewrite Unsigned.of_to.
Qed.

Lemma parse_trimmed_uint (d : Decimal.uint) (radix : option Z) :
  d <> Decimal.Nil -> radix = None \/ radix = Some 10%Z ->
  parse_trimmed (NilEmpty.string_of_uint d) radix
  = match parse_digits 10 (NilEmpty.string_of_uint d) NaN with
    | Num n => Num (1 * n)
    | NaN => NaN
    end
  /\ parse_trimmed (String "-" (NilEmpty.string_of_uint d)) radix
     = match parse_digits 10 (NilEmpty.string_of_uint d) NaN with
       | Num n => Num (-1 * n)
       | NaN => NaN
       end.
Proof.
  intros Hd [-> | ->].
  - destruct d as [|d|d|d|d|d|d|d|d|d|d]; try contradiction; try (split; reflexivity).
    destruct d; split; reflexivity.
  - destruct d as [|d|d|d|d|d|d|d|d|d|d]; try contradiction; split; reflexivity.
Qed.

Lemma string_of_uint_pos (p : positive) :
  NilZero.string_of_uint (Pos.to_uint p) = NilEmpty.string_of_uint (Pos.to_uint p).
Proof.
  pose proof (Unsigned.to_uint_nonnil p) as Hn. unfold NilZero.string_of_uint.
  destruct (Pos.to_uint p); [contradiction | reflexivity..].
Qed.

Lemma parse_trimmed_string_of_Z (z : Z) (radix : option Z) :
  radix = None \/ radix = Some 10%Z -> parse_trimmed (string_of_Z z) radix = Num z.
Proof.
  intros Hr. unfold string_of_Z. destruct z as [|p|p]; simpl Z.to_int.
  - destruct Hr as [-> | ->]; reflexivity.
  - unfold NilZero.string_of_int. rewrite string_of_uint_pos.
    rewrite (proj1 (parse_trimmed_uint _ radix (Unsigned.to_uint_nonnil p) Hr)),
      parse_digits_pos.
    reflexivity.
  - unfold NilZero.string_of_int. rewrite string_of_uint_pos.
    rewrite (proj2 (parse_trimmed_uint _ radix (Unsigned.to_uint_nonnil p) Hr)),
      parse_digits_pos.
    reflexivity.
Qed.

(** A string that begins with an ASCII character other than white space
    has no white space to skip. *)
Lemma trim_start_plain (c : ascii) (rest : string) :
  is_white_space c = false -> (nat_of_ascii c < 128)%nat ->
  trim_start (String c rest) = String c rest.
Proof.
  intros Hw Hc. cbn [trim_start]. rewrite Hw.
  assert (H2 : forall c2, is_white_space2 c c2 = false).
  { intros c2. unfold is_white_space2.
    destruct (Nat.eqb_spec (nat_of_ascii c) 194); [lia | reflexivity]. }
  assert (H3 : forall c2 c3, is_white_space3 c c2 c3 = false).
  { intros c2 c3. unfold is_white_space3.
    destruct (Nat.eqb_spec (nat_of_ascii c) 225); [lia|].
    destruct (Nat.eqb_spec (nat_of_ascii c) 226); [lia|].
    destruct (Nat.eqb_spec (nat_of_ascii c) 227); [lia|].
    destruct (Nat.eqb_spec (nat_of_ascii c) 239); [lia|]. reflexivity. }
  destruct rest as [|c2 [|c3 rest]]; [reflexivity | now rewrite H2 |].
  now rewrite H2, H3.
Qed.

Lemma string_of_Z_head (z : Z) :
  exists c rest,
    string_of_Z z = String c rest /\ is_white_space c = false /\ (nat_of_ascii c < 128)%nat.
Proof.
  unfold string_of_Z. destruct z as [|p|p]; simpl Z.to_int.
  - exists "0"%char, "". repeat split; vm_compute; lia.
  - unfold NilZero.string_of_int. rewrite string_of_uint_pos.
    pose proof (Unsigned.to_uint_nonnil p) as Hn.
    destruct (Pos.to_uint p); [contradiction|..]; simpl; eexists _, _;
      (split; [reflexivity|]); split; vm_compute; lia.
  - exists "-"%char. eexists. split; [reflexivity|]. split; vm_compute; lia.
Qed.

Lemma trim_start_string_of_Z (z : Z) : trim_start (string_of_Z z) = string_of_Z z.
Proof.
  destruct (string_of_Z_head z) as (c & rest & -> & Hw & Hc). now apply trim_start_plain.
Qed.

Lemma parseInt_string_of_Z (z : Z) (radix : option Z) :
  radix = None \/ radix = Some 10%Z -> parseInt (string_of_Z z) radix = Num z.
Proof.
  intros Hr. unfold parseInt. rewrite trim_start_string_of_Z.
  now apply parse_trimmed_string_of_Z.
Qed.

Lemma string_of_Z_truthy (z : Z) : truthy_string (string_of_Z z) = true.
Proof. destruct (string_of_Z_head z) as (c & rest & -> & _). reflexivity. Qed.

(** White space before a text is skipped, whichever of ECMAScript's white
    space characters it is made of. *)
Lemma trim_start_white_space (c s : string) :
  c ∈ white_space -> trim_start (c ++ s) = trim_start s.
Proof.
  unfold white_space. cbn [fmap list_fmap bytes fold_right]. intros H.
  repeat (apply elem_of_cons in H as [-> | H]; [reflexivity|]).
  now apply elem_of_nil in H.
Qed.

Lemma append_assoc (a b c : string) : (a ++ b) ++ c = a ++ (b ++ c).
Proof.
  induction a as [|x a IH]; [reflexivity|].
  change (String x ((a ++ b) ++ c) = String x (a ++ (b ++ c))). now rewrite IH.
Qed.

Lemma trim_start_blank (ws s : string) : blank ws -> trim_start (ws ++ s) = trim_start s.
Proof.
  induction 1 as [|c ws Hc Hws IH]; [reflexivity|].
  rewrite append_assoc. now rewrite trim_start_white_space.
Qed.

Lemma parseInt_blank_string_of_Z (ws : string) (z : Z) (radix : option Z) :
  blank ws -> radix = None \/ radix = Some 10%Z ->
  parseInt (ws ++ string_of_Z z) radix = Num z.
Proof.
  intros Hws Hr. unfold parseInt. rewrite trim_start_blank by assumption.
  now apply parseInt_string_of_Z.
Qed.

(** ** The product form *)

Module ProductFacts.
Import ProductForm ProductSpec.

Lemma get_variant_names (urlParams : URLSearchParams) (s : string) (v : Variant) :
  get urlParams "variant" = Some s ->
  (truthy_string s = true /\ strict_eq_num (Num (id v)) (parseInt s None) = true)
  <-> names urlParams v.
Proof.
  intros Hs. unfold names. split.
  - intros [Ht He]. exists s. repeat split; auto.
    + intros ->. discriminate.
    + destruct (parseInt s None) as [|z]; simpl in He; [discriminate|].
      apply Z.eqb_eq in He. now subst.
  - intros (s' & Hs' & Hne & Hp). rewrite Hs in Hs'. injection Hs' as <-.
    split.
    + destruct s; [contradiction | reflexivity].
    + rewrite Hp. simpl. apply Z.eqb_refl.
Qed.

(** What the URL lookup of [getInitialVariant] finds: the first variant
    the URL names, and nothing when it names none. *)
Lemma from_url_spec (variants : list Variant) (urlParams : URLSearchParams) :
  let from_url :=
    match get urlParams "variant" with
    | Some s =>
        if truthy_string s
        then List.find (fun v => strict_eq_num (Num (id v)) (parseInt s None)) variants
        else None
    | None => None
    end in
  match from_url with
  | Some v => first_such (names urlParams) variants v
  | None => Forall (fun v => ~ names urlParams v) variants
  end.
Proof.
  cbv zeta. destruct (get urlParams "variant") as [s|] eqn:Hs.
  - destruct (truthy_string s) eqn:Ht.
    + destruct (List.find _ variants) as [v|] eqn:Hf.
      * apply find_first_such in Hf. destruct Hf as (b & a & -> & Hv & Hb).
        exists b, a. repeat split.
        -- apply (get_variant_names _ s); auto.
        -- eapply List.Forall_impl; [|exact Hb]. intros y Hy Hn.
           apply Hy. now apply (get_variant_names _ s) in Hn.
      * apply find_none_iff in Hf. eapply List.Forall_impl; [|exact Hf].
        intros y Hy Hn. apply Hy. now apply (get_variant_names _ s) in Hn.
    + apply Forall_forall. intros y _ Hn.
      apply (get_variant_names _ s) in Hn; auto. destruct Hn. congruence.
  - apply Forall_forall. intros y _ (s & Hs' & _). congruence.
Qed.

(** C2. For a non-empty list of variants whose identifiers are safe
    integers, and every URL, the initial variant is the first
    variant the URL names; when the URL names none, the first available
    variant; when none is available either, the first variant of the list.
    In particular a variant the URL names, alone under its identifier, is
    selected whatever its availability and that of the others; and the URL
    names a variant when its parameter is the identifier written in decimal,
    with or without white space before it. *)
Theorem getInitialVariant_precedence (variants : list Variant) (urlParams : URLSearchParams) :
  variants <> [] ->
  Forall (fun v => safe (id v)) variants ->
  (exists v,
      getInitialVariant variants urlParams = Some v /\
      (first_such (names urlParams) variants v
       \/ (Forall (fun v => ~ names urlParams v) variants
           /\ first_such (fun v => available v = true) variants v)
       \/ (Forall (fun v => ~ names urlParams v) variants
           /\ Forall (fun v => available v <> true) variants
           /\ head variants = Some v)))
  /\ (forall v2,
         v2 ∈ variants -> names urlParams v2 ->
         (forall v, v ∈ variants -> id v = id v2 -> v = v2) ->
         getInitialVariant variants urlParams = Some v2)
  /\ (forall v2 ws,
         v2 ∈ variants -> blank ws ->
         get urlParams "variant" = Some (ws ++ string_of_Z (id v2)) ->
         (forall v, v ∈ variants -> id v = id v2 -> v = v2) ->
         getInitialVariant variants urlParams = Some v2)
  /\ (get urlParams "variant" = None \/ get urlParams "variant" = Some "" ->
      (forall v, first_such (fun v => available v = true) variants v ->
                 getInitialVariant variants urlParams = Some v)
      /\ (Forall (fun v => available v <> true) variants ->
          getInitialVariant variants urlParams = head variants)).
Proof.
  intros Hne _. pose proof (from_url_spec variants urlParams) as Hurl.
  cbv zeta in Hurl.
  assert (Hnamed : forall v2,
             v2 ∈ variants -> names urlParams v2 ->
             (forall v, v ∈ variants -> id v = id v2 -> v = v2) ->
             getInitialVariant variants urlParams = Some v2).
  { intros v2 Hin Hn Huniq. unfold getInitialVariant.
    destruct (match get urlParams "variant" with Some _ => _ | None => _ end) as [v|].
    + destruct Hurl as (b & a & -> & Hv & _). f_equal. apply Huniq.
      * rewrite elem_of_app, elem_of_cons. auto.
      * destruct Hv as (s & Hs & _ & Hp), Hn as (s' & Hs' & _ & Hp').
        rewrite Hs in Hs'. injection Hs' as <-. congruence.
    + rewrite Forall_forall in Hurl. exfalso. apply (Hurl v2); auto. }
  split; [|split; [exact Hnamed|split]]; cycle 1.
  { intros v2 ws Hin Hws Hget Huniq. apply Hnamed; [assumption| |assumption].
    exists (ws ++ string_of_Z (id v2)). split; [assumption|]. split.
    - intros Heq. pose proof (string_of_Z_truthy (id v2)) as Ht.
      destruct ws as [|c ws]; [|discriminate Heq].
      change (string_of_Z (id v2) = "") in Heq. rewrite Heq in Ht. discriminate Ht.
    - apply parseInt_blank_string_of_Z; [assumption | now left]. }
  { intros Hno. unfold getInitialVariant.
    assert (Hfrom : match get urlParams "variant" with
                    | Some variantId =>
                        if truthy_string variantId
                        then List.find (fun v => strict_eq_num (Num (id v))
                                                   (parseInt variantId None)) variants
                        else None
                    | None => None
                    end = None) by (destruct Hno as [-> | ->]; reflexivity).
    rewrite Hfrom. split.
    - intros v Hv. apply find_first_such in Hv. now rewrite Hv.
    - intros Hnone. apply find_none_iff in Hnone. now rewrite Hnone. }
  - unfold getInitialVariant.
    destruct (match get urlParams "variant" with Some _ => _ | None => _ end) as [v|].
    + exists v. split; [reflexivity | now left].
    + destruct (List.find available variants) as [v|] eqn:Ha.
      * exists v. split; [reflexivity|]. right; left. split; [assumption|].
        now apply find_first_such in Ha.
      * destruct variants as [|v0 rest]; [contradiction|].
        exists v0. split; [reflexivity|]. right; right.
        repeat split; auto. now apply find_none_iff in Ha.
Qed.

(** C3. The stock label of a variant is exactly one of three: out of
    stock when the variant is not available; "Only N left", N the quantity,
    when it is available, its inventory is tracked and the quantity is
    between 1 and 5; in stock in every other available case.  So a tracked
    quantity of 3 gives "Only 3 left" and a quantity of 20 gives "In Stock". *)
Theorem updateStockStatus_tiers (stockStatus : Span) (v : Variant) :
  (available v = false ->
   updateStockStatus (Some stockStatus) v
   = Some {| class := "text-red-600"; text := "Out of Stock" |})
  /\ (available v = true ->
      truthy_opt (inventory_management v) = true ->
      (0 < inventory_quantity v <= 5)%Z ->
      updateStockStatus (Some stockStatus) v
      = Some {| class := "text-amber-600";
                text := "Only " ++ string_of_Z (inventory_quantity v) ++ " left" |})
  /\ (available v = true ->
      ~ (truthy_opt (inventory_management v) = true /\ (0 < inventory_quantity v <= 5)%Z) ->
      updateStockStatus (Some stockStatus) v
      = Some {| class := "text-green-600"; text := "In Stock" |})
  /\ (available v = true ->
      truthy_opt (inventory_management v) = true ->
      inventory_quantity v = 3%Z ->
      text <$> updateStockStatus (Some stockStatus) v = Some "Only 3 left")
  /\ (available v = true ->
      inventory_quantity v = 20%Z ->
      text <$> updateStockStatus (Some stockStatus) v = Some "In Stock").
Proof.
  unfold updateStockStatus.
  destruct (available v); simpl; repeat split; try discriminate.
  - intros _ -> [H0 H5].
    apply Z.ltb_lt in H0. apply Z.leb_le in H5. now rewrite H0, H5.
  - intros _ Hn.
    destruct (truthy_opt (inventory_management v)); simpl; [|reflexivity].
    destruct (inventory_quantity v <=? 5)%Z eqn:H5; simpl; [|reflexivity].
    destruct (0 <? inventory_quantity v)%Z eqn:H0; simpl; [|reflexivity].
    exfalso. apply Hn. split; [reflexivity|].
    apply Z.ltb_lt in H0. apply Z.leb_le in H5. lia.
  - intros _ -> ->. reflexivity.
  - intros _ ->. now rewrite andb_false_r.
Qed.

Lemma updateStockStatus_tiers_witness :
  updateStockStatus (Some {| class := ""; text := "" |})
                    (variant 1 ["S"] false (Some "shopify") 0)
  = Some {| class := "text-red-600"; text := "Out of Stock" |}
  /\ updateStockStatus (Some {| class := ""; text := "" |})
                       (variant 2 ["M"] true (Some "shopify") 3)
     = Some {| class := "text-amber-600"; text := "Only 3 left" |}
  /\ updateStockStatus (Some {| class := ""; text := "" |})
                       (variant 3 ["L"] true None 3)
     = Some {| class := "text-green-600"; text := "In Stock" |}
  /\ text <$> updateStockStatus (Some {| class := ""; text := "" |})
                                (variant 4 ["XL"] true (Some "shopify") 20)
     = Some "In Stock".
Proof.
  split; [|split; [|split]].
  - apply (updateStockStatus_tiers {| class := ""; text := "" |}
             (variant 1 ["S"] false (Some "shopify") 0)).
    reflexivity.
  - apply (updateStockStatus_tiers {| class := ""; text := "" |}
             (variant 2 ["M"] true (Some "shopify") 3)).
    + reflexivity.
    + reflexivity.
    + simpl. lia.
  - apply (updateStockStatus_tiers {| class := ""; text := "" |}
             (variant 3 ["L"] true None 3)).
    + reflexivity.
    + simpl. intros [H _]. discriminate H.
  - apply (updateStockStatus_tiers {| class := ""; text := "" |}
             (variant 4 ["XL"] true (Some "shopify") 20)).
    + reflexivity.
    + reflexivity.
Defined.

(** Without a stock status element on the page nothing is written. *)
Lemma updateStockStatus_no_element (v : Variant) : updateStockStatus None v = None.
Proof. reflexivity. Qed.

Lemma getInitialVariant_precedence_witness :
  let variants := [variant 1 ["S"] true None 7; variant 2 ["M"] false None 0] in
  variants <> []
  /\ Forall (fun v => safe (id v)) variants
  /\ getInitialVariant variants [("variant", "2")] = Some (variant 2 ["M"] false None 0)
  /\ blank (bytes [194; 160])
  /\ getInitialVariant variants [("variant", bytes [194; 160] ++ "2")]
     = Some (variant 2 ["M"] false None 0).
Proof.
  cbv zeta.
  assert (Hne : [variant 1 ["S"] true None 7; variant 2 ["M"] false None 0] <> [])
    by discriminate.
  assert (Hsafe : Forall (fun v => safe (id v))
                         [variant 1 ["S"] true None 7; variant 2 ["M"] false None 0])
    by (repeat constructor).
  assert (Hin : variant 2 ["M"] false None 0
                ∈ [variant 1 ["S"] true None 7; variant 2 ["M"] false None 0])
    by (rewrite !elem_of_cons; auto).
  assert (Huniq : forall v,
             v ∈ [variant 1 ["S"] true None 7; variant 2 ["M"] false None 0] ->
             id v = id (variant 2 ["M"] false None 0) -> v = variant 2 ["M"] false None 0).
  { intros v Hv Hid. rewrite !elem_of_cons in Hv.
    destruct Hv as [-> | [-> | Hv]]; [discriminate Hid | reflexivity |].
    now apply elem_of_nil in Hv. }
  assert (Hblank : blank (bytes [194; 160])).
  { apply (blank_cons (bytes [194; 160]) ""); [|constructor].
    apply (bool_decide_unpack (bytes [194; 160] ∈ white_space)). vm_compute. exact I. }
  split; [exact Hne|]. split; [exact Hsafe|]. split; [|split; [exact Hblank|]].
  - apply (proj1 (proj2 (getInitialVariant_precedence _ [("variant", "2")] Hne Hsafe)));
      [exact Hin | | exact Huniq].
    exists "2". repeat split; discriminate.
  - apply (proj1 (proj2 (proj2 (getInitialVariant_precedence
                                  _ [("variant", bytes [194; 160] ++ "2")] Hne Hsafe)))
             _ (bytes [194; 160]));
      [exact Hin | exact Hblank | reflexivity | exact Huniq].
Defined.

(** *** Variant resolution *)

Lemma getSelectedOptions_omap (product_options : list string) (checked : SelectionState) :
  getSelectedOptions product_options checked
  = omap (fun index => checked !! index) (seq 0 (length product_options)).
Proof.
  unfold getSelectedOptions.
  enough (forall l (acc : list string),
             foldl (fun (opts : list string) (index : nat) =>
                      match checked !! index with
                      | Some value => (opts ++ [value])%list
                      | None => opts
                      end) acc l
             = (acc ++ omap (fun index => checked !! index) l)%list) as H
      by apply (H _ []).
  induction l as [|i l IH]; intros acc; simpl.
  - now rewrite app_nil_r.
  - rewrite IH. destruct (checked !! i); [|reflexivity].
    now rewrite <- app_assoc.
Qed.

Lemma every_from_spec {A : Type} (p : A -> nat -> bool) (l : list A) (index : nat) :
  every_from p index l = true
  <-> forall j x, l !! j = Some x -> p x (index + j) = true.
Proof.
  revert index. induction l as [|y l IH]; intros index; simpl.
  - split; [intros _ j x H; discriminate H | reflexivity].
  - rewrite andb_true_iff, IH. split.
    + intros [Hy Hl] [|j] x Hx; simpl in Hx.
      * injection Hx as <-. now rewrite Nat.add_0_r.
      * rewrite Nat.add_succ_r. now apply Hl.
    + intros H. split.
      * rewrite <- (Nat.add_0_r index). now apply (H 0).
      * intros j x Hx. rewrite Nat.add_succ_l, <- Nat.add_succ_r. now apply (H (S j)).
Qed.

(** With no gap among the checked indices, the list built by
    [getSelectedOptions] has the checked value of index [i] at position
    [i]. *)
Lemma selected_lookup (checked : SelectionState) (n : nat) :
  (forall i j, i <= j -> j < n -> is_Some (checked !! j) -> is_Some (checked !! i)) ->
  forall i, omap (fun index => checked !! index) (seq 0 n) !! i
            = if (i <? n)%nat then checked !! i else None.
Proof.
  induction n as [|n IH]; intros Hgap i.
  - reflexivity.
  - rewrite seq_S, omap_app. simpl.
    assert (Hn : forall i, omap (fun index => checked !! index) (seq 0 n) !! i
                           = if (i <? n)%nat then checked !! i else None).
    { apply IH. intros a b Hab Hb. apply Hgap; lia. }
    assert (Hlen : length (omap (fun index => checked !! index) (seq 0 n)) <= n).
    { destruct (decide (length (omap (fun index => checked !! index) (seq 0 n)) <= n)) as [|Hgt];
        [assumption|].
      assert (Hs : is_Some (omap (fun index => checked !! index) (seq 0 n) !! n))
        by (apply lookup_lt_is_Some; lia).
      rewrite Hn, Nat.ltb_irrefl in Hs. now destruct Hs. }
    destruct (checked !! n) as [x|] eqn:Hx; simpl.
    + assert (Hfull : length (omap (fun index => checked !! index) (seq 0 n)) = n).
      { apply Nat.le_antisymm; [assumption|].
        destruct n as [|m]; [lia|].
        assert (Hs : is_Some (omap (fun index => checked !! index) (seq 0 (S m)) !! m)).
        { rewrite Hn. replace (m <? S m)%nat with true by (symmetry; apply Nat.ltb_lt; lia).
          apply (Hgap m (S m)); [lia | lia | now rewrite Hx]. }
        apply lookup_lt_is_Some in Hs. lia. }
      destruct (decide (i < n)) as [Hi|Hi].
      * rewrite lookup_app_l by lia. rewrite Hn.
        replace (i <? n)%nat with true by (symmetry; apply Nat.ltb_lt; lia).
        now replace (i <? S n)%nat with true by (symmetry; apply Nat.ltb_lt; lia).
      * rewrite lookup_app_r by lia. rewrite Hfull.
        destruct (decide (i = n)) as [->|Hne].
        -- rewrite Nat.sub_diag. simpl.
           now replace (n <? S n)%nat with true by (symmetry; apply Nat.ltb_lt; lia).
        -- replace (i <? S n)%nat with false by (symmetry; apply Nat.ltb_ge; lia).
           destruct (i - n) as [|d] eqn:Hd; [lia | reflexivity].
    + rewrite app_nil_r, Hn.
      destruct (decide (i = n)) as [->|Hne].
      * rewrite Nat.ltb_irrefl.
        now replace (n <? S n)%nat with true by (symmetry; apply Nat.ltb_lt; lia).
      * destruct (decide (i < n)).
        -- replace (i <? n)%nat with true by (symmetry; apply Nat.ltb_lt; lia).
           now replace (i <? S n)%nat with true by (symmetry; apply Nat.ltb_lt; lia).
        -- replace (i <? n)%nat with false by (symmetry; apply Nat.ltb_ge; lia).
           now replace (i <? S n)%nat with false by (symmetry; apply Nat.ltb_ge; lia).
Qed.

(** With no gap among the checked indices, the test [getVariantFromOptions]
    applies to a variant is the matching rule. *)
Lemma every_matches (product_options : list string) (checked : SelectionState) (v : Variant) :
  gap_free product_options checked ->
  every (fun option index => bool_decide (options v !! index = Some option))
        (getSelectedOptions product_options checked) = true
  <-> matches product_options checked v.
Proof.
  intros Hgap. unfold every, matches.
  rewrite every_from_spec, getSelectedOptions_omap.
  pose proof (selected_lookup checked (length product_options) Hgap) as Hl.
  split.
  - intros H i x Hi Hx. specialize (H i x). rewrite Hl in H.
    replace (i <? length product_options)%nat with true in H
      by (symmetry; apply Nat.ltb_lt; lia).
    apply (bool_decide_eq_true_1 _ (H Hx)).
  - intros H j x Hx. rewrite Hl in Hx.
    destruct (j <? length product_options)%nat eqn:Hj; [|discriminate].
    apply Nat.ltb_lt in Hj. apply bool_decide_eq_true_2. simpl. now apply H.
Qed.

(** Where no unchecked option comes before a checked one, [resolve]
    returns the first variant that matches the selection, and nothing exactly
    when no variant matches. *)
Theorem resolve_gap_free (product_options : list string) (variants : list Variant)
    (checked : SelectionState) :
  gap_free product_options checked ->
  (forall v, resolve product_options variants checked = Some v
             <-> first_such (matches product_options checked) variants v)
  /\ (resolve product_options variants checked = None
      <-> Forall (fun v => ~ matches product_options checked v) variants).
Proof.
  intros Hgap. unfold resolve, getVariantFromOptions. split.
  - intros v. rewrite find_first_such. unfold first_such.
    split; intros (b & a & -> & Hv & Hb); exists b, a; repeat split.
    + now apply every_matches.
    + eapply List.Forall_impl; [|exact Hb]. intros y Hy Hm. apply Hy.
      now apply every_matches.
    + now apply every_matches.
    + eapply List.Forall_impl; [|exact Hb]. intros y Hy Hm. apply Hy.
      now apply every_matches in Hm.
  - rewrite find_none_iff. split; intros H; (eapply List.Forall_impl; [|exact H]);
      intros y Hy Hm; apply Hy.
    + now apply every_matches.
    + now apply every_matches in Hm.
Qed.

(** A selection that covers every option index: the variant with exactly
    that option tuple is returned, and nothing when there is none. *)
Theorem resolve_full_selection (product_options : list string) (variants : list Variant)
    (checked : SelectionState) (tuple : list string) :
  length tuple = length product_options ->
  (forall i, i < length product_options -> checked !! i = tuple !! i) ->
  Forall (fun v => length (options v) = length product_options) variants ->
  (forall v w, v ∈ variants -> w ∈ variants -> options v = options w -> v = w) ->
  (forall v, resolve product_options variants checked = Some v
             <-> v ∈ variants /\ options v = tuple)
  /\ (resolve product_options variants checked = None
      <-> forall v, v ∈ variants -> options v <> tuple).
Proof.
  intros Hlen Hsel Hall Huniq.
  assert (Hgap : gap_free product_options checked).
  { intros i j Hij Hj _. rewrite Hsel by lia. apply lookup_lt_is_Some. lia. }
  assert (Hm : forall v, v ∈ variants -> matches product_options checked v <-> options v = tuple).
  { intros v Hv. rewrite Forall_forall in Hall. specialize (Hall v Hv).
    unfold matches. split.
    - intros H. apply list_eq. intros i.
      destruct (decide (i < length product_options)) as [Hi|Hi].
      + destruct (lookup_lt_is_Some_2 tuple i) as [x Hx]; [lia|].
        rewrite Hx. apply H; [assumption|]. now rewrite Hsel.
      + rewrite !lookup_ge_None_2 by lia. reflexivity.
    - intros -> i x Hi Hx. now rewrite <- Hsel. }
  destruct (resolve_gap_free product_options variants checked Hgap) as [Hsome Hnone].
  split.
  - intros v. rewrite Hsome. split.
    + intros (b & a & -> & Hv & _).
      assert (Hin : v ∈ (b ++ v :: a)%list) by (rewrite elem_of_app, elem_of_cons; auto).
      split; [assumption|]. now apply Hm.
    + intros [Hin Ht]. apply list_elem_of_split in Hin as Hsplit.
      destruct Hsplit as (b & a & Heq).
      assert (Hfirst : exists w, List.find (fun variant =>
                 every (fun option index => bool_decide (options variant !! index = Some option))
                       (getSelectedOptions product_options checked)) variants = Some w).
      { destruct (List.find _ variants) as [w|] eqn:Hf; [eauto|].
        apply find_none_iff in Hf. rewrite Forall_forall in Hf.
        exfalso. apply (Hf v Hin). apply every_matches; [assumption|]. now apply Hm. }
      destruct Hfirst as [w Hw]. apply Hsome in Hw as Hw'.
      destruct Hw' as (b' & a' & Heq' & Hwm & Hb').
      assert (Hwin : w ∈ variants)
        by (rewrite Heq', elem_of_app, elem_of_cons; auto).
      assert (w = v) as ->.
      { apply Huniq; auto. apply Hm in Hwm; auto. congruence. }
      exists b', a'. auto.
  - rewrite Hnone, Forall_forall. split; intros H v Hv.
    + intros Ht. apply (H v Hv). now apply Hm.
    + intros Hmv. apply (H v Hv). now apply Hm.
Qed.

(** C1. With the second option checked and the first one not, the value
    of index 1 is compared with the variants' option 0: the variant that
    matches the selection is not returned, and with a variant that carries
    that value as option 0, that variant, which does not match, is. *)
Theorem resolve_gap_misaligned :
  let small_red := variant 1 ["S"; "Red"] true None 0 in
  let red_small := variant 2 ["Red"; "S"] true None 0 in
  let checked : SelectionState := {[ 1 := "Red" ]} in
  getSelectedOptions ["Size"; "Color"] checked = ["Red"]
  /\ matches ["Size"; "Color"] checked small_red
  /\ resolve ["Size"; "Color"] [small_red] checked = None
  /\ ~ matches ["Size"; "Color"] checked red_small
  /\ resolve ["Size"; "Color"] [red_small; small_red] checked = Some red_small.
Proof.
  cbv zeta. split; [reflexivity|]. split; [|split; [reflexivity|split; [|reflexivity]]].
  - intros i x Hi Hx. apply lookup_singleton_Some in Hx as [<- <-]. reflexivity.
  - intros H. specialize (H 1 "Red"). simpl in H.
    discriminate H; [lia | apply lookup_singleton_eq].
Qed.

End ProductFacts.

(** ** The event loop *)

Section AsyncFacts.

Context {Page : Type}.
Implicit Types (p q : Proc Page) (s : Loop Page) (t : Task Page).

Lemma awaits_and_then (P : AsyncOp -> Prop) p q :
  awaits P p -> awaits P q -> awaits P (and_then p q).
Proof. induction p; simpl; intros; intuition auto. Qed.

Lemma awaits_try_catch (P : AsyncOp -> Prop) p (handler : Error -> Proc Page) :
  awaits P p -> (forall e, awaits P (handler e)) -> awaits P (try_catch p handler).
Proof. induction p; simpl; intros; intuition auto. Qed.

Lemma awaits_try_finally (P : AsyncOp -> Prop) p fin :
  awaits P p -> awaits P fin -> awaits P (try_finally p fin).
Proof.
  induction p; simpl; intros; intuition auto.
  apply awaits_and_then; simpl; auto.
Qed.

Lemma keeps_and_then {B : Type} (g : Page -> B) p q :
  keeps g p -> keeps g q -> keeps g (and_then p q).
Proof. induction p; simpl; intros; intuition auto. Qed.

Lemma keeps_try_catch {B : Type} (g : Page -> B) p (handler : Error -> Proc Page) :
  keeps g p -> (forall e, keeps g (handler e)) -> keeps g (try_catch p handler).
Proof. induction p; simpl; intros; intuition auto. Qed.

Lemma keeps_try_finally {B : Type} (g : Page -> B) p fin :
  keeps g p -> keeps g fin -> keeps g (try_finally p fin).
Proof.
  induction p; simpl; intros; intuition auto.
  apply keeps_and_then; simpl; auto.
Qed.

Lemma establishes_and_then {B : Type} (g : Page -> B) (Q : B -> Prop) p q :
  establishes g Q p -> keeps g q -> establishes g Q (and_then p q).
Proof.
  induction p; simpl; intros; intuition auto.
  right. split; [assumption|]. now apply keeps_and_then.
Qed.

(** A [finally] block that establishes [Q] does so on every way out of a
    body that leaves [g] alone. *)
Lemma establishes_try_finally {B : Type} (g : Page -> B) (Q : B -> Prop) p fin :
  keeps g p -> establishes g Q fin -> establishes g Q (try_finally p fin).
Proof.
  induction p; simpl; intros; intuition auto.
  apply establishes_and_then; simpl; auto.
Qed.

Lemma within_mono (n m : nat) p : n <= m -> within n p -> within m p.
Proof.
  revert n m. induction p as [| | f k IH | k IH | o k IH | c IHc k IHk];
    simpl; intros n m Hnm Hp; eauto.
  - destruct n as [|n]; [contradiction|]. destruct m as [|m]; [lia|].
    intros x. apply (IH x n); [lia | auto].
  - destruct Hp as (a & b & Hab & Ha & Hb). exists a, b. split; [lia | auto].
Qed.

Lemma within_and_then (n m : nat) p q :
  within n p -> within m q -> within (n + m) (and_then p q).
Proof.
  revert n. induction p as [| | f k IH | k IH | o k IH | c IHc k IHk];
    simpl; intros n Hp Hq; eauto.
  - apply (within_mono m); [lia | assumption].
  - destruct n as [|n]; [contradiction|]. simpl. intros x. now apply IH.
  - destruct Hp as (a & b & Hab & Ha & Hb). exists a, (b + m). split; [lia|].
    split; [assumption | now apply IHk].
Qed.

Lemma within_try_catch (n m : nat) p (handler : Error -> Proc Page) :
  within n p -> (forall e, within m (handler e)) -> within (n + m) (try_catch p handler).
Proof.
  revert n. induction p as [| | f k IH | k IH | o k IH | c IHc k IHk];
    simpl; intros n Hp Hh; eauto.
  - apply (within_mono m); [lia | auto].
  - destruct n as [|n]; [contradiction|]. simpl. intros x. now apply IH.
  - destruct Hp as (a & b & Hab & Ha & Hb). exists a, (b + m). split; [lia|].
    split; [assumption | now apply IHk].
Qed.

Lemma within_try_finally (n m : nat) p fin :
  within n p -> within m fin -> within (n + m) (try_finally p fin).
Proof.
  revert n. induction p as [| | f k IH | k IH | o k IH | c IHc k IHk];
    simpl; intros n Hp Hf; eauto.
  - apply (within_mono m); [lia | assumption].
  - apply (within_mono (m + 0)); [lia|]. now apply within_and_then.
  - destruct n as [|n]; [contradiction|]. simpl. intros x. now apply IH.
  - destruct Hp as (a & b & Hab & Ha & Hb). exists a, (b + m). split; [lia|].
    split; [assumption | now apply IHk].
Qed.

(** Running a function adds to the suspended functions and to the requests
    sent, and removes none. *)
Lemma exec_awaits (P : AsyncOp -> Prop) p s :
  awaits P p ->
  exists tasks requests,
    pending (exec p s) = (pending s ++ tasks)%list
    /\ sent (exec p s) = (sent s ++ requests)%list
    /\ Forall (fun t => P (op t) /\ task_awaits P t) tasks
    /\ Forall (fun r => P (Fetch r)) requests.
Proof.
  revert s. induction p as [| | f k IH | k IH | o k IH | c IHc k IHk];
    simpl; intros s Hp.
  - exists [], []. rewrite !app_nil_r. auto.
  - exists [], []. rewrite !app_nil_r. auto.
  - apply (IH {| page := f (page s); pending := pending s; sent := sent s;
                 unhandled := unhandled s |} Hp).
  - apply IH, Hp.
  - destruct Hp as [Ho Hk]. exists [{| op := o; resume := k |}], (requests_of o).
    repeat split; auto.
    destruct o; simpl; auto.
  - destruct Hp as [Hc Hk].
    destruct (IHc s Hc) as (ts1 & rs1 & H1 & H2 & H3 & H4).
    destruct (IHk (exec c s) Hk) as (ts2 & rs2 & H5 & H6 & H7 & H8).
    exists (ts1 ++ ts2)%list, (rs1 ++ rs2)%list.
    rewrite H5, H6, H1, H2, <- !app_assoc. repeat split; auto; now apply Forall_app.
Qed.

Lemma Forall_delete {A : Type} (P : A -> Prop) (l : list A) (i : nat) :
  Forall P l -> Forall P (delete i l).
Proof.
  intros H. revert i. induction H as [|x l Hx Hl IH]; intros [|i]; simpl; auto.
Qed.

Lemma settle_awaits (P : AsyncOp -> Prop) (i : nat) (env : Env) s :
  Forall (task_awaits P) (pending s) ->
  Forall (task_awaits P) (pending (settle i env s))
  /\ (exists requests,
         sent (settle i env s) = (sent s ++ requests)%list
         /\ Forall (fun r => P (Fetch r)) requests)
  /\ (Forall (fun t => P (op t)) (pending s) ->
      Forall (fun t => P (op t)) (pending (settle i env s))).
Proof.
  intros Hs. unfold settle. destruct (pending s !! i) as [t|] eqn:Ht.
  - assert (Hu : task_awaits P t).
    { rewrite Forall_forall in Hs. apply Hs. eapply list_elem_of_lookup_2, Ht. }
    destruct (exec_awaits P (resume t (env (op t)))
                {| page := page s; pending := delete i (pending s); sent := sent s;
                   unhandled := unhandled s |} (Hu _))
      as (ts & rs & H1 & H2 & H3 & H4).
    simpl in H1, H2. rewrite H1, H2. split; [|split; [eauto|]].
    + apply Forall_app. split; [now apply Forall_delete|].
      eapply List.Forall_impl; [|exact H3]. now intros a [_ Ha].
    + intros Ho. apply Forall_app. split; [now apply Forall_delete|].
      eapply List.Forall_impl; [|exact H3]. now intros a [Ha _].
  - split; [assumption|]. split; [|auto]. exists []. now rewrite app_nil_r.
Qed.

(** If every suspended function only awaits promises satisfying [P] from
    now on, every request sent from now on satisfies [P], and if the
    promises awaited now satisfy [P] as well, so do those awaited later. *)
Lemma settle_all_awaits (P : AsyncOp -> Prop) (schedule : list (nat * Env)) s :
  Forall (task_awaits P) (pending s) ->
  (exists requests,
      sent (settle_all schedule s) = (sent s ++ requests)%list
      /\ Forall (fun r => P (Fetch r)) requests)
  /\ (Forall (fun t => P (op t)) (pending s) ->
      Forall (fun t => P (op t)) (pending (settle_all schedule s))).
Proof.
  revert s. induction schedule as [|[i env] schedule IH]; intros s Hs.
  - split; [|auto]. exists []. simpl. now rewrite app_nil_r.
  - destruct (settle_awaits P i env s Hs) as (Hs' & (rs & Hr & HP) & Hop).
    destruct (IH _ Hs') as ((rs' & Hr' & HP') & Hop').
    unfold settle_all in *. simpl. split; [|auto].
    exists (rs ++ rs')%list. rewrite Hr', Hr, <- app_assoc.
    split; [reflexivity | now apply Forall_app].
Qed.

Lemma exec_keeps {B : Type} (g : Page -> B) p s :
  keeps g p ->
  g (page (exec p s)) = g (page s)
  /\ exists tasks,
      pending (exec p s) = (pending s ++ tasks)%list /\ Forall (task_keeps g) tasks.
Proof.
  revert s. induction p as [| | f k IH | k IH | o k IH | c IHc k IHk];
    simpl; intros s Hp.
  - split; [reflexivity|]. exists []. now rewrite app_nil_r.
  - split; [reflexivity|]. exists []. now rewrite app_nil_r.
  - destruct Hp as [Hf Hk].
    destruct (IH {| page := f (page s); pending := pending s; sent := sent s;
                    unhandled := unhandled s |} Hk) as (Hg & ts & H1 & H2).
    simpl in Hg, H1. rewrite Hg, Hf. eauto.
  - apply IH, Hp.
  - split; [reflexivity|]. exists [{| op := o; resume := k |}]. split; [reflexivity|].
    constructor; [exact Hp | constructor].
  - destruct Hp as [Hc Hk].
    destruct (IHc s Hc) as (Hg1 & ts1 & H1 & H2).
    destruct (IHk (exec c s) Hk) as (Hg2 & ts2 & H3 & H4).
    rewrite Hg2, Hg1, H3, H1, <- app_assoc. split; [reflexivity|].
    exists (ts1 ++ ts2)%list. split; [reflexivity | now apply Forall_app].
Qed.

Lemma exec_establishes {B : Type} (g : Page -> B) (Q : B -> Prop) p s :
  establishes g Q p ->
  exists tasks,
    pending (exec p s) = (pending s ++ tasks)%list
    /\ Forall (fun t => task_keeps g t \/ task_establishes g Q t) tasks
    /\ (Exists (task_establishes g Q) tasks \/ Q (g (page (exec p s)))).
Proof.
  revert s. induction p as [| | f k IH | k IH | o k IH | c IHc k IHk];
    simpl; intros s Hp; try contradiction.
  - destruct Hp as [Hk | [Hf Hk]].
    + apply (IH {| page := f (page s); pending := pending s; sent := sent s;
                   unhandled := unhandled s |} Hk).
    + destruct (exec_keeps g k {| page := f (page s); pending := pending s; sent := sent s;
                                  unhandled := unhandled s |} Hk) as (Hg & ts & H1 & H2).
      simpl in Hg, H1. exists ts. split; [assumption|]. split.
      * eapply List.Forall_impl; [|exact H2]. auto.
      * right. rewrite Hg. apply Hf.
  - apply IH, Hp.
  - exists [{| op := o; resume := k |}]. split; [reflexivity|]. split.
    + constructor; [right; exact Hp | constructor].
    + left. constructor. exact Hp.
  - destruct Hp as [Hc Hk].
    destruct (exec_keeps g c s Hc) as (Hg1 & ts1 & H1 & H2).
    destruct (IHk (exec c s) Hk) as (ts2 & H3 & H4 & H5).
    exists (ts1 ++ ts2)%list. rewrite H3, H1, <- app_assoc. split; [reflexivity|]. split.
    + apply Forall_app. split; [|assumption].
      eapply List.Forall_impl; [|exact H2]. auto.
    + destruct H5 as [H5|H5]; [left | now right].
      apply Exists_app. now right.
Qed.

(** A part of the page that is on course stays on course, whichever
    promise settles next and however it settles. *)
Lemma settle_on_course {B : Type} (g : Page -> B) (Q : B -> Prop) (i : nat) (env : Env) s :
  on_course g Q s -> on_course g Q (settle i env s).
Proof.
  intros [Hall Hex]. unfold settle.
  destruct (pending s !! i) as [t|] eqn:Ht; [|now split].
  pose proof (take_drop_middle _ _ _ Ht) as Hmid.
  assert (Hdel : delete i (pending s) = (take i (pending s) ++ drop (S i) (pending s))%list)
    by apply delete_take_drop.
  assert (Ht' : task_keeps g t \/ task_establishes g Q t).
  { rewrite Forall_forall in Hall. apply Hall. eapply list_elem_of_lookup_2, Ht. }
  assert (Hrest : Forall (fun t => task_keeps g t \/ task_establishes g Q t)
                         (delete i (pending s))) by now apply Forall_delete.
  set (s0 := {| page := page s; pending := delete i (pending s); sent := sent s;
                unhandled := unhandled s |}).
  assert (Hcases : task_establishes g Q t
                   \/ (task_keeps g t
                       /\ (Exists (task_establishes g Q) (delete i (pending s))
                           \/ Q (g (page s))))).
  { destruct Hex as [Hex|HQ].
    - rewrite <- Hmid in Hex. apply Exists_app in Hex as [Hex|Hex].
      + destruct Ht' as [Hk|He]; [right | now left].
        split; [assumption|]. left. rewrite Hdel. apply Exists_app. now left.
      + apply Exists_cons in Hex as [Hex|Hex]; [now left|].
        destruct Ht' as [Hk|He]; [right | now left].
        split; [assumption|]. left. rewrite Hdel. apply Exists_app. now right.
    - destruct Ht' as [Hk|He]; [right | now left]. auto. }
  destruct Hcases as [He | [Hk Hex']].
  - destruct (exec_establishes g Q (resume t (env (op t))) s0 (He _)) as (ts & H1 & H2 & H3).
    split.
    + rewrite H1. apply Forall_app. split; assumption.
    + destruct H3 as [H3|H3]; [left | now right].
      rewrite H1. apply Exists_app. now right.
  - destruct (exec_keeps g (resume t (env (op t))) s0 (Hk _)) as (Hg & ts & H1 & H2).
    split.
    + rewrite H1. apply Forall_app. split; [assumption|].
      eapply List.Forall_impl; [|exact H2]. auto.
    + destruct Hex' as [H3|H3].
      * left. rewrite H1. apply Exists_app. now left.
      * right. now rewrite Hg.
Qed.

Lemma settle_all_on_course {B : Type} (g : Page -> B) (Q : B -> Prop)
    (schedule : list (nat * Env)) s :
  on_course g Q s -> on_course g Q (settle_all schedule s).
Proof.
  revert s. induction schedule as [|[i env] schedule IH]; intros s Hs; [exact Hs|].
  apply IH. now apply settle_on_course.
Qed.

Lemma drain_on_course {B : Type} (g : Page -> B) (Q : B -> Prop)
    (fuel : nat) (envs : nat -> Env) s :
  on_course g Q s -> on_course g Q (drain fuel envs s).
Proof.
  revert envs s. induction fuel as [|fuel IH]; intros envs s Hs; simpl; [exact Hs|].
  destruct (first_io (pending s)); [|exact Hs].
  apply IH. now apply settle_on_course.
Qed.

(** When nothing is suspended any more, what was on course holds. *)
Lemma on_course_idle {B : Type} (g : Page -> B) (Q : B -> Prop) s :
  on_course g Q s -> pending s = [] -> Q (g (page s)).
Proof.
  intros [_ [Hex|HQ]] Hp; [|exact HQ].
  rewrite Hp in Hex. now apply Exists_nil in Hex.
Qed.

Lemma sum_list_delete (ws : list nat) (i w : nat) :
  ws !! i = Some w -> sum_list (delete i ws) + w = sum_list ws.
Proof.
  revert i. induction ws as [|a ws IH]; intros [|i] H; simpl in *; try discriminate.
  - injection H as ->. unfold Datatypes.id. lia.
  - specialize (IH i H). unfold Datatypes.id in *. lia.
Qed.

Lemma first_io_lookup (tasks : list (Task Page)) (i : nat) :
  first_io tasks = Some i -> exists t, tasks !! i = Some t /\ is_timer (op t) = false.
Proof.
  revert i. induction tasks as [|t tasks IH]; intros i; simpl; [discriminate|].
  destruct (is_timer (op t)) eqn:Ht.
  - destruct (first_io tasks) as [j|]; simpl; [|discriminate].
    intros [= <-]. now apply IH.
  - intros [= <-]. eauto.
Qed.

Lemma first_io_none (tasks : list (Task Page)) :
  first_io tasks = None <-> Forall (fun t => is_timer (op t) = true) tasks.
Proof.
  induction tasks as [|t tasks IH]; simpl.
  - split; [constructor | reflexivity].
  - destruct (is_timer (op t)) eqn:Ht.
    + destruct (first_io tasks); simpl.
      * split; [discriminate|]. intros H. inversion H; subst.
        destruct IH as [_ IH]. now specialize (IH ltac:(assumption)).
      * split; [|reflexivity]. intros _. constructor; [assumption | now apply IH].
    + split; [discriminate|]. intros H. inversion H; subst. congruence.
Qed.

(** A function that suspends at most [n] times adds suspended functions
    that are done after at most [n] promises have settled. *)
Lemma exec_within (n : nat) p s (ws : list nat) :
  within n p ->
  Forall2 task_within (pending s) ws ->
  exists ws', Forall2 task_within (pending (exec p s)) (ws ++ ws')%list /\ sum_list ws' <= n.
Proof.
  revert n s ws. induction p as [| | f k IH | k IH | o k IH | c IHc k IHk];
    simpl; intros n s ws Hp Hs.
  - exists []. rewrite app_nil_r. split; [assumption | simpl; lia].
  - exists []. rewrite app_nil_r. split; [assumption | simpl; lia].
  - apply (IH n {| page := f (page s); pending := pending s; sent := sent s;
                   unhandled := unhandled s |} ws Hp Hs).
  - apply (IH (page s) n s ws (Hp _) Hs).
  - destruct n as [|m]; [contradiction|]. exists [S m]. split.
    + apply Forall2_app; [assumption|]. constructor; [exact Hp | constructor].
    + simpl. unfold Datatypes.id. lia.
  - destruct Hp as (a & b & Hab & Ha & Hb).
    destruct (IHc a s ws Ha Hs) as (ws1 & H1 & H2).
    destruct (IHk b (exec c s) _ Hb H1) as (ws2 & H3 & H4).
    exists (ws1 ++ ws2)%list. rewrite app_assoc. split; [assumption|].
    rewrite sum_list_with_app. lia.
Qed.

(** Settling the network promises one after the other leaves none
    pending: every function that waits for the network finishes. *)
Lemma drain_within (fuel : nat) (envs : nat -> Env) s (ws : list nat) :
  Forall2 task_within (pending s) ws ->
  sum_list ws <= fuel ->
  first_io (pending (drain fuel envs s)) = None.
Proof.
  revert envs s ws. induction fuel as [|fuel IH]; intros envs s ws Hs Hsum; simpl.
  - destruct (first_io (pending s)) as [i|] eqn:Hi; [|reflexivity].
    apply first_io_lookup in Hi as (t & Ht & _).
    destruct (Forall2_lookup_l _ _ _ _ _ Hs Ht) as (w & Hw & Htw).
    pose proof (sum_list_delete ws i w Hw).
    destruct w; [contradiction | lia].
  - destruct (first_io (pending s)) as [i|] eqn:Hi; [|exact Hi].
    apply first_io_lookup in Hi as (t & Ht & _).
    destruct (Forall2_lookup_l _ _ _ _ _ Hs Ht) as (w & Hw & Htw).
    pose proof (sum_list_delete ws i w Hw) as Hdel.
    destruct w as [|m]; [contradiction|].
    unfold settle. rewrite Ht.
    destruct (exec_within m (resume t (envs 0 (op t)))
                {| page := page s; pending := delete i (pending s); sent := sent s;
                   unhandled := unhandled s |} (delete i ws) (Htw _))
      as (ws' & H1 & H2).
    { simpl. now apply Forall2_delete. }
    apply (IH _ _ _ H1). rewrite sum_list_with_app. lia.
Qed.

Lemma exec_Read (k : Page -> Proc Page) s : exec (Read k) s = exec (k (page s)) s.
Proof. reflexivity. Qed.

Lemma exec_on_course {B : Type} (g : Page -> B) (Q : B -> Prop) p s :
  establishes g Q p ->
  Forall (fun t => task_keeps g t \/ task_establishes g Q t) (pending s) ->
  on_course g Q (exec p s).
Proof.
  intros Hp Hs. destruct (exec_establishes g Q p s Hp) as (ts & H1 & H2 & H3).
  split.
  - rewrite H1. now apply Forall_app.
  - destruct H3 as [H3|H3]; [left | now right].
    rewrite H1. apply Exists_app. now right.
Qed.

(** [drain] is one of the schedules. *)
Lemma drain_schedule (fuel : nat) (envs : nat -> Env) s :
  exists schedule, drain fuel envs s = settle_all schedule s.
Proof.
  revert envs s. induction fuel as [|fuel IH]; intros envs s; simpl.
  - now exists [].
  - destruct (first_io (pending s)) as [i|]; [|now exists []].
    destruct (IH (fun n => envs (S n)) (settle i (envs 0) s)) as (schedule & Hs).
    exists ((i, envs 0) :: schedule). now rewrite Hs.
Qed.

Lemma no_task_left (tasks : list (Task Page)) :
  first_io tasks = None ->
  Forall (fun t => is_timer (op t) = false) tasks ->
  tasks = [].
Proof.
  intros Hio Hno. apply first_io_none in Hio.
  destruct tasks as [|t tasks]; [reflexivity|].
  inversion Hio; subst. inversion Hno; subst. congruence.
Qed.

End AsyncFacts.

(** ** Cart drawer *)

Module CartFacts.
Import CartDrawer CartSpec.

Lemma routes_set_is_loading (v : bool) (pg : Page) : routes (set_is_loading v pg) = routes pg.
Proof. now destruct pg. Qed.


(** Calling [updateItem] sets the loading class, sends the change request
    and suspends; nothing that is already suspended is waited for. *)
Lemma exec_updateItem (s : Loop Page) (key : string) (quantity : JsNum) (k : Proc Page) :
  exec (updateItem key quantity k) s
  = {| page := set_is_loading true (page s);
       pending := (pending s ++ [{| op := Fetch (update_request (routes (page s)) key quantity);
                                    resume := after_update k |}])%list;
       sent := (sent s ++ [update_request (routes (page s)) key quantity])%list;
       unhandled := unhandled s |}.
Proof.
  unfold updateItem, _setLoading, with_routes. simpl.
  rewrite routes_set_is_loading. reflexivity.
Qed.


(** For a key that the selector takes as it is, [changeQuantity] is
    [updateItem] with the clamped sum of the displayed quantity and the
    change. *)
Lemma exec_changeQuantity (s : Loop Page) (key : string) (change : Z) (k : Proc Page) :
  selector_safe key = true ->
  exec (changeQuantity key change k) s
  = exec (updateItem key (Math_max (Num 0) (js_add (displayed key (page s)) (Num change))) k) s.
Proof.
  intros Hkey. unfold changeQuantity. rewrite exec_Read. cbv beta zeta.
  unfold displayed, itemRow. rewrite Hkey.
  match goal with
  | |- context [parseInt (displayed_text ?r) _] =>
      set (newQty := Math_max (Num 0) (js_add (parseInt (displayed_text r) (Some 10%Z))
                                              (Num change)))
  end.
  destruct (strict_eq_num newQty (Num 0)) eqn:H0; [|reflexivity].
  destruct newQty as [|z]; [discriminate|].
  simpl in H0. apply Z.eqb_eq in H0. now subst.
Qed.

(** What the lookup of [changeQuantity] finds is the line's row, and the
    text it goes on with is the quantity text shown for the line. *)
Lemma find_row (key : string) (rows : list CartRow) :
  match List.find (fun row => String.eqb (item_key row) key) rows with
  | Some row => first_such (fun r => item_key r = key) rows row
  | None => Forall (fun r => item_key r <> key) rows
  end.
Proof.
  destruct (List.find _ rows) as [row|] eqn:Hf.
  - apply find_first_such in Hf. destruct Hf as (b & a & -> & Hrow & Hb).
    exists b, a. split; [reflexivity|]. split; [now apply String.eqb_eq|].
    eapply List.Forall_impl; [|exact Hb]. intros r Hr Heq. apply Hr.
    now apply String.eqb_eq.
  - apply find_none_iff in Hf. eapply List.Forall_impl; [|exact Hf].
    intros r Hr Heq. apply Hr. now apply String.eqb_eq.
Qed.

Lemma first_such_unique {A : Type} (P : A -> Prop) (l : list A) (x y : A) :
  first_such P l x -> first_such P l y -> x = y.
Proof.
  intros (b & a & -> & Hx & Hb) (b' & a' & Heq & Hy & Hb').
  revert b' Heq Hb'. induction Hb as [|z b Hz Hb IH]; intros [|z' b'] Heq Hb'; simpl in Heq.
  - now injection Heq.
  - injection Heq as -> _. inversion Hb'; subst. contradiction.
  - injection Heq as -> _. contradiction.
  - injection Heq as -> Heq. inversion Hb'; subst. now apply (IH b').
Qed.

Lemma first_such_in {A : Type} (P : A -> Prop) (l : list A) (x : A) :
  first_such P l x -> x ∈ l /\ P x.
Proof.
  intros (b & a & -> & Hx & _). split; [|exact Hx].
  rewrite elem_of_app, elem_of_cons. auto.
Qed.

Lemma quantity_shown_read (key : string) (pg : Page) (text : string) :
  selector_safe key = true -> quantity_shown key pg text ->
  exists row, itemRow key pg = Normal row /\ displayed_text row = text.
Proof.
  intros Hkey Hshown. unfold itemRow. rewrite Hkey. eexists. split; [reflexivity|].
  assert (Hrow : forall row, row_of key pg row ->
             match contents pg with
             | Some rows => List.find (fun row => String.eqb (item_key row) key) rows
             | None => None
             end = Some row).
  { intros row (rows & Hc & Hfirst). rewrite Hc.
    pose proof (find_row key rows) as Hf.
    destruct (List.find _ rows) as [row'|].
    - f_equal. exact (first_such_unique _ _ _ _ Hf Hfirst).
    - apply first_such_in in Hfirst as [Hin Hk]. rewrite Forall_forall in Hf.
      now destruct (Hf row Hin). }
  destruct Hshown as [(row & Hr & Ht & Hne) | (-> & [Hno | (row & Hr & Ht)])].
  - rewrite (Hrow row Hr). unfold displayed_text. simpl. rewrite Ht.
    destruct text; [contradiction | reflexivity].
  - unfold no_row in Hno. destruct (contents pg) as [rows|]; [|reflexivity].
    pose proof (find_row key rows) as Hf.
    destruct (List.find _ rows) as [row'|]; [|reflexivity].
    apply first_such_in in Hf as [Hin Hk]. rewrite Forall_forall in Hno.
    now destruct (Hno row' Hin).
  - rewrite (Hrow row Hr). unfold displayed_text. simpl.
    now destruct Ht as [-> | ->].
Qed.

(** C6 as the code has it: [removeItem] sends one change to quantity zero
    and suspends; when the response arrives with a success status the refresh
    request is sent next; when the request is rejected or the response is not
    a success the function ends there, with no refresh: the failure is
    logged and the loading class cleared. *)
Theorem removeItem_refresh_when_ok (pg : Page) (key : string) (env : Env) :
  let update := update_request (routes pg) key (Num 0) in
  let s1 := exec (removeItem key Done) (idle pg) in
  let s2 := settle 0 env s1 in
  sent s1 = [update]
  /\ (op <$> pending s1) = [Fetch update]
  /\ match env (Fetch update) with
     | Fulfilled response =>
         if ok response
         then sent s2 = [update; refresh_request (routes pg)]
              /\ (op <$> pending s2) = [Fetch (refresh_request (routes pg))]
         else update_failed pg [update] s2
     | Rejected _ => update_failed pg [update] s2
     end.
Proof.
  cbv zeta. unfold removeItem. rewrite (exec_updateItem (idle pg)).
  split; [reflexivity|]. split; [reflexivity|].
  unfold settle. simpl. unfold after_update.
  destruct (env (Fetch (update_request (routes pg) key (Num 0)))) as [response|e]; simpl.
  - destruct (ok response); simpl.
    + unfold refresh, with_routes. simpl. rewrite routes_set_is_loading. simpl.
      split; reflexivity.
    + unfold update_failed. simpl. destruct pg; simpl. auto.
  - unfold update_failed. simpl. destruct pg; simpl. auto.
Qed.

(** C6 as stated fails: with the network down, [removeItem] ends without
    having sent the refresh request. *)
Lemma removeItem_rejected_no_refresh :
  let s := settle 0 offline (exec (removeItem "k" Done) (idle page0)) in
  pending s = []
  /\ sent s = [update_request routes0 "k" (Num 0)]
  /\ ~ refresh_request routes0 ∈ sent s.
Proof.
  cbv zeta. split; [reflexivity|]. split; [reflexivity|].
  intros H. change (refresh_request routes0 ∈ [update_request routes0 "k" (Num 0)]) in H.
  apply list_elem_of_singleton in H. discriminate H.
Qed.




(** Walks the paths of a function body: case analysis on whatever a path
    branches on, with [tac] for the goals that are left at a step. *)
Ltac walk_with tac :=
  repeat first
    [ progress simpl
    | progress intros
    | reflexivity
    | split
    | tac
    | match goal with
      | |- context [match ?x with _ => _ end] => destruct x
      end ].

Ltac walk := walk_with fail.

Lemma posts_none (requests : list Request) :
  Forall (fun request => is_post request = false) requests -> posts requests = [].
Proof.
  induction 1 as [|x l Hx Hl IH]; simpl; [reflexivity|].
  unfold posts in *. simpl. now rewrite Hx.
Qed.

(** Once its request is sent, [updateItem] only reads: what follows sends
    GET requests only. *)
Lemma after_update_reads (x : Settled Response) :
  awaits (on_fetch (fun request => is_post request = false)) (after_update Done x).
Proof.
  unfold after_update, refresh, updateCount, with_routes, _setLoading. walk.
Qed.

(** C4 as the code has it.  For a key that the selector takes as it is,
    [changeQuantity] reads the quantity text the drawer shows for the line,
    that of the first row with the key, 1 standing in for a missing row or
    text.  When the text reads as a number, it adds the change and clamps the
    sum at zero: exactly one request that changes the cart is sent, at once
    and in whatever follows, the change request for this line with the new
    absolute quantity; and when that quantity is zero it does what
    [removeItem] does.  A number in decimal, with or without white space
    before it, reads as that number.  When the text does not read as a number,
    the one request carries [NaN].  The quantities are safe integers. *)
Theorem changeQuantity_clamps (pg : Page) (key text : string) (change : Z) :
  selector_safe key = true ->
  quantity_shown key pg text ->
  let called := exec (changeQuantity key change Done) (idle pg) in
  let sends (quantity : JsNum) :=
    sent called = [update_request (routes pg) key quantity]
    /\ (forall schedule,
           posts (sent (settle_all schedule called))
           = [update_request (routes pg) key quantity]) in
  (forall q,
      parseInt text (Some 10%Z) = Num q -> safe q -> safe change -> safe (q + change) ->
      sends (Num (Z.max 0 (q + change)))
      /\ (Z.max 0 (q + change) = 0%Z ->
          forall (s : Loop Page) (k : Proc Page),
            page s = pg -> exec (changeQuantity key change k) s = exec (removeItem key k) s))
  /\ (forall ws q, blank ws -> text = ws ++ string_of_Z q -> parseInt text (Some 10%Z) = Num q)
  /\ (parseInt text (Some 10%Z) = NaN -> sends NaN).
Proof.
  intros Hkey Hshown. cbv zeta.
  destruct (quantity_shown_read key pg text Hkey Hshown) as (row & Hrow & Htext).
  assert (Hd : displayed key pg = parseInt text (Some 10%Z)).
  { unfold displayed. now rewrite Hrow, Htext. }
  assert (Hsends : forall quantity,
             Math_max (Num 0) (js_add (displayed key pg) (Num change)) = quantity ->
             sent (exec (changeQuantity key change Done) (idle pg))
             = [update_request (routes pg) key quantity]
             /\ (forall schedule,
                    posts (sent (settle_all schedule
                                   (exec (changeQuantity key change Done) (idle pg))))
                    = [update_request (routes pg) key quantity])).
  { intros quantity Hq. rewrite (exec_changeQuantity _ _ _ _ Hkey), exec_updateItem.
    change (page (idle pg)) with pg. rewrite Hq. split; [reflexivity|].
    intros schedule.
    match goal with
    | |- posts (sent (settle_all _ ?s0)) = _ =>
        destruct (settle_all_awaits (on_fetch (fun request => is_post request = false))
                    schedule s0) as [(rs & Hsent & Hrs) _]
    end.
    { simpl. constructor; [|constructor]. intros x. apply after_update_reads. }
    rewrite Hsent. simpl. unfold posts. simpl.
    fold (posts rs). now rewrite (posts_none rs Hrs). }
  split; [|split].
  - intros q Hq _ _ _. split.
    + apply Hsends. now rewrite Hd, Hq.
    + intros H0 s k Hs. rewrite (exec_changeQuantity _ _ _ _ Hkey), Hs, Hd, Hq. simpl.
      now rewrite H0.
  - intros ws q Hws ->. apply parseInt_blank_string_of_Z; [assumption | now right].
  - intros Hn. apply Hsends. now rewrite Hd, Hn.
Qed.

Lemma changeQuantity_clamps_witness :
  selector_safe "k" = true
  /\ quantity_shown "k" page2 "2"
  /\ parseInt "2" (Some 10%Z) = Num 2
  /\ sent (exec (changeQuantity "k" 1 Done) (idle page2)) = [update_request routes0 "k" (Num 3)]
  /\ exec (changeQuantity "k" (-2) Done) (idle page2) = exec (removeItem "k" Done) (idle page2).
Proof.
  assert (Hshown : quantity_shown "k" page2 "2").
  { left. exists {| item_key := "k"; quantity_text := Some "2" |}.
    split; [|split; [reflexivity | discriminate]].
    eexists. split; [reflexivity|].
    exists [{| item_key := "j"; quantity_text := Some "5" |}], [].
    split; [reflexivity|]. split; [reflexivity|].
    constructor; [discriminate | constructor]. }
  assert (Hsafe : forall z, (-4 <= z <= 4)%Z -> safe z) by (unfold safe; lia).
  split; [reflexivity|]. split; [exact Hshown|]. split; [reflexivity|]. split.
  - apply (proj1 (changeQuantity_clamps page2 "k" "2" 1 eq_refl Hshown) 2%Z eq_refl);
      apply Hsafe; lia.
  - apply (proj1 (changeQuantity_clamps page2 "k" "2" (-2) eq_refl Hshown) 2%Z eq_refl);
      try (apply Hsafe; lia); reflexivity.
Defined.

(** C4 as stated fails for a key with a double quote: the key goes into
    the selector as it is, the lookup of the row throws, and [changeQuantity]
    ends there with the error uncaught: for a line that shows 2 and a change
    of 1 no request is sent, where the claim has one request for 3. *)
Lemma changeQuantity_throws_on_quote :
  let called := exec (changeQuantity quoted_key 1 Done) (idle quoted0) in
  quantity_shown quoted_key quoted0 "2"
  /\ sent called = []
  /\ pending called = []
  /\ unhandled called = [SyntaxError "The string did not match the expected pattern"]
  /\ page called = quoted0
  /\ called <> exec (updateItem quoted_key (Num 3) Done) (idle quoted0).
Proof.
  cbv zeta. split; [|split; [reflexivity|split; [reflexivity|split; [reflexivity|split]]]].
  - left. exists {| item_key := quoted_key; quantity_text := Some "2" |}.
    split; [|split; [reflexivity | discriminate]].
    eexists. split; [reflexivity|]. exists [], [].
    split; [reflexivity|]. split; [reflexivity | constructor].
  - reflexivity.
  - intros H. apply (f_equal sent) in H. discriminate H.
Qed.

(** *** The submit button of an add-to-cart form *)

(** How [addItem] shares its ten suspensions among the functions it calls
    without awaiting them. *)
Ltac spend :=
  match goal with
  | |- exists a b, a + b <= _ /\ (forall pg, within a (if isOpen pg then _ else _)) /\ _ =>
      exists 4, 1
  | |- exists a b, a + b <= 7 /\ _ => exists 2, 5
  | |- exists a b, a + b <= 2 /\ _ => exists 2, 0
  end.

(** A write that is not [set_button] leaves the buttons alone. *)
Ltac untouched :=
  match goal with
  | |- _ = submit_buttons ?pg => destruct pg; reflexivity
  end.

Lemma addItem_within (form : Form) : within 10 (addItem form Done).
Proof.
  unfold addItem, refresh, open, updateCount, with_routes.
  walk_with ltac:(idtac; first [spend | lia]).
Qed.

Lemma addItem_no_timer (form : Form) :
  awaits (fun o => is_timer o = false) (addItem form Done).
Proof. unfold addItem, refresh, open, updateCount, with_routes. walk. Qed.

(** Once [addItem] has disabled the submit button of its form, every way
    on ends with the button enabled and its text back. *)
Lemma addItem_on_course (pg : Page) (form : Form) (b : SubmitButton) :
  submit_buttons pg !! form_id form = Some b ->
  on_course submit_buttons (restored form (textContent b))
            (exec (addItem form Done) (idle pg)).
Proof.
  intros Hb. unfold addItem.
  lazymatch goal with
  | |- on_course ?g ?Q (exec (Read ?k) ?s) => change (on_course g Q (exec (k pg) s))
  end.
  cbv beta. rewrite Hb.
  apply exec_on_course; [|constructor].
  left. apply establishes_and_then; [|exact I].
  apply establishes_try_finally.
  - apply keeps_try_catch.
    + unfold refresh, open, updateCount, with_routes. walk_with ltac:(idtac; untouched).
    + walk_with ltac:(idtac; untouched).
  - right. split; [|exact I]. intros pg'. destruct pg'. simpl.
    unfold restored. simpl. apply lookup_insert_eq.
Qed.

Theorem addItem_restores_button (pg : Page) (form : Form) (b : SubmitButton) :
  submit_buttons pg !! form_id form = Some b ->
  let called := exec (addItem form Done) (idle pg) in
  (forall schedule,
      pending (settle_all schedule called) = [] ->
      restored form (textContent b) (submit_buttons (page (settle_all schedule called))))
  /\ (forall envs,
         pending (drain 10 envs called) = []
         /\ restored form (textContent b) (submit_buttons (page (drain 10 envs called)))).
Proof.
  intros Hb. cbv zeta.
  pose proof (addItem_on_course pg form b Hb) as Hc.
  split.
  - intros schedule Hidle.
    apply (on_course_idle submit_buttons _ _ (settle_all_on_course _ _ schedule _ Hc) Hidle).
  - intros envs.
    assert (Hidle : pending (drain 10 envs (exec (addItem form Done) (idle pg))) = []).
    { apply no_task_left.
      - destruct (exec_within 10 (addItem form Done) (idle pg) [] (addItem_within form))
          as (ws & Hws & Hsum); [constructor|].
        now apply (drain_within 10 envs _ _ Hws).
      - destruct (drain_schedule 10 envs (exec (addItem form Done) (idle pg))) as (sch & ->).
        destruct (exec_awaits (fun o => is_timer o = false) (addItem form Done) (idle pg)
                    (addItem_no_timer form)) as (ts & rs & H1 & _ & H3 & _).
        apply (settle_all_awaits (fun o => is_timer o = false) sch).
        + rewrite H1. eapply List.Forall_impl; [|exact H3]. now intros a [_ Ha].
        + rewrite H1. eapply List.Forall_impl; [|exact H3]. now intros a [Ha _]. }
    split; [exact Hidle|].
    apply (on_course_idle submit_buttons _ _ (drain_on_course _ _ 10 envs _ Hc) Hidle).
Qed.

End CartFacts.

(** ** Adding to the cart *)

Module AddToCartFacts.
Import CartSpec.

(** While [addItem] waits for its request, the button is disabled. *)
Lemma addItem_disables (pg : CartDrawer.Page) (form : CartDrawer.Form)
    (b : CartDrawer.SubmitButton) :
  CartDrawer.submit_buttons pg !! CartDrawer.form_id form = Some b ->
  CartDrawer.submit_buttons (page (exec (CartDrawer.addItem form Done) (idle pg)))
    !! CartDrawer.form_id form
  = Some {| CartDrawer.disabled := true; CartDrawer.textContent := "Adding..." |}.
Proof.
  intros Hb. unfold CartDrawer.addItem, CartDrawer.with_routes. rewrite exec_Read.
  cbv beta zeta. change (page (idle pg)) with pg. rewrite Hb.
  destruct pg. simpl. apply lookup_insert_eq.
Qed.

(** The product form's own submit handler: when the request and the
    reading of its response have settled, in whichever way, one timer is
    left and the button is enabled.  When the timer has fired: after an add
    that went through the button is enabled; after one that failed the button
    is as the availability of the current variant says, and enabled when
    there is no current variant. *)
Lemma onFormSubmit_reenables (pg : ProductForm.FormPage) (envs : nat -> Env) :
  ProductForm.ajaxCart pg = true ->
  let done := drain 2 envs (exec (ProductForm.onFormSubmit Done) (idle pg)) in
  first_io (pending done) = None
  /\ ProductSpec.enabled (page done)
  /\ (forall env,
         let fired := settle 0 env done in
         pending fired = []
         /\ (ProductSpec.added pg envs -> ProductSpec.enabled (page fired))
         /\ (~ ProductSpec.added pg envs ->
             match ProductForm.currentVariant pg with
             | Some v =>
                 (ProductForm.disabled <$> ProductForm.addToCartButton (page fired))
                 = ((fun _ => negb (ProductForm.available v))
                      <$> ProductForm.addToCartButton pg)
             | None => ProductSpec.enabled (page fired)
             end)).
Proof.
  intros Hajax. destruct pg as [a u f b t v d c e]. simpl in Hajax. subst a.
  cbv zeta. unfold ProductSpec.added, ProductSpec.add_request.
  remember (drain 2 envs (exec (ProductForm.onFormSubmit Done)
                               (idle (ProductForm.Build_FormPage true u f b t v d c e))))
    as done eqn:Hdone.
  revert Hdone.
  unfold ProductSpec.enabled, ProductForm.onFormSubmit, ProductForm.updateAvailability,
    setTimeout.
  simpl. unfold settle. simpl.
  destruct (envs 0 (Fetch _)) as [response|err] eqn:E0; simpl.
  - destruct (ok response) eqn:Eok; simpl.
    + unfold settle. simpl.
      destruct (envs 1 (ReadJson response)) as [result|err] eqn:E1; simpl; intros ->; simpl.
      * split; [reflexivity|]. split; [destruct b; simpl; auto|].
        intros env. unfold settle. simpl. split; [reflexivity|]. split.
        -- intros _. destruct b; simpl; auto.
        -- intros Hnot. exfalso. apply Hnot. exists response, result. auto.
      * split; [reflexivity|]. split; [destruct b; simpl; auto|].
        intros env. unfold settle. simpl. split; [now destruct v as [v|]; [destruct (ProductForm.available v)|]|].
        split.
        -- intros (response' & result & Hr & _ & Hj). injection Hr as <-. congruence.
        -- intros _. destruct v as [v|]; simpl; [|destruct b; simpl; auto].
           destruct (ProductForm.available v); destruct b; reflexivity.
    + intros ->. simpl. split; [reflexivity|]. split; [destruct b; simpl; auto|].
      intros env. unfold settle. simpl. split; [now destruct v as [v|]; [destruct (ProductForm.available v)|]|].
      split.
      * intros (response' & result & Hr & Hok & _). injection Hr as <-. congruence.
      * intros _. destruct v as [v|]; simpl; [|destruct b; simpl; auto].
        destruct (ProductForm.available v); destruct b; reflexivity.
  - intros ->. simpl. split; [reflexivity|]. split; [destruct b; simpl; auto|].
    intros env. unfold settle. simpl. split; [now destruct v as [v|]; [destruct (ProductForm.available v)|]|].
    split.
    + intros (response' & result & Hr & _). discriminate Hr.
    + intros _. destruct v as [v|]; simpl; [|destruct b; simpl; auto].
      destruct (ProductForm.available v); destruct b; reflexivity.
Qed.

(** C7 as the code has it.  The drawer's [addItem], called on a form
    whose submit button it disables, gives the button back on every outcome:
    whatever the network does and in whatever order promises settle, when
    nothing is suspended any more the button is enabled with its text
    restored, and ten settled promises at most bring this about.  The
    product form's submit handler enables the button when its request and the
    reading of the response have settled, in whichever way; what its timer
    does afterwards depends on the outcome: after an add that went through the
    button is enabled, after one that failed the button is set from the
    availability of the current variant, disabled for a variant that cannot be
    bought. *)
Theorem add_to_cart_reenables :
  (forall (pg : CartDrawer.Page) (form : CartDrawer.Form) (b : CartDrawer.SubmitButton),
      CartDrawer.submit_buttons pg !! CartDrawer.form_id form = Some b ->
      let called := exec (CartDrawer.addItem form Done) (idle pg) in
      (forall schedule,
          pending (settle_all schedule called) = [] ->
          restored form (CartDrawer.textContent b)
                   (CartDrawer.submit_buttons (page (settle_all schedule called))))
      /\ (forall envs,
             pending (drain 10 envs called) = []
             /\ restored form (CartDrawer.textContent b)
                         (CartDrawer.submit_buttons (page (drain 10 envs called)))))
  /\ (forall (pg : ProductForm.FormPage) (envs : nat -> Env),
         ProductForm.ajaxCart pg = true ->
         let done := drain 2 envs (exec (ProductForm.onFormSubmit Done) (idle pg)) in
         first_io (pending done) = None
         /\ ProductSpec.enabled (page done)
         /\ (forall env,
                let fired := settle 0 env done in
                pending fired = []
                /\ (ProductSpec.added pg envs -> ProductSpec.enabled (page fired))
                /\ (~ ProductSpec.added pg envs ->
                    match ProductForm.currentVariant pg with
                    | Some v =>
                        (ProductForm.disabled <$> ProductForm.addToCartButton (page fired))
                        = ((fun _ => negb (ProductForm.available v))
                             <$> ProductForm.addToCartButton pg)
                    | None => ProductSpec.enabled (page fired)
                    end))).
Proof.
  split.
  - apply CartFacts.addItem_restores_button.
  - apply onFormSubmit_reenables.
Qed.

Lemma add_to_cart_reenables_witness :
  CartDrawer.submit_buttons page0 !! CartDrawer.form_id form0
  = Some {| CartDrawer.disabled := false; CartDrawer.textContent := "Add to Cart" |}
  /\ restored form0 "Add to Cart"
       (CartDrawer.submit_buttons
          (page (drain 10 (fun _ => offline) (exec (CartDrawer.addItem form0 Done) (idle page0)))))
  /\ ProductForm.ajaxCart ProductSpec.formpage0 = true
  /\ ProductSpec.enabled
       (page (drain 2 (fun _ => offline)
                (exec (ProductForm.onFormSubmit Done) (idle ProductSpec.formpage0))))
  /\ (ProductForm.disabled
         <$> ProductForm.addToCartButton
               (page (settle 0 offline
                        (drain 2 (fun _ => offline)
                           (exec (ProductForm.onFormSubmit Done)
                                 (idle ProductSpec.formpage0))))))
     = Some false.
Proof.
  split; [reflexivity|]. split; [|split; [reflexivity|split]].
  - apply (proj1 add_to_cart_reenables page0 form0
             {| CartDrawer.disabled := false; CartDrawer.textContent := "Add to Cart" |}
             eq_refl).
  - exact (proj1 (proj2 (proj2 add_to_cart_reenables ProductSpec.formpage0
                                (fun _ => offline) eq_refl))).
  - apply (proj2 (proj2 (proj2 (proj2 (proj2 add_to_cart_reenables ProductSpec.formpage0
                                              (fun _ => offline) eq_refl)) offline))).
    intros (response & result & Hr & _). discriminate Hr.
Defined.

(** C7 as stated fails for the product form's handler when the current
    variant cannot be bought and the request fails: the handler enables the
    button, and two seconds later its timer sets it from the variant's
    availability, so that with nothing left to run the button is disabled,
    whether it was disabled before the submit or not. *)
Lemma onFormSubmit_sold_out_ends_disabled :
  let ends (pg : ProductForm.FormPage) :=
    settle 0 offline
      (drain 2 (fun _ => offline) (exec (ProductForm.onFormSubmit Done) (idle pg))) in
  (ProductSpec.enabled (ProductSpec.soldout false)
   /\ pending (ends (ProductSpec.soldout false)) = []
   /\ ~ ProductSpec.enabled (page (ends (ProductSpec.soldout false))))
  /\ (pending (ends (ProductSpec.soldout true)) = []
      /\ ~ ProductSpec.enabled (page (ends (ProductSpec.soldout true)))).
Proof.
  cbv zeta. split; [split; [reflexivity|]|]; (split; [reflexivity|]);
    intros H; vm_compute in H; discriminate H.
Qed.

End AddToCartFacts.

(** ** Client-side storage *)

Module StorageFacts.
Import StorageSpec.

Section WithJson.

Variable JSON : Json.

Lemma includes_strings (l : list string) (handle : string) :
  existsb (is_string handle) (JString <$> l) = true <-> handle ∈ l.
Proof.
  induction l as [|x l IH]; simpl.
  - split; [discriminate | intros H; now apply elem_of_nil in H].
  - rewrite orb_true_iff, IH, elem_of_cons, String.eqb_eq. intuition congruence.
Qed.

Lemma filter_strings (l : list string) (handle : string) :
  List.filter (fun h => negb (is_string handle h)) (JString <$> l)
  = JString <$> without handle l.
Proof.
  unfold without. induction l as [|x l IH]; simpl; [reflexivity|].
  destruct (String.eqb x handle); simpl; [apply IH | f_equal; apply IH].
Qed.

(** With a list of handles stored, [getAll] returns it and changes
    nothing. *)
Lemma Wishlist_getAll_listed (b : Browser) (l : list string) :
  listed JSON Wishlist.STORAGE_KEY b l ->
  Wishlist.getAll JSON b = (Normal (JArray (JString <$> l)), b).
Proof.
  intros [Hr Hl]. unfold Wishlist.getAll, try_, bind, getItem, lift, ret. rewrite Hr.
  destruct (entries (localStorage b) !! Wishlist.STORAGE_KEY) as [data|]; [|now subst].
  destruct (truthy_string data); [now rewrite Hl | now subst].
Qed.

Lemma RecentlyViewed_getAll_listed (b : Browser) (l : list string) :
  listed JSON RecentlyViewed.STORAGE_KEY b l ->
  RecentlyViewed.getAll JSON b = (Normal (JArray (JString <$> l)), b).
Proof.
  intros [Hr Hl]. unfold RecentlyViewed.getAll, try_, bind, getItem, lift, ret. rewrite Hr.
  destruct (entries (localStorage b) !! RecentlyViewed.STORAGE_KEY) as [data|]; [|now subst].
  destruct (truthy_string data); [now rewrite Hl | now subst].
Qed.

Lemma bind_normal {A B : Type} (m : M A) (f : A -> M B) (b b' : Browser) (a : A) :
  m b = (Normal a, b') -> bind m f b = f a b'.
Proof. unfold bind. now intros ->. Qed.

Lemma try_normal {A : Type} (m : M A) (handler : Error -> M A) (b b' : Browser) (a : A) :
  m b = (Normal a, b') -> try_ m handler b = (Normal a, b').
Proof. unfold try_. now intros ->. Qed.

Lemma setItem_written (key value : string) (b : Browser) :
  readable (localStorage b) = true -> writable (localStorage b) = true ->
  setItem key value b = (Normal tt, written key value b).
Proof. intros Hr Hw. unfold setItem, written. rewrite Hr, Hw. reflexivity. Qed.

Lemma listed_written (key : string) (b : Browser) (l : list string) :
  readable (localStorage b) = true ->
  faithful JSON l ->
  listed JSON key (written key (stringify JSON (JArray (JString <$> l))) b) l.
Proof.
  intros Hr [Ht Hp]. split; [exact Hr|]. simpl.
  rewrite lookup_insert_eq, Ht. exact Hp.
Qed.

Lemma evicted_strings (l : list string) (handle : string) :
  ((if (Wishlist.MAX_ITEMS <=? length (JString <$> l))%nat
    then tail (JString <$> l) else JString <$> l) ++ [JString handle])%list
  = JString <$> ((if (Wishlist.MAX_ITEMS <=? length l)%nat then tail l else l) ++ [handle])%list.
Proof.
  rewrite length_fmap, fmap_app.
  destruct (Wishlist.MAX_ITEMS <=? length l)%nat; [|reflexivity].
  now rewrite fmap_tail.
Qed.

(** C8 as the code has it.  A handle that is in the stored list, and the
    empty handle, are refused: [add] returns false and stores nothing.  A
    non-empty handle that is not in the list is appended, after the oldest
    entry has been dropped when the list holds 50 entries or more, so that a
    list of at most 50 stays at most 50; this when the browser takes the
    write.  When it does not, [add] still returns true and the stored list
    is unchanged. *)
Theorem Wishlist_add_evicts (b : Browser) (l : list string) (handle : string) :
  listed JSON Wishlist.STORAGE_KEY b l ->
  (handle ∈ l -> Wishlist.add JSON handle b = (Normal false, b))
  /\ (handle = "" -> Wishlist.add JSON handle b = (Normal false, b))
  /\ (handle <> "" -> handle ∉ l -> writable (localStorage b) = true ->
      let l' := ((if (Wishlist.MAX_ITEMS <=? length l)%nat then tail l else l)
                 ++ [handle])%list in
      faithful JSON l' ->
      exists b',
        Wishlist.add JSON handle b = (Normal true, b')
        /\ listed JSON Wishlist.STORAGE_KEY b' l'
        /\ (length l = Wishlist.MAX_ITEMS ->
            l' = (tail l ++ [handle])%list /\ length l' = Wishlist.MAX_ITEMS)
        /\ (length l <= Wishlist.MAX_ITEMS -> length l' <= Wishlist.MAX_ITEMS))
  /\ (handle <> "" -> handle ∉ l -> writable (localStorage b) = false ->
      exists b',
        Wishlist.add JSON handle b = (Normal true, b')
        /\ localStorage b' = localStorage b).
Proof.
  intros Hl. pose proof (Wishlist_getAll_listed b l Hl) as Hget.
  assert (Hr : readable (localStorage b) = true) by apply Hl.
  split; [|split; [|split]].
  - intros Hin. unfold Wishlist.add.
    destruct (truthy_string handle); [|reflexivity]. cbv beta iota delta [negb].
    rewrite (bind_normal _ _ _ _ _ Hget). unfold lift at 1, bind at 1, includes.
    cbv beta iota.
    apply includes_strings in Hin. now rewrite Hin.
  - intros ->. reflexivity.
  - intros Hne Hnin Hw l' Hf.
    assert (Ht : truthy_string handle = true) by (destruct handle; [contradiction | reflexivity]).
    assert (Hinc : existsb (is_string handle) (JString <$> l) = false).
    { destruct (existsb _ _) eqn:E; [|reflexivity]. now apply includes_strings in E. }
    unfold Wishlist.add. rewrite Ht. cbv beta iota delta [negb].
    rewrite (bind_normal _ _ _ _ _ Hget). unfold lift at 1, bind at 1, includes.
    cbv beta iota.
    rewrite Hinc, evicted_strings. fold l'.
    set (b1 := written Wishlist.STORAGE_KEY (stringify JSON (JArray (JString <$> l'))) b).
    assert (Hl1 : listed JSON Wishlist.STORAGE_KEY b1 l') by now apply listed_written.
    pose proof (Wishlist_getAll_listed b1 l' Hl1) as Hget1.
    assert (Hsave : exists b2,
               Wishlist._save JSON (JArray (JString <$> l')) b = (Normal tt, b2)
               /\ localStorage b2 = localStorage b1).
    { unfold Wishlist._save. eexists. split.
      - apply try_normal.
        rewrite (bind_normal _ _ _ _ _ (setItem_written _ _ b Hr Hw)). fold b1.
        unfold Wishlist._updateCounters, Wishlist.count.
        rewrite (bind_normal _ _ b1 b1 (JNumber (Num (Z.of_nat (length (JString <$> l'))))));
          [|now rewrite (bind_normal _ _ _ _ _ Hget1)].
        unfold get_counters at 1. unfold bind at 1. unfold set_counters. reflexivity.
      - reflexivity. }
    destruct Hsave as (b2 & Hsave & Hst).
    rewrite (bind_normal _ _ _ _ _ Hsave).
    unfold Wishlist._dispatch, dispatchEvent, bind, ret. eexists. split; [reflexivity|].
    split.
    + destruct Hl1 as [Hr1 Hd1]. split; simpl; rewrite Hst; assumption.
    + subst l'. unfold Wishlist.MAX_ITEMS. split.
      * intros Hlen. rewrite Hlen. change (50 <=? 50)%nat with true. cbv iota.
        split; [reflexivity|]. rewrite length_app.
        destruct l; simpl tl; simpl length in *; lia.
      * intros Hlen. destruct (50 <=? length l)%nat eqn:E; rewrite length_app.
        -- clear E. destruct l; simpl tl; simpl length in *; lia.
        -- apply Nat.leb_gt in E. simpl length. lia.
  - intros Hne Hnin Hw.
    assert (Ht : truthy_string handle = true) by (destruct handle; [contradiction | reflexivity]).
    assert (Hinc : existsb (is_string handle) (JString <$> l) = false).
    { destruct (existsb _ _) eqn:E; [|reflexivity]. now apply includes_strings in E. }
    unfold Wishlist.add. rewrite Ht. cbv beta iota delta [negb].
    rewrite (bind_normal _ _ _ _ _ Hget). unfold lift at 1, bind at 1, includes.
    cbv beta iota.
    rewrite Hinc.
    unfold Wishlist._save, try_, bind, setItem, Wishlist._dispatch, dispatchEvent,
      console_log, ret.
    rewrite Hr, Hw. simpl. eexists. split; reflexivity.
Qed.

Lemma without_absent (handle : string) (l : list string) :
  handle ∉ l -> without handle l = l.
Proof.
  unfold without. induction l as [|x l IH]; intros Hn; simpl; [reflexivity|].
  rewrite not_elem_of_cons in Hn. destruct Hn as [Hx Hl].
  destruct (String.eqb_spec x handle) as [->|_]; [contradiction|].
  simpl. now rewrite IH.
Qed.

Lemma without_absent_after (handle : string) (l : list string) : handle ∉ without handle l.
Proof.
  unfold without. intros H. apply list_elem_of_In, List.filter_In in H as [_ H].
  now rewrite String.eqb_refl in H.
Qed.

(** Taking a handle that occurs once out of a list and putting it in
    front rearranges the list. *)
Lemma without_present (handle : string) (l : list string) :
  NoDup l -> handle ∈ l -> handle :: without handle l ≡ₚ l.
Proof.
  induction 1 as [|x l Hx Hl IH]; intros Hin.
  - now apply elem_of_nil in Hin.
  - unfold without in *. simpl.
    destruct (String.eqb_spec x handle) as [->|Hne]; simpl.
    + fold (without handle l). now rewrite without_absent.
    + apply elem_of_cons in Hin as [->|Hin]; [contradiction|].
      rewrite Permutation_swap. now rewrite IH.
Qed.

Lemma recent_strings (l : list string) (handle : string) :
  (if (RecentlyViewed.MAX_ITEMS
       <? length (JString handle
                    :: List.filter (fun h => negb (is_string handle h)) (JString <$> l)))%nat
   then take RecentlyViewed.MAX_ITEMS
             (JString handle :: List.filter (fun h => negb (is_string handle h)) (JString <$> l))
   else JString handle :: List.filter (fun h => negb (is_string handle h)) (JString <$> l))
  = JString <$> take RecentlyViewed.MAX_ITEMS (handle :: without handle l).
Proof.
  rewrite filter_strings.
  change (JString handle :: (JString <$> without handle l))
    with (JString <$> handle :: without handle l).
  rewrite length_fmap, fmap_take.
  destruct (RecentlyViewed.MAX_ITEMS <? length (handle :: without handle l))%nat eqn:E;
    [reflexivity|].
  apply Nat.ltb_ge in E. rewrite take_ge by (rewrite length_fmap; exact E). reflexivity.
Qed.

(** C9 as the code has it.  [add] stores the handle followed by the
    stored entries other than the handle, in their order, cut to 12 entries:
    the stored list afterwards begins with the handle and has at most 12
    entries.  When the handle was in a stored list without duplicates and of
    at most 12 entries, that is the same entries rearranged: the handle
    moved to the front, none duplicated, the count unchanged.  This when the
    handle is not empty and the browser takes the write; the empty handle is
    ignored, and a write the browser refuses leaves the stored list as it
    was. *)
Theorem RecentlyViewed_add_moves_to_front (b : Browser) (l : list string) (handle : string) :
  listed JSON RecentlyViewed.STORAGE_KEY b l ->
  let l' := take RecentlyViewed.MAX_ITEMS (handle :: without handle l) in
  (handle = "" -> RecentlyViewed.add JSON handle b = (Normal tt, b))
  /\ (handle <> "" -> writable (localStorage b) = false ->
      exists b',
        RecentlyViewed.add JSON handle b = (Normal tt, b')
        /\ localStorage b' = localStorage b)
  /\ (handle <> "" -> writable (localStorage b) = true -> faithful JSON l' ->
      exists b',
        RecentlyViewed.add JSON handle b = (Normal tt, b')
        /\ listed JSON RecentlyViewed.STORAGE_KEY b' l'
        /\ head l' = Some handle
        /\ length l' <= RecentlyViewed.MAX_ITEMS
        /\ (handle ∈ l -> NoDup l -> length l <= RecentlyViewed.MAX_ITEMS ->
            l' = handle :: without handle l
            /\ l' ≡ₚ l /\ NoDup l' /\ length l' = length l)).
Proof.
  intros Hl l'. pose proof (RecentlyViewed_getAll_listed b l Hl) as Hget.
  assert (Hr : readable (localStorage b) = true) by apply Hl.
  split; [|split].
  - intros ->. reflexivity.
  - intros Hne Hw.
    assert (Ht : truthy_string handle = true) by (destruct handle; [contradiction | reflexivity]).
    unfold RecentlyViewed.add. rewrite Ht. cbv beta iota delta [negb].
    rewrite (bind_normal _ _ _ _ _ Hget). cbv beta iota.
    unfold RecentlyViewed._save, try_, setItem, console_log. rewrite Hr, Hw.
    cbv beta iota delta [negb]. eexists. split; reflexivity.
  - intros Hne Hw Hf.
    assert (Ht : truthy_string handle = true) by (destruct handle; [contradiction | reflexivity]).
    unfold RecentlyViewed.add. rewrite Ht. cbv beta iota delta [negb].
    rewrite (bind_normal _ _ _ _ _ Hget). cbv beta iota zeta.
    rewrite recent_strings. fold l'.
    unfold RecentlyViewed._save.
    rewrite (try_normal _ _ _ _ _ (setItem_written _ _ b Hr Hw)).
    eexists. split; [reflexivity|].
    split; [now apply listed_written|].
    split; [reflexivity|].
    split; [subst l'; rewrite length_take; lia|].
    intros Hin Hnd Hlen.
    pose proof (without_present handle l Hnd Hin) as Hperm.
    assert (Hsame : length (handle :: without handle l) = length l) by now rewrite Hperm.
    assert (Heq : l' = handle :: without handle l).
    { subst l'. apply take_ge. rewrite Hsame. exact Hlen. }
    rewrite Heq. split; [reflexivity|]. split; [exact Hperm|].
    split; [now rewrite Hperm | exact Hsame].
Qed.

(** What [add] stores has no duplicates when the stored list had none. *)
Lemma RecentlyViewed_add_invariant (l : list string) (handle : string) :
  NoDup l ->
  NoDup (take RecentlyViewed.MAX_ITEMS (handle :: without handle l)).
Proof.
  intros Hnd. eapply sublist_NoDup; [|apply sublist_take].
  apply NoDup_cons. split.
  - apply without_absent_after.
  - unfold without. apply NoDup_ListNoDup, List.NoDup_filter. now apply NoDup_ListNoDup.
Qed.

End WithJson.

(** *** The read accessors *)

Section Accessors.

Variable JSON : Json.

(** The shape the three accessors share: the text under a key, parsed
    when it is not empty, with a default for no text and for any throw. *)
Lemma accessor_safe (key : string) (fallback : JsValue) (handler : Error -> M JsValue)
    (b : Browser) :
  (forall e b0, exists b1, handler e b0 = (Normal fallback, b1)
                           /\ localStorage b1 = localStorage b0) ->
  let read :=
    try_ (let! data := getItem key in
          match data with
          | Some data => if truthy_string data then lift (parse JSON data) else ret fallback
          | None => ret fallback
          end) handler in
  (exists v b', read b = (Normal v, b') /\ localStorage b' = localStorage b)
  /\ (unusable JSON key b -> fst (read b) = Normal fallback).
Proof.
  intros Hh. cbv zeta. unfold try_, bind, getItem, lift, ret.
  destruct (readable (localStorage b)) eqn:Hr.
  - destruct (entries (localStorage b) !! key) as [data|] eqn:Hd.
    + destruct (truthy_string data) eqn:Ht.
      * destruct (parse JSON data) as [v|e] eqn:Hp.
        -- split; [eauto|]. intros Hu. unfold unusable in Hu. rewrite Hr, Hd in Hu.
           destruct Hu as [Hu|[Hu|[e He]]]; [discriminate | now subst | congruence].
        -- destruct (Hh e b) as (b1 & H1 & H2). rewrite H1. split; [eauto|]. reflexivity.
      * split; [eauto|]. reflexivity.
    + split; [eauto|]. reflexivity.
  - match goal with |- context [handler ?e b] => destruct (Hh e b) as (b1 & H1 & H2) end.
    rewrite H1. split; [eauto|]. reflexivity.
Qed.

(** Text that parses is returned as parsed, whatever value it is. *)
Lemma accessor_parsed (key : string) (fallback : JsValue) (handler : Error -> M JsValue)
    (b : Browser) (data : string) (v : JsValue) :
  readable (localStorage b) = true ->
  entries (localStorage b) !! key = Some data ->
  truthy_string data = true ->
  parse JSON data = Normal v ->
  try_ (let! data := getItem key in
        match data with
        | Some data => if truthy_string data then lift (parse JSON data) else ret fallback
        | None => ret fallback
        end) handler b
  = (Normal v, b).
Proof.
  intros Hr Hd Ht Hp. unfold try_, bind, getItem, lift. now rewrite Hr, Hd, Ht, Hp.
Qed.

(** C10. Whatever the storage holds, the read accessors end with a value
    and never with a thrown error, and leave the storage as it is.  When the
    storage cannot be read, holds nothing or the empty text under the key, or
    holds text that does not parse, the value is the default: the empty list
    for [Wishlist.getAll] and [RecentlyViewed.getAll], the record of three
    refusals for [CookieConsent.getConsent]. *)
Theorem read_accessors_safe (b : Browser) :
  ((exists v b', Wishlist.getAll JSON b = (Normal v, b')
                 /\ localStorage b' = localStorage b)
   /\ (unusable JSON Wishlist.STORAGE_KEY b ->
       fst (Wishlist.getAll JSON b) = Normal (JArray [])))
  /\ ((exists v b', RecentlyViewed.getAll JSON b = (Normal v, b')
                    /\ localStorage b' = localStorage b)
      /\ (unusable JSON RecentlyViewed.STORAGE_KEY b ->
          fst (RecentlyViewed.getAll JSON b) = Normal (JArray [])))
  /\ ((exists v b', CookieConsent.getConsent JSON b = (Normal v, b')
                    /\ localStorage b' = localStorage b)
      /\ (unusable JSON (CookieConsent.STORAGE_KEY ++ "_details") b ->
          fst (CookieConsent.getConsent JSON b) = Normal CookieConsent.no_consent)).
Proof.
  split; [|split].
  - apply (accessor_safe Wishlist.STORAGE_KEY (JArray [])).
    intros e b0. eexists. split; reflexivity.
  - apply (accessor_safe RecentlyViewed.STORAGE_KEY (JArray [])).
    intros e b0. eexists. split; reflexivity.
  - apply (accessor_safe (CookieConsent.STORAGE_KEY ++ "_details") CookieConsent.no_consent).
    intros e b0. eexists. split; reflexivity.
Qed.

End Accessors.

Lemma read_accessors_safe_witness :
  unusable MiniJson.JSON Wishlist.STORAGE_KEY (garbled "{oops")
  /\ fst (Wishlist.getAll MiniJson.JSON (garbled "{oops")) = Normal (JArray [])
  /\ fst (RecentlyViewed.getAll MiniJson.JSON (garbled "[1,")) = Normal (JArray [])
  /\ fst (CookieConsent.getConsent MiniJson.JSON (garbled "")) = Normal CookieConsent.no_consent.
Proof.
  assert (H1 : unusable MiniJson.JSON Wishlist.STORAGE_KEY (garbled "{oops")).
  { right. vm_compute. right. eexists. reflexivity. }
  split; [exact H1|]. split; [|split].
  - apply (proj2 (proj1 (read_accessors_safe MiniJson.JSON (garbled "{oops")))). exact H1.
  - apply (proj2 (proj1 (proj2 (read_accessors_safe MiniJson.JSON (garbled "[1,"))))).
    right. vm_compute. right. eexists. reflexivity.
  - apply (proj2 (proj2 (proj2 (read_accessors_safe MiniJson.JSON (garbled ""))))).
    right. vm_compute. left. reflexivity.
Defined.

(** *** Examples *)

Lemma not_in_decide (x : string) (l : list string) : bool_decide (x ∈ l) = false -> x ∉ l.
Proof. apply bool_decide_eq_false_1. Qed.

Lemma in_decide (x : string) (l : list string) : bool_decide (x ∈ l) = true -> x ∈ l.
Proof. apply bool_decide_eq_true_1. Qed.

Lemma fifty_listed (can_write : bool) :
  listed MiniJson.JSON Wishlist.STORAGE_KEY (holding Wishlist.STORAGE_KEY fifty can_write) fifty.
Proof. split; [reflexivity|]. vm_compute. reflexivity. Qed.

Lemma Wishlist_add_evicts_witness :
  listed MiniJson.JSON Wishlist.STORAGE_KEY (holding Wishlist.STORAGE_KEY fifty true) fifty
  /\ "p51" <> ""
  /\ ("p51" ∉ fifty)
  /\ faithful MiniJson.JSON (tail fifty ++ ["p51"])%list
  /\ exists b',
      Wishlist.add MiniJson.JSON "p51" (holding Wishlist.STORAGE_KEY fifty true)
      = (Normal true, b')
      /\ listed MiniJson.JSON Wishlist.STORAGE_KEY b' (tail fifty ++ ["p51"])%list.
Proof.
  assert (Hnin : "p51" ∉ fifty) by (apply not_in_decide; vm_compute; reflexivity).
  assert (Hf : faithful MiniJson.JSON (tail fifty ++ ["p51"])%list)
    by (split; vm_compute; reflexivity).
  split; [apply fifty_listed|]. split; [discriminate|]. split; [exact Hnin|].
  split; [exact Hf|].
  destruct (proj1 (proj2 (proj2 (Wishlist_add_evicts MiniJson.JSON
                                   (holding Wishlist.STORAGE_KEY fifty true) fifty "p51"
                                   (fifty_listed true))))
              ltac:(discriminate) Hnin eq_refl Hf)
    as (b' & Hadd & Hlisted & _).
  exists b'. split; assumption.
Defined.

(** C8 as stated fails for the empty handle: it is not in a stored list of
    50 handles, and [add] neither drops the oldest entry nor appends it; and
    for a browser that refuses the write: [add] returns true and the text
    stored is the one that was there. *)
Lemma Wishlist_add_not_always_evicting :
  let b := holding Wishlist.STORAGE_KEY fifty true in
  let full := holding Wishlist.STORAGE_KEY fifty false in
  (listed MiniJson.JSON Wishlist.STORAGE_KEY b fifty
   /\ length fifty = 50 /\ ("" ∉ fifty)
   /\ Wishlist.add MiniJson.JSON "" b = (Normal false, b))
  /\ (("p51" ∉ fifty)
      /\ fst (Wishlist.add MiniJson.JSON "p51" full) = Normal true
      /\ text_at Wishlist.STORAGE_KEY (snd (Wishlist.add MiniJson.JSON "p51" full))
         = text_at Wishlist.STORAGE_KEY full).
Proof.
  cbv zeta. split.
  - split; [apply fifty_listed|]. split; [reflexivity|].
    split; [apply not_in_decide; vm_compute; reflexivity | reflexivity].
  - split; [apply not_in_decide; vm_compute; reflexivity|].
    split; vm_compute; reflexivity.
Qed.

Lemma RecentlyViewed_add_moves_to_front_witness :
  listed MiniJson.JSON RecentlyViewed.STORAGE_KEY
         (holding RecentlyViewed.STORAGE_KEY ["a"; "b"; "c"] true) ["a"; "b"; "c"]
  /\ exists b',
      RecentlyViewed.add MiniJson.JSON "c"
        (holding RecentlyViewed.STORAGE_KEY ["a"; "b"; "c"] true) = (Normal tt, b')
      /\ listed MiniJson.JSON RecentlyViewed.STORAGE_KEY b' ["c"; "a"; "b"].
Proof.
  assert (Hl : listed MiniJson.JSON RecentlyViewed.STORAGE_KEY
                      (holding RecentlyViewed.STORAGE_KEY ["a"; "b"; "c"] true) ["a"; "b"; "c"])
    by (split; [reflexivity | vm_compute; reflexivity]).
  split; [exact Hl|].
  destruct (proj2 (proj2 (RecentlyViewed_add_moves_to_front MiniJson.JSON _ _ "c" Hl))
              ltac:(discriminate) eq_refl ltac:(split; vm_compute; reflexivity))
    as (b' & Hadd & Hlisted & _).
  exists b'. split; assumption.
Defined.

(** C9 as stated fails in four ways: a browser that refuses the write
    keeps the stored list as it was, the handle not at the front; a handle
    stored twice is stored once afterwards, so the count changes; of 13
    stored entries 12 are left; and adding the empty handle leaves 13 stored
    entries as they are, more than 12. *)
Lemma RecentlyViewed_add_not_always_moving :
  (let b := holding RecentlyViewed.STORAGE_KEY ["a"; "b"] false in
   listed MiniJson.JSON RecentlyViewed.STORAGE_KEY b ["a"; "b"]
   /\ listed MiniJson.JSON RecentlyViewed.STORAGE_KEY
             (snd (RecentlyViewed.add MiniJson.JSON "b" b)) ["a"; "b"])
  /\ (let b := holding RecentlyViewed.STORAGE_KEY ["a"; "b"; "a"] true in
      listed MiniJson.JSON RecentlyViewed.STORAGE_KEY b ["a"; "b"; "a"]
      /\ listed MiniJson.JSON RecentlyViewed.STORAGE_KEY
                (snd (RecentlyViewed.add MiniJson.JSON "a" b)) ["a"; "b"])
  /\ (let b := holding RecentlyViewed.STORAGE_KEY (take 13 fifty) true in
      listed MiniJson.JSON RecentlyViewed.STORAGE_KEY b (take 13 fifty)
      /\ ("p13" ∈ take 13 fifty)
      /\ listed MiniJson.JSON RecentlyViewed.STORAGE_KEY
                (snd (RecentlyViewed.add MiniJson.JSON "p13" b)) ("p13" :: take 11 fifty)
      /\ listed MiniJson.JSON RecentlyViewed.STORAGE_KEY
                (snd (RecentlyViewed.add MiniJson.JSON "" b)) (take 13 fifty)
      /\ length (take 13 fifty) = 13).
Proof.
  cbv zeta. repeat split; try (vm_compute; reflexivity).
  apply in_decide. vm_compute. reflexivity.
Qed.

End StorageFacts.

(** ** The product page: options, quantity, image and URL *)

Module ProductPageFacts.
Import ProductForm ProductSpec.






Lemma quantityInput_updateQuantity (pg : ProductPage) (value : string) (change : Z) :
  quantityInput pg = Some value ->
  quantityInput (updateQuantity change pg)
  = Some (string_of_Z
            (Z.max 1 (match parseInt value None with
                      | Num q => if (q =? 0)%Z then 1 else q
                      | NaN => 1
                      end + change))).
Proof.
  intros Hq. unfold updateQuantity. rewrite Hq.
  destruct (parseInt value None) as [|q]; simpl.
  - now destruct pg.
  - destruct (q =? 0)%Z; simpl; now destruct pg.
Qed.

(** X3.  On a page with the quantity input, [updateQuantity] leaves in
    it a whole number of at least 1, written so that [parseInt] reads it
    back: the value read plus the change, or 1 when that is smaller.  A value
    that does not read as a number, or reads as 0, counts as 1; a value that
    is a number in decimal, with or without white space before it, reads as
    that number.  One step up and then one step down give back a quantity of
    at least 1.  The value read, the change and their sum are safe
    integers. *)
Theorem updateQuantity_at_least_one (pg : ProductPage) (value : string) (change : Z) :
  quantityInput pg = Some value ->
  let current := match parseInt value None with
                 | Num q => if (q =? 0)%Z then 1%Z else q
                 | NaN => 1%Z
                 end in
  safe current -> safe change -> safe (current + change) ->
  exists n : Z,
    quantityInput (updateQuantity change pg) = Some (string_of_Z n)
    /\ (1 <= n)%Z
    /\ safe n
    /\ parseInt (string_of_Z n) None = Num n
    /\ n = Z.max 1 (current + change)
    /\ (forall ws q, blank ws -> value = ws ++ string_of_Z q -> q <> 0%Z -> current = q)
    /\ (value = "" \/ value = "0" -> current = 1%Z)
    /\ (change = 1%Z -> (1 <= current)%Z ->
        quantityInput (updateQuantity (-1) (updateQuantity change pg))
        = Some (string_of_Z current)).
Proof.
  intros Hq current Hc Hd Hs.
  rewrite (quantityInput_updateQuantity pg value change Hq). fold current.
  exists (Z.max 1 (current + change)). split; [reflexivity|]. split; [lia|].
  split; [unfold safe in *; lia|].
  split; [apply parseInt_string_of_Z; now left|].
  split; [reflexivity|]. split; [|split].
  - intros ws q Hws -> Hne. subst current.
    rewrite parseInt_blank_string_of_Z by (assumption || now left).
    destruct (Z.eqb_spec q 0); [contradiction | reflexivity].
  - intros [-> | ->]; reflexivity.
  - intros -> Hge.
    rewrite (quantityInput_updateQuantity _ _ (-1) (quantityInput_updateQuantity pg value 1 Hq)).
    fold current. rewrite parseInt_string_of_Z by now left.
    destruct (Z.eqb_spec (Z.max 1 (current + 1)) 0); [lia|]. f_equal. f_equal. lia.
Qed.

Lemma updateQuantity_at_least_one_witness :
  quantityInput productpage0 = Some "1"
  /\ safe 1 /\ safe (-1) /\ safe (1 + -1)
  /\ exists n, quantityInput (updateQuantity (-1) productpage0) = Some (string_of_Z n)
               /\ (1 <= n)%Z.
Proof.
  assert (H1 : safe 1) by (split; reflexivity).
  assert (H2 : safe (-1)) by (split; reflexivity).
  assert (H3 : safe (1 + -1)) by (split; reflexivity).
  split; [reflexivity|]. split; [exact H1|]. split; [exact H2|]. split; [exact H3|].
  destruct (updateQuantity_at_least_one productpage0 "1" (-1) eq_refl H1 H2 H3)
    as (n & Hn & Hge & _).
  exists n. split; assumption.
Defined.









Lemma replace_extension_no_dot (s : string) :
  has_dot s = false -> replace_extension s = s.
Proof.
  induction s as [|c s IH]; simpl; [reflexivity|].
  intros H. apply orb_false_iff in H as [Hc Hs]. rewrite Hc. simpl. now rewrite IH.
Qed.

Lemma replace_extension_last_dot (stem ext : string) :
  has_dot ext = false ->
  replace_extension (stem ++ String "." ext) = stem ++ "_800x" ++ String "." ext.
Proof.
  intros Hext. induction stem as [|c stem IH]; simpl.
  - now rewrite Hext.
  - rewrite IH.
    assert (Hd : has_dot (stem ++ String "." ext) = true).
    { clear IH. induction stem as [|c' stem IH]; simpl; [reflexivity|].
      rewrite IH. apply orb_true_r. }
    rewrite Hd. simpl. now rewrite andb_false_r.
Qed.

(** X4.  When the page has the main image and the variant a featured
    image, [updateImage] sets the source to the featured image's with the
    size suffix put before its last dot, leaves a source without a dot as it
    is, and sets the alternative text to the featured image's, or to the
    product's title when the image has none or an empty one. *)
Theorem updateImage_sizes_source (pg : ProductPage) (v : Variant) (image : Image)
    (old : MainImage) :
  mainImage pg = Some old -> featured_image v = Some image ->
  exists new,
    mainImage (updateImage v pg) = Some new
    /\ (forall stem ext,
           src image = stem ++ String "." ext -> has_dot ext = false ->
           image_src new = stem ++ "_800x" ++ String "." ext)
    /\ (has_dot (src image) = false -> image_src new = src image)
    /\ image_alt new = (if truthy_opt (alt image) then default "" (alt image) else title pg).
Proof.
  intros Hm Hf. unfold updateImage. rewrite Hm, Hf.
  eexists. split; [destruct pg; reflexivity|]. simpl. split; [|split].
  - intros stem ext -> Hext. now apply replace_extension_last_dot.
  - apply replace_extension_no_dot.
  - destruct (alt image) as [a|]; simpl; [destruct (truthy_string a)|]; destruct pg; reflexivity.
Qed.

(** *** Examples *)

Lemma updateImage_sizes_source_witness :
  mainImage productpage0 = Some {| image_src := "shirt_800x.jpg"; image_alt := "Linen Shirt" |}
  /\ featured_image pictured = Some {| src := "//cdn.shop/files/shirt.l.jpg"; alt := None |}
  /\ mainImage (updateImage pictured productpage0)
     = Some {| image_src := "//cdn.shop/files/shirt.l_800x.jpg"; image_alt := "Linen Shirt" |}.
Proof.
  split; [reflexivity|]. split; [reflexivity|].
  destruct (updateImage_sizes_source productpage0 pictured _ _ eq_refl eq_refl)
    as (new & Hnew & Hsrc & _ & Halt).
  rewrite Hnew. f_equal.
  specialize (Hsrc "//cdn.shop/files/shirt.l" "jpg" eq_refl eq_refl).
  destruct new as [s a]. simpl in *. now subst.
Defined.

End ProductPageFacts.

(** ** Functions that leave no error uncaught *)

Section UncaughtFacts.

Context {Page : Type}.
Implicit Types (p q : Proc Page) (s : Loop Page) (t : Task Page).

Lemma never_throws_calls p : never_throws p -> calls_never_throw p.
Proof. induction p; simpl; intros; intuition auto. Qed.


(** A handler that never throws makes the whole [try] never throw,
    whatever its body throws, as long as what the body calls without
    awaiting never throws. *)
Lemma never_throws_try_catch p (handler : Error -> Proc Page) :
  calls_never_throw p -> (forall e, never_throws (handler e)) ->
  never_throws (try_catch p handler).
Proof. induction p; simpl; intros; intuition auto. Qed.

Lemma never_throws_try_finally p fin :
  never_throws p -> never_throws fin -> never_throws (try_finally p fin).
Proof. induction p; simpl; intros; intuition auto. Qed.




Lemma settle_keeps {B : Type} (g : Page -> B) (i : nat) (env : Env) s :
  Forall (task_keeps g) (pending s) ->
  g (page (settle i env s)) = g (page s) /\ Forall (task_keeps g) (pending (settle i env s)).
Proof.
  intros Hs. unfold settle. destruct (pending s !! i) as [t|] eqn:Ht; [|now split].
  assert (Hk : task_keeps g t).
  { rewrite Forall_forall in Hs. apply Hs. eapply list_elem_of_lookup_2, Ht. }
  destruct (exec_keeps g (resume t (env (op t)))
              {| page := page s; pending := delete i (pending s); sent := sent s;
                 unhandled := unhandled s |} (Hk _)) as (Hg & ts & H1 & H2).
  split; [exact Hg|]. rewrite H1. simpl. apply Forall_app. split; [|assumption].
  now apply Forall_delete.
Qed.

(** A part of the page that no suspended function writes stays as it
    is. *)
Lemma settle_all_keeps {B : Type} (g : Page -> B) (schedule : list (nat * Env)) s :
  Forall (task_keeps g) (pending s) ->
  g (page (settle_all schedule s)) = g (page s).
Proof.
  revert s. induction schedule as [|[i env] schedule IH]; intros s Hs; [reflexivity|].
  destruct (settle_keeps g i env s Hs) as (Hg & Hp).
  unfold settle_all in *. simpl. now rewrite (IH _ Hp).
Qed.

(** Functions that only wait for the network are all done when [drain]
    has settled as many promises as they can await. *)
Lemma drain_completes (n : nat) (envs : nat -> Env) s (ws : list nat) :
  Forall2 task_within (pending s) ws -> sum_list ws <= n ->
  Forall (fun t => is_timer (op t) = false) (pending s) ->
  Forall (task_awaits (fun o => is_timer o = false)) (pending s) ->
  pending (drain n envs s) = [].
Proof.
  intros Hws Hsum Hop Haw. apply no_task_left.
  - now apply (drain_within n envs _ _ Hws).
  - destruct (drain_schedule n envs s) as (sch & ->).
    now apply (settle_all_awaits (fun o => is_timer o = false) sch).
Qed.

Lemma exec_completes (n : nat) p (pg : Page) (envs : nat -> Env) :
  within n p -> awaits (fun o => is_timer o = false) p ->
  pending (drain n envs (exec p (idle pg))) = [].
Proof.
  intros Hw Ha.
  destruct (exec_within n p (idle pg) [] Hw) as (ws & Hws & Hsum); [constructor|].
  destruct (exec_awaits (fun o => is_timer o = false) p (idle pg) Ha)
    as (ts & rs & H1 & _ & H3 & _).
  apply (drain_completes n envs _ _ Hws Hsum).
  - rewrite H1. eapply List.Forall_impl; [|exact H3]. now intros a [Ha' _].
  - rewrite H1. eapply List.Forall_impl; [|exact H3]. now intros a [_ Ha'].
Qed.

(** What follows a function that always returns and leaves [g] alone
    establishes what it establishes. *)
Lemma establishes_after {B : Type} (g : Page -> B) (Q : B -> Prop) p q :
  keeps g p -> never_throws p -> establishes g Q q -> establishes g Q (and_then p q).
Proof. induction p; simpl; intros; intuition auto. Qed.

End UncaughtFacts.

(** ** The cart drawer: opening, loading state and count badges *)

Module DrawerFacts.
Import CartDrawer CartSpec.
Import CartFacts.





(** Writes that are not [set_shown] leave the drawer's appearance and
    the [isOpen] flag alone. *)
Ltac unchanged :=
  match goal with
  | |- _ = appearance ?pg => destruct pg; reflexivity
  | |- _ = isOpen ?pg => destruct pg; reflexivity
  | |- _ = is_loading ?pg => destruct pg; reflexivity
  | |- appearance _ = appearance ?pg => destruct pg; simpl; destruct (contents _); reflexivity
  end.

Lemma refresh_keeps_appearance (k : Proc Page) :
  keeps appearance k -> keeps appearance (refresh k).
Proof.
  intros Hk. unfold refresh. apply keeps_and_then; [|exact Hk].
  apply keeps_try_catch.
  - unfold updateCount, with_routes. walk_with ltac:(idtac; unchanged).
  - walk_with ltac:(idtac; unchanged).
Qed.

Lemma refresh_keeps_isOpen (k : Proc Page) :
  keeps isOpen k -> keeps isOpen (refresh k).
Proof.
  intros Hk. unfold refresh. apply keeps_and_then; [|exact Hk].
  apply keeps_try_catch.
  - unfold updateCount, with_routes. walk_with ltac:(idtac; unchanged).
  - walk_with ltac:(idtac; unchanged).
Qed.

Lemma refresh_within (n : nat) (k : Proc Page) : within n k -> within (4 + n) (refresh k).
Proof.
  intros Hk. unfold refresh. apply (within_and_then 4 n); [|exact Hk].
  apply (within_try_catch 4 0); [|intros e; exact I].
  unfold updateCount, with_routes.
  walk_with ltac:(idtac; first [exists 2, 0 | lia]).
Qed.

Lemma refresh_no_timer (k : Proc Page) :
  awaits (fun o => is_timer o = false) k -> awaits (fun o => is_timer o = false) (refresh k).
Proof.
  intros Hk. unfold refresh. apply awaits_and_then; [|exact Hk].
  apply awaits_try_catch; [|intros e; exact I].
  unfold updateCount, with_routes. walk.
Qed.

Lemma set_shown_shown (pg : Page) : shown (appearance (set_shown true pg)).
Proof. destruct pg as [a b c [d|] e f g h i j k l]; repeat split; discriminate. Qed.

Lemma open_establishes_shown :
  establishes appearance shown (refresh (Act (set_shown true) Done)).
Proof.
  unfold refresh. apply establishes_after.
  - apply keeps_try_catch.
    + unfold updateCount, with_routes. walk_with ltac:(idtac; unchanged).
    + walk_with ltac:(idtac; unchanged).
  - apply never_throws_try_catch; [|intros e; exact I].
    unfold updateCount, with_routes. walk.
  - right. split; [apply set_shown_shown | exact I].
Qed.

Lemma open_keeps_isOpen : keeps isOpen (refresh (Act (set_shown true) Done)).
Proof.
  apply refresh_keeps_isOpen. split; [|exact I]. intros pg. now destruct pg.
Qed.

(** The steps of [open] on a closed drawer, after it has looked at the
    flag. *)
Lemma exec_open (s : Loop Page) :
  isOpen (page s) = false ->
  exec (open Done) s = exec (Act (set_isOpen true) (refresh (Act (set_shown true) Done))) s.
Proof. intros Hc. unfold open. now rewrite exec_Read, Hc. Qed.

Lemma open_within : within 4 (refresh (Act (set_shown true) Done)).
Proof. apply (refresh_within 0). exact I. Qed.

Lemma open_no_timer :
  awaits (fun o => is_timer o = false) (refresh (Act (set_shown true) Done)).
Proof. apply refresh_no_timer. exact I. Qed.

(** A call of [open] on a closed drawer: the state it leaves, in terms of
    a drawer page with the flag set. *)
Lemma open_called (pg : Page) :
  isOpen pg = false ->
  let called := exec (open Done) (idle pg) in
  isOpen (page called) = true
  /\ appearance (page called) = appearance pg
  /\ sent called = [refresh_request (routes pg)]
  /\ unhandled called = []
  /\ (exists t, pending called = [t] /\ task_establishes appearance shown t)
  /\ Forall (task_keeps isOpen) (pending called)
  /\ (exists ws, Forall2 task_within (pending called) ws /\ sum_list ws <= 4)
  /\ Forall (fun t => is_timer (op t) = false) (pending called)
  /\ Forall (task_awaits (fun o => is_timer o = false)) (pending called).
Proof.
  intros Hc. cbv zeta. rewrite (exec_open (idle pg)) by exact Hc.
  set (s0 := {| page := set_isOpen true pg; pending := []; sent := []; unhandled := [] |}).
  change (exec (Act (set_isOpen true) (refresh (Act (set_shown true) Done))) (idle pg))
    with (exec (refresh (Act (set_shown true) Done)) s0).
  destruct (exec_keeps isOpen _ s0 open_keeps_isOpen) as (Hg & ts & H1 & H2).
  split; [rewrite Hg; subst s0; now destruct pg|].
  split.
  { unfold refresh, with_routes. simpl. now destruct pg. }
  split.
  { unfold refresh, with_routes. simpl. now destruct pg. }
  split.
  { unfold refresh, with_routes. reflexivity. }
  split.
  { unfold refresh, with_routes. simpl. eexists. split; [reflexivity|].
    intros x. simpl. apply establishes_after.
    - apply keeps_try_catch; [|walk_with ltac:(idtac; unchanged)].
      unfold updateCount, with_routes. walk_with ltac:(idtac; unchanged).
    - apply never_throws_try_catch; [|intros e; exact I].
      unfold updateCount, with_routes. walk.
    - right. split; [apply set_shown_shown | exact I]. }
  split; [rewrite H1; exact H2|].
  split; [apply (exec_within 4 _ s0 [] open_within); constructor|].
  destruct (exec_awaits (fun o => is_timer o = false) _ s0 open_no_timer)
    as (ts' & rs & H3 & _ & H4 & _).
  rewrite H3. split; (eapply List.Forall_impl; [|exact H4]); now intros a [Ha Hb].
Qed.

(** X6.  [open] on a closed drawer sets the flag at once and sends the
    one request of [refresh], the drawer looking as before; an [open]
    called again right away does nothing.  However the awaited promises
    settle, the flag stays set, and once they have all settled the drawer is
    shown; four settled promises are enough. *)
Theorem open_ends_shown (pg : Page) :
  isOpen pg = false ->
  let called := exec (open Done) (idle pg) in
  isOpen (page called) = true
  /\ appearance (page called) = appearance pg
  /\ sent called = [refresh_request (routes pg)]
  /\ exec (open Done) called = called
  /\ (forall schedule,
         let s := settle_all schedule called in
         isOpen (page s) = true /\ (pending s = [] -> shown (appearance (page s))))
  /\ (forall envs, pending (drain 4 envs called) = []).
Proof.
  intros Hc. cbv zeta.
  destruct (open_called pg Hc)
    as (Ho & Ha & Hs & _ & (t & Hp & He) & Hk & (ws & Hws & Hsum) & Ht & Haw).
  assert (Hon : on_course appearance shown (exec (open Done) (idle pg))).
  { unfold on_course. rewrite Hp. split; [|left]; constructor; auto. }
  split; [exact Ho|]. split; [exact Ha|]. split; [exact Hs|].
  split; [unfold open at 1; now rewrite exec_Read, Ho|].
  split.
  - intros schedule. split.
    + now rewrite (settle_all_keeps isOpen schedule _ Hk).
    + apply on_course_idle. now apply settle_all_on_course.
  - intros envs. now apply (drain_completes 4 envs _ ws).
Qed.

Lemma open_ends_shown_witness :
  isOpen closed0 = false
  /\ shown (appearance (page (drain 4 (fun _ => offline) (exec (open Done) (idle closed0))))).
Proof.
  split; [reflexivity|].
  destruct (open_ends_shown closed0 eq_refl) as (_ & _ & _ & _ & Hsch & Hdrain).
  destruct (drain_schedule 4 (fun _ => offline) (exec (open Done) (idle closed0)))
    as (schedule & Heq).
  rewrite Heq. apply (Hsch schedule). rewrite <- Heq. apply Hdrain.
Defined.

(** X7.  The second of two clicks on the cart icon finds the flag set by
    the first and closes the drawer; the first click's [open] is still
    waiting for its refresh and shows the drawer when that settles.  So the
    drawer ends up shown with the flag saying closed, and [close] does
    nothing on it. *)
Theorem toggle_twice_leaves_drawer_shown (pg : Page) :
  isOpen pg = false ->
  let clicked := run [Call (toggle Done); Call (toggle Done)] (idle pg) in
  sent clicked = [refresh_request (routes pg)]
  /\ isOpen (page clicked) = false
  /\ (forall schedule,
         let s := settle_all schedule clicked in
         isOpen (page s) = false
         /\ (pending s = [] -> shown (appearance (page s)) /\ close (page s) = page s))
  /\ (forall envs, pending (drain 4 envs clicked) = []).
Proof.
  intros Hc. cbv zeta.
  destruct (open_called pg Hc)
    as (Ho & Ha & Hs & _ & (t & Hp & He) & Hk & (ws & Hws & Hsum) & Ht & Haw).
  assert (H1 : exec (toggle Done) (idle pg) = exec (open Done) (idle pg)).
  { unfold toggle. rewrite exec_Read. change (page (idle pg)) with pg. now rewrite Hc. }
  set (called := exec (open Done) (idle pg)) in *.
  assert (H2 : run [Call (toggle Done); Call (toggle Done)] (idle pg)
               = {| page := close (page called); pending := pending called;
                    sent := sent called; unhandled := unhandled called |}).
  { change (run [Call (toggle Done); Call (toggle Done)] (idle pg))
      with (exec (toggle Done) (exec (toggle Done) (idle pg))).
    rewrite H1. unfold toggle at 1. now rewrite exec_Read, Ho. }
  rewrite H2. clear H1 H2.
  assert (Hclosed : isOpen (close (page called)) = false).
  { unfold close. rewrite Ho. simpl. now destruct (page called). }
  split; [exact Hs|]. split; [exact Hclosed|]. split.
  - intros schedule.
    match goal with |- context [settle_all schedule ?s0] => set (clicked := s0) end.
    assert (Hflag : isOpen (page (settle_all schedule clicked)) = false).
    { now rewrite (settle_all_keeps isOpen schedule clicked Hk). }
    split; [exact Hflag|]. intros Hidle. split.
    + apply (on_course_idle appearance shown); [|exact Hidle].
      apply settle_all_on_course. subst clicked. unfold on_course. simpl. rewrite Hp.
      split; [|left]; constructor; auto.
    + unfold close. now rewrite Hflag.
  - intros envs. now apply (drain_completes 4 envs _ ws).
Qed.

Lemma toggle_twice_leaves_drawer_shown_witness :
  isOpen closed0 = false
  /\ (let s := drain 4 (fun _ => offline)
                     (run [Call (toggle Done); Call (toggle Done)] (idle closed0)) in
      isOpen (page s) = false /\ shown (appearance (page s))).
Proof.
  split; [reflexivity|]. cbv zeta.
  destruct (toggle_twice_leaves_drawer_shown closed0 eq_refl) as (_ & _ & Hsch & Hdrain).
  destruct (drain_schedule 4 (fun _ => offline)
              (run [Call (toggle Done); Call (toggle Done)] (idle closed0)))
    as (schedule & Heq).
  rewrite Heq. destruct (Hsch schedule) as (Hflag & Hshown).
  split; [exact Hflag|]. apply Hshown. rewrite <- Heq. apply Hdrain.
Defined.


(** *** The loading state *)

Lemma updateItem_establishes (key : string) (quantity : JsNum) :
  establishes is_loading (fun v => v = false) (updateItem key quantity Done).
Proof.
  unfold updateItem, _setLoading. left.
  apply establishes_and_then; [|exact I].
  apply establishes_try_finally.
  - apply keeps_try_catch.
    + unfold refresh, updateCount, with_routes. walk_with ltac:(idtac; unchanged).
    + walk_with ltac:(idtac; unchanged).
  - right. split; [|exact I]. intros pg. now destruct pg.
Qed.

Lemma updateItem_within (key : string) (quantity : JsNum) :
  within 5 (updateItem key quantity Done).
Proof.
  unfold updateItem, refresh, updateCount, with_routes, _setLoading.
  walk_with ltac:(idtac; first [exists 2, 0 | lia]).
Qed.

Lemma updateItem_no_timer (key : string) (quantity : JsNum) :
  awaits (fun o => is_timer o = false) (updateItem key quantity Done).
Proof. unfold updateItem, refresh, updateCount, with_routes, _setLoading. walk. Qed.

Lemma updateItem_settles (pg : Page) (key : string) (quantity : JsNum) :
  let called := exec (updateItem key quantity Done) (idle pg) in
  is_loading (page called) = true
  /\ (forall schedule,
         pending (settle_all schedule called) = [] ->
         is_loading (page (settle_all schedule called)) = false)
  /\ (forall envs,
         pending (drain 5 envs called) = [] /\ is_loading (page (drain 5 envs called)) = false).
Proof.
  cbv zeta.
  assert (Hc : on_course is_loading (fun v => v = false)
                         (exec (updateItem key quantity Done) (idle pg))).
  { apply exec_on_course; [apply updateItem_establishes | constructor]. }
  split; [rewrite exec_updateItem; now destruct pg|]. split.
  - intros schedule Hidle.
    apply (on_course_idle is_loading _ _ (settle_all_on_course _ _ schedule _ Hc) Hidle).
  - intros envs.
    assert (Hidle : pending (drain 5 envs (exec (updateItem key quantity Done) (idle pg))) = []).
    { apply exec_completes; [apply updateItem_within | apply updateItem_no_timer]. }
    split; [exact Hidle|].
    apply (on_course_idle is_loading _ _ (drain_on_course _ _ 5 envs _ Hc) Hidle).
Qed.

(** X8.  [updateItem], [removeItem] and, for a key that the selector
    takes as it is, [changeQuantity] set the loading class at once and clear
    it in every case: whatever the network answers, once the promises they
    wait for have settled the class is cleared, and five settled promises are
    enough. *)
Theorem quantity_change_clears_loading (pg : Page) (key : string) (quantity : JsNum)
    (change : Z) :
  let settles (called : Loop Page) :=
    is_loading (page called) = true
    /\ (forall schedule,
           pending (settle_all schedule called) = [] ->
           is_loading (page (settle_all schedule called)) = false)
    /\ (forall envs,
           pending (drain 5 envs called) = []
           /\ is_loading (page (drain 5 envs called)) = false) in
  settles (exec (updateItem key quantity Done) (idle pg))
  /\ settles (exec (removeItem key Done) (idle pg))
  /\ (selector_safe key = true ->
      settles (exec (changeQuantity key change Done) (idle pg))).
Proof.
  cbv zeta. split; [apply updateItem_settles|]. split; [apply updateItem_settles|].
  intros Hkey. rewrite (exec_changeQuantity _ _ _ _ Hkey). apply updateItem_settles.
Qed.

(** *** The count badges *)

(** X9.  [updateCount] sends one GET of the cart and is done after two
    settled promises, with no error left uncaught.  When the body read
    carries an [item_count], every count badge takes it as its text and is
    displayed exactly when it is greater than 0.  When the request or the
    reading of the body fails, or the body is [null] and the page has a
    badge, the badges stay as they were and the failure is logged. *)
Theorem updateCount_sets_every_badge (pg : Page) (envs : nat -> Env) :
  let request := GET (cart_url (routes pg) ++ ".js") in
  let s := drain 2 envs (exec (updateCount Done) (idle pg)) in
  let failed :=
    badges (page s) = badges pg
    /\ console (page s) = (console pg ++ ["CartDrawer: Count update failed"])%list in
  pending s = [] /\ unhandled s = [] /\ sent s = [request]
  /\ match envs 0 (Fetch request) with
     | Fulfilled response =>
         match envs 1 (ReadJson response) with
         | Fulfilled cart =>
             match get_prop cart "item_count" with
             | Normal item_count =>
                 (comparable item_count ->
                  badges (page s) = ((fun _ => badge_of item_count) <$> badges pg))
                 /\ console (page s) = console pg
             | Thrown _ =>
                 match badges pg with
                 | [] => page s = pg
                 | _ :: _ => failed
                 end
             end
         | Rejected _ => failed
         end
     | Rejected _ => failed
     end.
Proof.
  cbv zeta. unfold updateCount, with_routes. simpl. unfold settle. simpl.
  destruct (envs 0 (Fetch _)) as [response|e]; simpl.
  - unfold settle. simpl.
    destruct (envs 1 (ReadJson response)) as [cart|e]; simpl.
    + destruct (badges pg) as [|b bs] eqn:Hb; simpl.
      * repeat split; try reflexivity.
        destruct (get_prop cart "item_count"); [|reflexivity].
        rewrite Hb. now split.
      * destruct (get_prop cart "item_count") as [item_count|e]; simpl.
        -- repeat split; try reflexivity; try intros _; destruct pg; simpl in *; now subst.
        -- repeat split; try reflexivity; destruct pg; simpl in *; now subst.
    + repeat split; try reflexivity; now destruct pg.
  - repeat split; try reflexivity; now destruct pg.
Qed.

(** *** Examples *)


End DrawerFacts.

(** ** The wishlist *)

Module WishlistFacts.
Import StorageSpec StorageFacts.

Section WithJson.

Variable JSON : Json.

Lemma find_index_strings (l : list string) (handle : string) :
  match find_index (is_string handle) (JString <$> l) with
  | None => handle ∉ l
  | Some index =>
      handle ∈ l /\ delete index (JString <$> l) = (JString <$> without_first handle l)
  end.
Proof.
  induction l as [|x l IH]; [apply not_elem_of_nil|].
  change (JString <$> x :: l) with (JString x :: (JString <$> l)).
  cbn [find_index is_string without_first].
  destruct (String.eqb_spec x handle) as [->|Hne].
  - split; [apply elem_of_cons; now left | reflexivity].
  - destruct (find_index (is_string handle) (JString <$> l)) as [index|];
      cbn [fmap option_fmap option_map].
    + destruct IH as [Hin Hdel]. split; [apply elem_of_cons; now right|].
      change (delete (S index) (JString x :: (JString <$> l)))
        with (JString x :: delete index (JString <$> l)).
      now rewrite Hdel.
    + rewrite not_elem_of_cons. split; [congruence | exact IH].
Qed.

Lemma without_first_NoDup (handle : string) (l : list string) :
  NoDup l -> without_first handle l = without handle l.
Proof.
  unfold without. induction 1 as [|x l Hx Hl IH]; simpl; [reflexivity|].
  destruct (String.eqb_spec x handle) as [->|Hne]; simpl.
  - symmetry. now apply without_absent.
  - now rewrite IH.
Qed.

Lemma without_first_length (handle : string) (l : list string) :
  handle ∈ l -> S (length (without_first handle l)) = length l.
Proof.
  induction l as [|x l IH]; intros Hin; [now apply elem_of_nil in Hin|]. simpl.
  destruct (String.eqb_spec x handle) as [->|Hne]; [reflexivity|].
  apply elem_of_cons in Hin as [->|Hin]; [contradiction|]. simpl. now rewrite IH.
Qed.

Lemma counter_of_count (l : list string) :
  {| counter_text := JNumber (Num (Z.of_nat (length (JString <$> l))));
     counter_display := if greater_than_zero (JNumber (Num (Z.of_nat (length (JString <$> l)))))
                        then "" else "none" |}
  = counter_of l.
Proof. rewrite length_fmap. now destruct l. Qed.

Lemma Wishlist_count_listed (b : Browser) (l : list string) :
  listed JSON Wishlist.STORAGE_KEY b l ->
  Wishlist.count JSON b = (Normal (JNumber (Num (Z.of_nat (length l)))), b).
Proof.
  intros Hl. unfold Wishlist.count.
  rewrite (bind_normal _ _ _ _ _ (Wishlist_getAll_listed JSON b l Hl)).
  unfold lift, length_of. now rewrite length_fmap.
Qed.

Lemma Wishlist_has_listed (b : Browser) (l : list string) (handle : string) :
  listed JSON Wishlist.STORAGE_KEY b l ->
  Wishlist.has JSON handle b = (Normal (bool_decide (handle ∈ l)), b).
Proof.
  intros Hl. unfold Wishlist.has.
  rewrite (bind_normal _ _ _ _ _ (Wishlist_getAll_listed JSON b l Hl)).
  unfold lift, includes. f_equal. f_equal.
  destruct (existsb (is_string handle) (JString <$> l)) eqn:E.
  - apply includes_strings in E. symmetry. now apply bool_decide_eq_true_2.
  - symmetry. apply bool_decide_eq_false_2. intros Hin.
    apply includes_strings in Hin. congruence.
Qed.

Lemma listed_same_storage (key : string) (b1 b2 : Browser) (l : list string) :
  localStorage b2 = localStorage b1 -> listed JSON key b1 l -> listed JSON key b2 l.
Proof. unfold listed. now intros ->. Qed.

Lemma listed_shows (before : list Counter) (b : Browser) (l : list string) :
  listed JSON Wishlist.STORAGE_KEY b l ->
  wishlist_counters b = ((fun _ => counter_of l) <$> before) ->
  shows JSON before b l.
Proof.
  intros Hl Hc. split; [exact Hl|]. split; [|exact Hc].
  now rewrite (Wishlist_count_listed b l Hl).
Qed.

(** What [_save] leaves when the browser takes the write: the list
    stored, the counters showing its length, the console and the events as
    they were. *)
Lemma Wishlist_save_written (b : Browser) (l : list string) :
  readable (localStorage b) = true -> writable (localStorage b) = true ->
  faithful JSON l ->
  exists b',
    Wishlist._save JSON (JArray (JString <$> l)) b = (Normal tt, b')
    /\ shows JSON (wishlist_counters b) b' l
    /\ writable (localStorage b') = true
    /\ console b' = console b
    /\ dispatched b' = dispatched b.
Proof.
  intros Hr Hw Hf.
  set (b1 := written Wishlist.STORAGE_KEY (stringify JSON (JArray (JString <$> l))) b).
  assert (Hl1 : listed JSON Wishlist.STORAGE_KEY b1 l) by now apply listed_written.
  set (b2 := {| localStorage := localStorage b1;
                wishlist_counters := (fun _ => counter_of l) <$> wishlist_counters b1;
                console := console b1; dispatched := dispatched b1 |}).
  assert (Hl2 : listed JSON Wishlist.STORAGE_KEY b2 l) by exact Hl1.
  exists b2. split.
  - unfold Wishlist._save. apply try_normal.
    rewrite (bind_normal _ _ _ _ _ (setItem_written _ _ b Hr Hw)). fold b1.
    unfold Wishlist._updateCounters.
    rewrite (bind_normal _ _ _ _ _ (Wishlist_count_listed b1 l Hl1)).
    unfold get_counters at 1. unfold bind at 1. unfold set_counters.
    subst b2. f_equal. f_equal. apply list_fmap_ext. intros i c _.
    rewrite <- (counter_of_count l). now rewrite length_fmap.
  - split; [|split; [exact Hw | split; reflexivity]].
    split; [exact Hl2|]. split; [|reflexivity].
    now rewrite (Wishlist_count_listed b2 l Hl2).
Qed.

(** What [_save] leaves when the browser refuses the write: the failure
    on the console, all else as it was. *)
Lemma Wishlist_save_refused (b : Browser) (items : JsValue) :
  readable (localStorage b) = false \/ writable (localStorage b) = false ->
  exists b',
    Wishlist._save JSON items b = (Normal tt, b')
    /\ localStorage b' = localStorage b
    /\ wishlist_counters b' = wishlist_counters b
    /\ dispatched b' = dispatched b.
Proof.
  intros H. unfold Wishlist._save, try_, bind, setItem, console_log.
  destruct (readable (localStorage b)) eqn:Hr; simpl.
  - destruct H as [H|H]; [discriminate|]. rewrite H. simpl. eexists. repeat split.
  - eexists. repeat split.
Qed.


Lemma bind_lift {A B : Type} (a : A) (f : A -> M B) (b : Browser) :
  bind (lift (Normal a)) f b = f a b.
Proof. reflexivity. Qed.

Lemma Wishlist_indexOf_listed (l : list string) (handle : string) :
  indexOf (JArray (JString <$> l)) handle
  = Normal (find_index (is_string handle) (JString <$> l)).
Proof. reflexivity. Qed.

(** [remove] of a handle that is in the list, and of one that is not. *)
Lemma Wishlist_remove_present (b : Browser) (l : list string) (handle : string) :
  listed JSON Wishlist.STORAGE_KEY b l -> handle ∈ l ->
  Wishlist.remove JSON handle b
  = (run! Wishlist._save JSON (JArray (JString <$> without_first handle l)) in
     run! Wishlist._dispatch "wishlist:remove" (JObject [("handle", JString handle)]) in
     ret true) b.
Proof.
  intros Hl Hin. pose proof (find_index_strings l handle) as Hfind.
  unfold Wishlist.remove.
  rewrite (bind_normal _ _ _ _ _ (Wishlist_getAll_listed JSON b l Hl)).
  rewrite Wishlist_indexOf_listed.
  destruct (find_index (is_string handle) (JString <$> l)) as [index|]; rewrite bind_lift.
  - destruct Hfind as [_ Hdel]. now rewrite Hdel.
  - contradiction.
Qed.

Lemma Wishlist_remove_absent (b : Browser) (l : list string) (handle : string) :
  listed JSON Wishlist.STORAGE_KEY b l -> handle ∉ l ->
  Wishlist.remove JSON handle b = (Normal false, b).
Proof.
  intros Hl Hnin. pose proof (find_index_strings l handle) as Hfind.
  unfold Wishlist.remove.
  rewrite (bind_normal _ _ _ _ _ (Wishlist_getAll_listed JSON b l Hl)).
  rewrite Wishlist_indexOf_listed.
  destruct (find_index (is_string handle) (JString <$> l)) as [index|]; rewrite bind_lift.
  - now destruct Hfind as [Hin _].
  - reflexivity.
Qed.

(** A mutator that saves [l'] and dispatches an event, when the browser
    takes the write. *)
Lemma save_dispatch_written {A : Type} (b : Browser) (l' : list string) (type : string)
    (detail : JsValue) (a : A) :
  readable (localStorage b) = true -> writable (localStorage b) = true ->
  faithful JSON l' ->
  exists b',
    (run! Wishlist._save JSON (JArray (JString <$> l')) in
     run! Wishlist._dispatch type detail in ret a) b = (Normal a, b')
    /\ shows JSON (wishlist_counters b) b' l'
    /\ writable (localStorage b') = true
    /\ dispatched b' = (dispatched b ++ [(type, detail)])%list.
Proof.
  intros Hr Hw Hf.
  destruct (Wishlist_save_written b l' Hr Hw Hf)
    as (b1 & Hsave & (Hl1 & Hc1 & Hk1) & Hw1 & Hcon1 & Hd1).
  rewrite (bind_normal _ _ _ _ _ Hsave).
  unfold Wishlist._dispatch, dispatchEvent, bind, ret. eexists. split; [reflexivity|].
  split; [|split; [exact Hw1 | simpl; now rewrite Hd1]].
  apply listed_shows; [|exact Hk1]. now apply (listed_same_storage _ b1).
Qed.

(** The same when the browser refuses the write. *)
Lemma save_dispatch_refused {A : Type} (b : Browser) (items : JsValue) (type : string)
    (detail : JsValue) (a : A) :
  readable (localStorage b) = false \/ writable (localStorage b) = false ->
  exists b',
    (run! Wishlist._save JSON items in
     run! Wishlist._dispatch type detail in ret a) b = (Normal a, b')
    /\ localStorage b' = localStorage b
    /\ wishlist_counters b' = wishlist_counters b
    /\ dispatched b' = (dispatched b ++ [(type, detail)])%list.
Proof.
  intros H.
  destruct (Wishlist_save_refused b items H) as (b1 & Hsave & Hs1 & Hc1 & Hd1).
  rewrite (bind_normal _ _ _ _ _ Hsave).
  unfold Wishlist._dispatch, dispatchEvent, bind, ret. eexists. split; [reflexivity|].
  simpl. rewrite Hd1. auto.
Qed.

(** X10.  [remove] of a handle that is not stored returns false and
    changes nothing.  For a stored handle it returns true, dispatches
    [wishlist:remove] and, when the browser takes the write, stores the list
    without the first occurrence of the handle, one entry shorter, which
    [count] and the counters then show; a list without duplicates no longer
    holds the handle.  When the browser refuses the write the storage and the
    counters stay as they were, and the event is dispatched all the same. *)
Theorem Wishlist_remove_first (b : Browser) (l : list string) (handle : string) :
  listed JSON Wishlist.STORAGE_KEY b l ->
  let l' := without_first handle l in
  let event := ("wishlist:remove", JObject [("handle", JString handle)]) in
  (handle ∉ l -> Wishlist.remove JSON handle b = (Normal false, b))
  /\ (handle ∈ l -> writable (localStorage b) = true -> faithful JSON l' ->
      exists b',
        Wishlist.remove JSON handle b = (Normal true, b')
        /\ shows JSON (wishlist_counters b) b' l'
        /\ dispatched b' = (dispatched b ++ [event])%list
        /\ S (length l') = length l
        /\ (NoDup l -> (handle ∉ l') /\ l' = without handle l))
  /\ (handle ∈ l -> writable (localStorage b) = false ->
      exists b',
        Wishlist.remove JSON handle b = (Normal true, b')
        /\ localStorage b' = localStorage b
        /\ wishlist_counters b' = wishlist_counters b
        /\ dispatched b' = (dispatched b ++ [event])%list).
Proof.
  intros Hl. cbv zeta.
  assert (Hr : readable (localStorage b) = true) by apply Hl.
  split; [now apply Wishlist_remove_absent|]. split.
  - intros Hin Hw Hf. rewrite (Wishlist_remove_present b l handle Hl Hin).
    destruct (save_dispatch_written b (without_first handle l) "wishlist:remove"
                (JObject [("handle", JString handle)]) true Hr Hw Hf)
      as (b' & Hrun & Hshows & _ & Hd).
    exists b'. split; [exact Hrun|]. split; [exact Hshows|]. split; [exact Hd|].
    split; [now apply without_first_length|].
    intros Hnd. rewrite (without_first_NoDup handle l Hnd).
    split; [apply without_absent_after | reflexivity].
  - intros Hin Hw. rewrite (Wishlist_remove_present b l handle Hl Hin).
    apply save_dispatch_refused. now right.
Qed.

Lemma truthy_nonempty (handle : string) : handle <> "" -> truthy_string handle = true.
Proof. destruct handle; [contradiction | reflexivity]. Qed.

Lemma not_included (l : list string) (handle : string) :
  handle ∉ l -> existsb (is_string handle) (JString <$> l) = false.
Proof.
  intros Hnin. destruct (existsb _ _) eqn:E; [|reflexivity].
  now apply includes_strings in E.
Qed.

(** [add] of a handle that is new to the list. *)
Lemma Wishlist_add_new (b : Browser) (l : list string) (handle : string) :
  listed JSON Wishlist.STORAGE_KEY b l -> handle <> "" -> handle ∉ l ->
  Wishlist.add JSON handle b
  = (run! Wishlist._save JSON (JArray (JString <$> appended handle l)) in
     run! Wishlist._dispatch "wishlist:add" (JObject [("handle", JString handle)]) in
     ret true) b.
Proof.
  intros Hl Hne Hnin. unfold Wishlist.add. rewrite (truthy_nonempty handle Hne).
  cbv beta iota delta [negb].
  rewrite (bind_normal _ _ _ _ _ (Wishlist_getAll_listed JSON b l Hl)).
  unfold includes. rewrite bind_lift, (not_included l handle Hnin), evicted_strings.
  reflexivity.
Qed.

(** X11.  After [add] has stored a new handle, [count] reports the new
    length, every counter element shows it and is displayed, [has] finds the
    handle, and [wishlist:add] has been dispatched with the handle. *)
Theorem Wishlist_add_shows_count (b : Browser) (l : list string) (handle : string) :
  listed JSON Wishlist.STORAGE_KEY b l ->
  handle <> "" -> handle ∉ l -> writable (localStorage b) = true ->
  faithful JSON (appended handle l) ->
  exists b',
    Wishlist.add JSON handle b = (Normal true, b')
    /\ shows JSON (wishlist_counters b) b' (appended handle l)
    /\ Forall (fun c => counter_display c = "") (wishlist_counters b')
    /\ Wishlist.has JSON handle b' = (Normal true, b')
    /\ dispatched b'
       = (dispatched b ++ [("wishlist:add", JObject [("handle", JString handle)])])%list.
Proof.
  intros Hl Hne Hnin Hw Hf.
  assert (Hr : readable (localStorage b) = true) by apply Hl.
  rewrite (Wishlist_add_new b l handle Hl Hne Hnin).
  destruct (save_dispatch_written b (appended handle l) "wishlist:add"
              (JObject [("handle", JString handle)]) true Hr Hw Hf)
    as (b' & Hrun & Hshows & _ & Hd).
  exists b'. split; [exact Hrun|]. split; [exact Hshows|].
  destruct Hshows as (Hl' & _ & Hk'). split; [|split; [|exact Hd]].
  - rewrite Hk'. apply Forall_fmap, Forall_true. intros c. unfold appended.
    now destruct (if (Wishlist.MAX_ITEMS <=? length l)%nat then tail l else l).
  - rewrite (Wishlist_has_listed _ _ handle Hl'). f_equal. f_equal.
    apply bool_decide_eq_true_2. unfold appended. rewrite elem_of_app, elem_of_cons. auto.
Qed.

Lemma without_first_appended (handle : string) (l : list string) :
  handle ∉ l -> without_first handle (l ++ [handle]) = l.
Proof.
  induction l as [|x l IH]; simpl; intros Hnin.
  - now rewrite String.eqb_refl.
  - rewrite not_elem_of_cons in Hnin. destruct Hnin as [Hx Hl].
    destruct (String.eqb_spec x handle) as [->|_]; [contradiction|]. now rewrite IH.
Qed.

(** X12.  The flag [toggle] returns says whether the handle is in the
    wishlist afterwards: false after taking a stored handle out (of a list
    without duplicates), true after adding a new one, and [has] agrees.  For
    the empty handle, which [add] refuses, it returns true although nothing
    is stored; when the browser refuses the write it returns the flag although
    the storage and the counters are as before. *)
Theorem Wishlist_toggle_reports (b : Browser) (l : list string) (handle : string) :
  listed JSON Wishlist.STORAGE_KEY b l ->
  (handle ∈ l -> writable (localStorage b) = true ->
   faithful JSON (without_first handle l) ->
   exists b',
     Wishlist.toggle JSON handle b = (Normal false, b')
     /\ shows JSON (wishlist_counters b) b' (without_first handle l)
     /\ (NoDup l -> Wishlist.has JSON handle b' = (Normal false, b')))
  /\ (handle ∉ l -> handle <> "" -> writable (localStorage b) = true ->
      faithful JSON (appended handle l) ->
      exists b',
        Wishlist.toggle JSON handle b = (Normal true, b')
        /\ shows JSON (wishlist_counters b) b' (appended handle l)
        /\ Wishlist.has JSON handle b' = (Normal true, b'))
  /\ (handle ∉ l -> handle = "" -> Wishlist.toggle JSON handle b = (Normal true, b))
  /\ (writable (localStorage b) = false -> handle <> "" ->
      exists b',
        Wishlist.toggle JSON handle b = (Normal (negb (bool_decide (handle ∈ l))), b')
        /\ localStorage b' = localStorage b
        /\ wishlist_counters b' = wishlist_counters b).
Proof.
  intros Hl.
  assert (Hr : readable (localStorage b) = true) by apply Hl.
  pose proof (Wishlist_has_listed b l handle Hl) as Hhas.
  unfold Wishlist.toggle. rewrite (bind_normal _ _ _ _ _ Hhas).
  split; [|split; [|split]].
  - intros Hin Hw Hf. rewrite (bool_decide_eq_true_2 _ Hin).
    unfold bind at 1. rewrite (Wishlist_remove_present b l handle Hl Hin).
    destruct (save_dispatch_written b (without_first handle l) "wishlist:remove"
                (JObject [("handle", JString handle)]) true Hr Hw Hf)
      as (b' & Hrun & Hshows & _ & Hd).
    rewrite Hrun. exists b'. split; [reflexivity|]. split; [exact Hshows|].
    intros Hnd. rewrite (Wishlist_has_listed _ _ handle (proj1 Hshows)). f_equal. f_equal.
    apply bool_decide_eq_false_2. rewrite (without_first_NoDup handle l Hnd).
    apply without_absent_after.
  - intros Hnin Hne Hw Hf. rewrite (bool_decide_eq_false_2 _ Hnin).
    unfold bind at 1. rewrite (Wishlist_add_new b l handle Hl Hne Hnin).
    destruct (save_dispatch_written b (appended handle l) "wishlist:add"
                (JObject [("handle", JString handle)]) true Hr Hw Hf)
      as (b' & Hrun & Hshows & _ & Hd).
    rewrite Hrun. exists b'. split; [reflexivity|]. split; [exact Hshows|].
    rewrite (Wishlist_has_listed _ _ handle (proj1 Hshows)). f_equal. f_equal.
    apply bool_decide_eq_true_2. unfold appended. rewrite elem_of_app, elem_of_cons. auto.
  - intros Hnin ->. rewrite (bool_decide_eq_false_2 _ Hnin). reflexivity.
  - intros Hw Hne. destruct (decide (handle ∈ l)) as [Hin|Hnin].
    + rewrite (bool_decide_eq_true_2 _ Hin).
      unfold bind at 1. rewrite (Wishlist_remove_present b l handle Hl Hin).
      destruct (save_dispatch_refused b (JArray (JString <$> without_first handle l))
                  "wishlist:remove" (JObject [("handle", JString handle)]) true
                  (or_intror Hw)) as (b' & Hrun & Hs & Hc & Hd).
      rewrite Hrun. exists b'. auto.
    + rewrite (bool_decide_eq_false_2 _ Hnin).
      unfold bind at 1. rewrite (Wishlist_add_new b l handle Hl Hne Hnin).
      destruct (save_dispatch_refused b (JArray (JString <$> appended handle l))
                  "wishlist:add" (JObject [("handle", JString handle)]) true
                  (or_intror Hw)) as (b' & Hrun & Hs & Hc & Hd).
      rewrite Hrun. exists b'. auto.
Qed.

(** X13.  Toggling a new handle twice adds it and takes it out again:
    what is stored and shown afterwards is the list as it was, unless the
    list was full, in which case its oldest entry is gone. *)
Theorem Wishlist_toggle_twice (b : Browser) (l : list string) (handle : string) :
  listed JSON Wishlist.STORAGE_KEY b l ->
  handle <> "" -> handle ∉ l -> writable (localStorage b) = true ->
  let kept := if (Wishlist.MAX_ITEMS <=? length l)%nat then tail l else l in
  faithful JSON (kept ++ [handle])%list -> faithful JSON kept ->
  exists b1 b2,
    Wishlist.toggle JSON handle b = (Normal true, b1)
    /\ Wishlist.toggle JSON handle b1 = (Normal false, b2)
    /\ shows JSON (wishlist_counters b) b2 kept
    /\ (length l < Wishlist.MAX_ITEMS -> kept = l)
    /\ (Wishlist.MAX_ITEMS <= length l -> kept = tail l).
Proof.
  intros Hl Hne Hnin Hw kept Hf1 Hf2.
  assert (Hr : readable (localStorage b) = true) by apply Hl.
  assert (Hkept : handle ∉ kept).
  { subst kept. destruct (Wishlist.MAX_ITEMS <=? length l)%nat; [|exact Hnin].
    destruct l as [|x l]; [exact Hnin|]. simpl. rewrite not_elem_of_cons in Hnin. tauto. }
  pose proof (Wishlist_has_listed b l handle Hl) as Hhas.
  destruct (save_dispatch_written b (appended handle l) "wishlist:add"
              (JObject [("handle", JString handle)]) true Hr Hw Hf1)
    as (b1 & Hrun1 & Hshows1 & Hw1 & Hd1).
  assert (Hin1 : handle ∈ appended handle l).
  { unfold appended. rewrite elem_of_app, elem_of_cons. auto. }
  assert (Hback : without_first handle (appended handle l) = kept).
  { unfold appended. now apply without_first_appended. }
  assert (Hr1 : readable (localStorage b1) = true) by apply Hshows1.
  destruct (save_dispatch_written b1 (without_first handle (appended handle l))
              "wishlist:remove" (JObject [("handle", JString handle)]) true Hr1 Hw1)
    as (b2 & Hrun2 & Hshows2 & _ & _); [now rewrite Hback|].
  exists b1, b2. split; [|split; [|split; [|split]]].
  - unfold Wishlist.toggle. rewrite (bind_normal _ _ _ _ _ Hhas).
    rewrite (bool_decide_eq_false_2 _ Hnin). unfold bind at 1.
    rewrite (Wishlist_add_new b l handle Hl Hne Hnin). now rewrite Hrun1.
  - unfold Wishlist.toggle.
    rewrite (bind_normal _ _ _ _ _ (Wishlist_has_listed b1 _ handle (proj1 Hshows1))).
    rewrite (bool_decide_eq_true_2 _ Hin1). unfold bind at 1.
    rewrite (Wishlist_remove_present b1 _ handle (proj1 Hshows1) Hin1). now rewrite Hrun2.
  - rewrite Hback in Hshows2. destruct Hshows2 as (Hl2 & Hc2 & Hk2).
    split; [exact Hl2|]. split; [exact Hc2|].
    rewrite Hk2. destruct Hshows1 as (_ & _ & Hk1). rewrite Hk1, <- list_fmap_compose.
    reflexivity.
  - intros Hlen. subst kept. destruct (Nat.leb_spec Wishlist.MAX_ITEMS (length l)); [lia|].
    reflexivity.
  - intros Hlen. subst kept. destruct (Nat.leb_spec Wishlist.MAX_ITEMS (length l)); [|lia].
    reflexivity.
Qed.

Lemma clear_runs (b : Browser) :
  Wishlist.clear JSON b
  = (run! Wishlist._save JSON (JArray (JString <$> [])) in
     run! Wishlist._dispatch "wishlist:clear" (JObject []) in ret tt) b.
Proof.
  unfold Wishlist.clear, bind, ret. change (JString <$> []) with (@nil JsValue).
  destruct (Wishlist._save JSON (JArray []) b) as [[[]|e] b1]; [|reflexivity].
  now destruct (Wishlist._dispatch "wishlist:clear" (JObject []) b1) as [[[]|e] b2].
Qed.

(** X14.  [clear] leaves an empty wishlist, whatever was stored: [count]
    reports 0, every counter is hidden, [has] finds no handle, and
    [wishlist:clear] is dispatched.  When the browser refuses the storage,
    storage and counters stay as they were and the event is dispatched all
    the same. *)
Theorem Wishlist_clear_empties (b : Browser) :
  let event := ("wishlist:clear", JObject []) in
  (readable (localStorage b) = true -> writable (localStorage b) = true ->
   faithful JSON [] ->
   exists b',
     Wishlist.clear JSON b = (Normal tt, b')
     /\ shows JSON (wishlist_counters b) b' []
     /\ Forall (fun c => counter_display c = "none") (wishlist_counters b')
     /\ (forall handle, Wishlist.has JSON handle b' = (Normal false, b'))
     /\ dispatched b' = (dispatched b ++ [event])%list)
  /\ (readable (localStorage b) = false \/ writable (localStorage b) = false ->
      exists b',
        Wishlist.clear JSON b = (Normal tt, b')
        /\ localStorage b' = localStorage b
        /\ wishlist_counters b' = wishlist_counters b
        /\ dispatched b' = (dispatched b ++ [event])%list).
Proof.
  cbv zeta. split.
  - intros Hr Hw Hf.
    destruct (save_dispatch_written b [] "wishlist:clear" (JObject []) tt Hr Hw Hf)
      as (b' & Hrun & Hshows & _ & Hd).
    exists b'. split; [rewrite clear_runs; exact Hrun|].
    split; [exact Hshows|]. destruct Hshows as (Hl' & _ & Hk').
    split; [rewrite Hk'; now apply Forall_fmap, Forall_true|].
    split; [|exact Hd].
    intros handle. rewrite (Wishlist_has_listed _ _ handle Hl').
    now rewrite bool_decide_eq_false_2 by apply not_elem_of_nil.
  - intros H.
    destruct (save_dispatch_refused b (JArray []) "wishlist:clear" (JObject []) tt H)
      as (b' & Hrun & Hs & Hc & Hd).
    exists b'. split; [rewrite clear_runs; exact Hrun | auto].
Qed.

End WithJson.
(** *** Examples *)

Lemma Wishlist_remove_first_witness :
  let b := with_counters Wishlist.STORAGE_KEY ["a"; "b"; "a"] in
  listed MiniJson.JSON Wishlist.STORAGE_KEY b ["a"; "b"; "a"]
  /\ exists b',
      Wishlist.remove MiniJson.JSON "a" b = (Normal true, b')
      /\ shows MiniJson.JSON (wishlist_counters b) b' ["b"; "a"].
Proof.
  cbv zeta.
  assert (Hl : listed MiniJson.JSON Wishlist.STORAGE_KEY
                      (with_counters Wishlist.STORAGE_KEY ["a"; "b"; "a"]) ["a"; "b"; "a"])
    by (split; [reflexivity | vm_compute; reflexivity]).
  split; [exact Hl|].
  destruct (proj1 (proj2 (Wishlist_remove_first MiniJson.JSON _ _ "a" Hl))
              ltac:(constructor) eq_refl ltac:(split; vm_compute; reflexivity))
    as (b' & Hrun & Hshows & _).
  exists b'. split; assumption.
Defined.

Lemma Wishlist_add_shows_count_witness :
  let b := with_counters Wishlist.STORAGE_KEY ["a"; "b"] in
  listed MiniJson.JSON Wishlist.STORAGE_KEY b ["a"; "b"]
  /\ exists b',
      Wishlist.add MiniJson.JSON "c" b = (Normal true, b')
      /\ shows MiniJson.JSON (wishlist_counters b) b' ["a"; "b"; "c"].
Proof.
  cbv zeta.
  assert (Hl : listed MiniJson.JSON Wishlist.STORAGE_KEY
                      (with_counters Wishlist.STORAGE_KEY ["a"; "b"]) ["a"; "b"])
    by (split; [reflexivity | vm_compute; reflexivity]).
  split; [exact Hl|].
  destruct (Wishlist_add_shows_count MiniJson.JSON _ _ "c" Hl ltac:(discriminate)
              ltac:(apply not_in_decide; vm_compute; reflexivity) eq_refl
              ltac:(split; vm_compute; reflexivity))
    as (b' & Hrun & Hshows & _).
  exists b'. split; assumption.
Defined.

Lemma Wishlist_toggle_reports_witness :
  let b := with_counters Wishlist.STORAGE_KEY ["a"; "b"] in
  listed MiniJson.JSON Wishlist.STORAGE_KEY b ["a"; "b"]
  /\ (exists b',
         Wishlist.toggle MiniJson.JSON "a" b = (Normal false, b')
         /\ shows MiniJson.JSON (wishlist_counters b) b' ["b"])
  /\ (exists b',
         Wishlist.toggle MiniJson.JSON "c" b = (Normal true, b')
         /\ shows MiniJson.JSON (wishlist_counters b) b' ["a"; "b"; "c"]).
Proof.
  cbv zeta.
  assert (Hl : listed MiniJson.JSON Wishlist.STORAGE_KEY
                      (with_counters Wishlist.STORAGE_KEY ["a"; "b"]) ["a"; "b"])
    by (split; [reflexivity | vm_compute; reflexivity]).
  split; [exact Hl|].
  destruct (Wishlist_toggle_reports MiniJson.JSON _ _ "a" Hl) as (Hin & _).
  destruct (Wishlist_toggle_reports MiniJson.JSON _ _ "c" Hl) as (_ & Hout & _).
  split.
  - destruct (Hin ltac:(constructor) eq_refl ltac:(split; vm_compute; reflexivity))
      as (b' & Hrun & Hshows & _).
    exists b'. split; assumption.
  - destruct (Hout ltac:(apply not_in_decide; vm_compute; reflexivity) ltac:(discriminate)
                   eq_refl ltac:(split; vm_compute; reflexivity))
      as (b' & Hrun & Hshows & _).
    exists b'. split; assumption.
Defined.

Lemma Wishlist_toggle_twice_witness :
  let b := with_counters Wishlist.STORAGE_KEY ["a"; "b"] in
  listed MiniJson.JSON Wishlist.STORAGE_KEY b ["a"; "b"]
  /\ exists b1 b2,
      Wishlist.toggle MiniJson.JSON "c" b = (Normal true, b1)
      /\ Wishlist.toggle MiniJson.JSON "c" b1 = (Normal false, b2)
      /\ shows MiniJson.JSON (wishlist_counters b) b2 ["a"; "b"].
Proof.
  cbv zeta.
  assert (Hl : listed MiniJson.JSON Wishlist.STORAGE_KEY
                      (with_counters Wishlist.STORAGE_KEY ["a"; "b"]) ["a"; "b"])
    by (split; [reflexivity | vm_compute; reflexivity]).
  split; [exact Hl|].
  destruct (Wishlist_toggle_twice MiniJson.JSON _ _ "c" Hl ltac:(discriminate)
              ltac:(apply not_in_decide; vm_compute; reflexivity) eq_refl
              ltac:(split; vm_compute; reflexivity) ltac:(split; vm_compute; reflexivity))
    as (b1 & b2 & H1 & H2 & Hshows & _).
  exists b1, b2. split; [exact H1|]. split; [exact H2 | exact Hshows].
Defined.

Lemma Wishlist_clear_empties_witness :
  let b := with_counters Wishlist.STORAGE_KEY ["a"; "b"] in
  exists b',
    Wishlist.clear MiniJson.JSON b = (Normal tt, b')
    /\ shows MiniJson.JSON (wishlist_counters b) b' []
    /\ Wishlist.has MiniJson.JSON "a" b' = (Normal false, b').
Proof.
  cbv zeta.
  destruct (proj1 (Wishlist_clear_empties MiniJson.JSON
                     (with_counters Wishlist.STORAGE_KEY ["a"; "b"]))
              eq_refl eq_refl ltac:(split; vm_compute; reflexivity))
    as (b' & Hrun & Hshows & _ & Hhas & _).
  exists b'. split; [exact Hrun|]. split; [exact Hshows | apply Hhas].
Defined.

End WishlistFacts.

(** ** The recently viewed list *)

Module RecentFacts.
Import StorageSpec StorageFacts.

Section WithJson.

Variable JSON : Json.

Lemma RecentlyViewed_add_fronted (b : Browser) (l : list string) (handle : string) :
  listed JSON RecentlyViewed.STORAGE_KEY b l -> handle <> "" ->
  RecentlyViewed.add JSON handle b
  = RecentlyViewed._save JSON (JArray (JString <$> fronted handle l)) b.
Proof.
  intros Hl Hne. unfold RecentlyViewed.add.
  rewrite (WishlistFacts.truthy_nonempty handle Hne). cbv beta iota delta [negb].
  rewrite (bind_normal _ _ _ _ _ (RecentlyViewed_getAll_listed JSON b l Hl)).
  cbv beta iota zeta. now rewrite recent_strings.
Qed.

Lemma RecentlyViewed_save_written (b : Browser) (l : list string) :
  readable (localStorage b) = true -> writable (localStorage b) = true ->
  RecentlyViewed._save JSON (JArray (JString <$> l)) b
  = (Normal tt,
     written RecentlyViewed.STORAGE_KEY (stringify JSON (JArray (JString <$> l))) b).
Proof.
  intros Hr Hw. unfold RecentlyViewed._save.
  now rewrite (try_normal _ _ _ _ _ (setItem_written _ _ b Hr Hw)).
Qed.

Lemma RecentlyViewed_save_refused (b : Browser) (items : JsValue) :
  readable (localStorage b) = false \/ writable (localStorage b) = false ->
  exists b',
    RecentlyViewed._save JSON items b = (Normal tt, b')
    /\ localStorage b' = localStorage b.
Proof.
  intros H. unfold RecentlyViewed._save, try_, setItem, console_log.
  destruct (readable (localStorage b)) eqn:Hr; simpl.
  - destruct H as [H|H]; [discriminate|]. rewrite H. simpl. eexists. split; reflexivity.
  - eexists. split; reflexivity.
Qed.

Lemma RecentlyViewed_getExcluding_listed (b : Browser) (l : list string) (handle : string) :
  listed JSON RecentlyViewed.STORAGE_KEY b l ->
  RecentlyViewed.getExcluding JSON handle b = (Normal (JArray (JString <$> without handle l)), b).
Proof.
  intros Hl. unfold RecentlyViewed.getExcluding.
  rewrite (bind_normal _ _ _ _ _ (RecentlyViewed_getAll_listed JSON b l Hl)).
  now rewrite filter_strings.
Qed.

Lemma without_take (handle : string) (n : nat) (l : list string) :
  handle ∉ l -> without handle (take n l) = take n l.
Proof.
  intros Hnin. apply without_absent. intros Hin. apply Hnin.
  apply elem_of_take in Hin as (i & Hi & _). eapply list_elem_of_lookup_2, Hi.
Qed.

Lemma without_fronted (handle : string) (l : list string) :
  without handle (fronted handle l) = take 11 (without handle l).
Proof.
  unfold fronted, RecentlyViewed.MAX_ITEMS.
  change (take 12 (handle :: without handle l)) with (handle :: take 11 (without handle l)).
  unfold without at 1. simpl. rewrite String.eqb_refl. simpl.
  apply (without_take handle 11 (without handle l)), without_absent_after.
Qed.

Lemma fronted_fronted (handle : string) (l : list string) :
  fronted handle (fronted handle l) = fronted handle l.
Proof.
  unfold fronted at 1. rewrite without_fronted.
  unfold fronted, RecentlyViewed.MAX_ITEMS.
  change (take 12 (handle :: take 11 (without handle l)))
    with (handle :: take 11 (take 11 (without handle l))).
  now rewrite take_take.
Qed.

(** X15.  [getExcluding] returns the stored handles without the given
    one, in their order.  After [trackCurrentProduct] on the page of a
    product, [getExcluding] of that product returns the handles seen before
    it, most recent first and at most 11 of them, without the product
    itself. *)
Theorem RecentlyViewed_track_then_exclude (b : Browser) (l : list string) (handle : string) :
  listed JSON RecentlyViewed.STORAGE_KEY b l ->
  (forall other,
      RecentlyViewed.getExcluding JSON other b
      = (Normal (JArray (JString <$> without other l)), b)
      /\ (other ∉ without other l))
  /\ (handle <> "" -> writable (localStorage b) = true -> faithful JSON (fronted handle l) ->
      exists b',
        RecentlyViewed.trackCurrentProduct JSON (Some handle) b = (Normal tt, b')
        /\ listed JSON RecentlyViewed.STORAGE_KEY b' (fronted handle l)
        /\ RecentlyViewed.getExcluding JSON handle b'
           = (Normal (JArray (JString <$> take 11 (without handle l))), b')).
Proof.
  intros Hl. assert (Hr : readable (localStorage b) = true) by apply Hl. split.
  - intros other. split; [now apply RecentlyViewed_getExcluding_listed|].
    apply without_absent_after.
  - intros Hne Hw Hf. eexists. split; [|split].
    + unfold RecentlyViewed.trackCurrentProduct.
      rewrite (WishlistFacts.truthy_nonempty handle Hne).
      rewrite (RecentlyViewed_add_fronted b l handle Hl Hne).
      now apply RecentlyViewed_save_written.
    + now apply listed_written.
    + rewrite (RecentlyViewed_getExcluding_listed _ (fronted handle l));
        [|now apply listed_written].
      now rewrite without_fronted.
Qed.

(** X16.  Recording the same product a second time changes nothing:
    after an [add] of a handle, another [add] of it leaves the browser as it
    is. *)
Theorem RecentlyViewed_add_idempotent (b : Browser) (l : list string) (handle : string) :
  listed JSON RecentlyViewed.STORAGE_KEY b l ->
  handle <> "" -> writable (localStorage b) = true -> faithful JSON (fronted handle l) ->
  exists b',
    RecentlyViewed.add JSON handle b = (Normal tt, b')
    /\ listed JSON RecentlyViewed.STORAGE_KEY b' (fronted handle l)
    /\ RecentlyViewed.add JSON handle b' = (Normal tt, b').
Proof.
  intros Hl Hne Hw Hf. assert (Hr : readable (localStorage b) = true) by apply Hl.
  set (b' := written RecentlyViewed.STORAGE_KEY
               (stringify JSON (JArray (JString <$> fronted handle l))) b).
  assert (Hl' : listed JSON RecentlyViewed.STORAGE_KEY b' (fronted handle l))
    by now apply listed_written.
  exists b'. split; [|split; [exact Hl'|]].
  - rewrite (RecentlyViewed_add_fronted b l handle Hl Hne).
    now apply RecentlyViewed_save_written.
  - rewrite (RecentlyViewed_add_fronted b' _ handle Hl' Hne), fronted_fronted.
    rewrite RecentlyViewed_save_written by assumption.
    f_equal. subst b'. unfold written. simpl. now rewrite insert_insert_eq.
Qed.

Lemma fronted_tidy (l : list string) (handle : string) :
  tidy l -> handle <> "" -> tidy (fronted handle l).
Proof.
  intros (Hnd & Hne & Hlen) Hh. split; [|split].
  - now apply RecentlyViewed_add_invariant.
  - unfold fronted. intros Hin.
    apply elem_of_take in Hin as (i & Hi & _). apply list_elem_of_lookup_2 in Hi.
    apply elem_of_cons in Hi as [Hi|Hi]; [congruence|].
    unfold without in Hi. apply list_elem_of_In, List.filter_In in Hi as [Hi _].
    now apply list_elem_of_In in Hi.
  - unfold fronted. rewrite length_take. lia.
Qed.

(** X17.  A stored list without duplicates, without the empty handle
    and of at most 12 entries stays so under [trackCurrentProduct], whatever
    the page's product handle is (none and the empty one included) and whether
    the browser takes the write or not.  [add] of a handle is
    [trackCurrentProduct] on the page of that product. *)
Theorem RecentlyViewed_stays_tidy (b : Browser) (l : list string)
    (productHandle : option string) :
  listed JSON RecentlyViewed.STORAGE_KEY b l -> tidy l ->
  (forall handle, productHandle = Some handle -> faithful JSON (fronted handle l)) ->
  exists b' l',
    RecentlyViewed.trackCurrentProduct JSON productHandle b = (Normal tt, b')
    /\ listed JSON RecentlyViewed.STORAGE_KEY b' l'
    /\ tidy l'
    /\ (forall handle, RecentlyViewed.add JSON handle b
                       = RecentlyViewed.trackCurrentProduct JSON (Some handle) b).
Proof.
  intros Hl Ht Hf. assert (Hr : readable (localStorage b) = true) by apply Hl.
  assert (Hadd : forall handle, RecentlyViewed.add JSON handle b
                   = RecentlyViewed.trackCurrentProduct JSON (Some handle) b).
  { intros handle. unfold RecentlyViewed.trackCurrentProduct, RecentlyViewed.add.
    now destruct (truthy_string handle). }
  destruct productHandle as [handle|]; [|exists b, l; auto].
  destruct (String.eqb_spec handle "") as [->|Hne]; [exists b, l; auto|].
  unfold RecentlyViewed.trackCurrentProduct.
  rewrite (WishlistFacts.truthy_nonempty handle Hne).
  rewrite (RecentlyViewed_add_fronted b l handle Hl Hne).
  destruct (writable (localStorage b)) eqn:Hw.
  - eexists _, (fronted handle l).
    split; [now apply RecentlyViewed_save_written|].
    split; [apply listed_written; auto|]. split; [now apply fronted_tidy | exact Hadd].
  - destruct (RecentlyViewed_save_refused b (JArray (JString <$> fronted handle l))
                (or_intror Hw)) as (b' & Hsave & Hs).
    exists b', l. split; [exact Hsave|].
    split; [now apply (WishlistFacts.listed_same_storage JSON _ b)|]. auto.
Qed.

(** X18.  [clear] leaves an empty list, whatever was stored: [getAll]
    returns no handle and [count] reports 0.  When the browser refuses the
    storage, the storage stays as it was. *)
Theorem RecentlyViewed_clear_empties (b : Browser) :
  (readable (localStorage b) = true -> writable (localStorage b) = true ->
   faithful JSON [] ->
   exists b',
     RecentlyViewed.clear JSON b = (Normal tt, b')
     /\ listed JSON RecentlyViewed.STORAGE_KEY b' []
     /\ RecentlyViewed.getAll JSON b' = (Normal (JArray []), b')
     /\ RecentlyViewed.count JSON b' = (Normal (JNumber (Num 0)), b'))
  /\ (readable (localStorage b) = false \/ writable (localStorage b) = false ->
      exists b',
        RecentlyViewed.clear JSON b = (Normal tt, b')
        /\ localStorage b' = localStorage b).
Proof.
  split.
  - intros Hr Hw Hf. unfold RecentlyViewed.clear.
    change (JArray []) with (JArray (JString <$> [])).
    rewrite (RecentlyViewed_save_written b [] Hr Hw).
    assert (Hl : listed JSON RecentlyViewed.STORAGE_KEY
                   (written RecentlyViewed.STORAGE_KEY
                      (stringify JSON (JArray (JString <$> []))) b) [])
      by now apply listed_written.
    eexists. split; [reflexivity|]. split; [exact Hl|].
    pose proof (RecentlyViewed_getAll_listed JSON _ [] Hl) as Hget.
    split; [exact Hget|].
    unfold RecentlyViewed.count. now rewrite (bind_normal _ _ _ _ _ Hget).
  - apply RecentlyViewed_save_refused.
Qed.

End WithJson.
(** *** Examples *)

Lemma RecentlyViewed_track_then_exclude_witness :
  let b := holding RecentlyViewed.STORAGE_KEY ["a"; "b"; "c"] true in
  listed MiniJson.JSON RecentlyViewed.STORAGE_KEY b ["a"; "b"; "c"]
  /\ RecentlyViewed.getExcluding MiniJson.JSON "b" b
     = (Normal (JArray [JString "a"; JString "c"]), b)
  /\ exists b',
      RecentlyViewed.trackCurrentProduct MiniJson.JSON (Some "c") b = (Normal tt, b')
      /\ listed MiniJson.JSON RecentlyViewed.STORAGE_KEY b' ["c"; "a"; "b"]
      /\ RecentlyViewed.getExcluding MiniJson.JSON "c" b'
         = (Normal (JArray [JString "a"; JString "b"]), b').
Proof.
  cbv zeta.
  assert (Hl : listed MiniJson.JSON RecentlyViewed.STORAGE_KEY
                      (holding RecentlyViewed.STORAGE_KEY ["a"; "b"; "c"] true) ["a"; "b"; "c"])
    by (split; [reflexivity | vm_compute; reflexivity]).
  split; [exact Hl|].
  destruct (RecentlyViewed_track_then_exclude MiniJson.JSON _ _ "c" Hl) as (Hex & Htrack).
  split; [exact (proj1 (Hex "b"))|].
  destruct (Htrack ltac:(discriminate) eq_refl ltac:(split; vm_compute; reflexivity))
    as (b' & Hrun & Hlisted & Hrest).
  exists b'. split; [exact Hrun|]. split; [exact Hlisted | exact Hrest].
Defined.

Lemma RecentlyViewed_add_idempotent_witness :
  let b := holding RecentlyViewed.STORAGE_KEY ["a"; "b"; "c"] true in
  listed MiniJson.JSON RecentlyViewed.STORAGE_KEY b ["a"; "b"; "c"]
  /\ exists b',
      RecentlyViewed.add MiniJson.JSON "b" b = (Normal tt, b')
      /\ listed MiniJson.JSON RecentlyViewed.STORAGE_KEY b' ["b"; "a"; "c"]
      /\ RecentlyViewed.add MiniJson.JSON "b" b' = (Normal tt, b').
Proof.
  cbv zeta.
  assert (Hl : listed MiniJson.JSON RecentlyViewed.STORAGE_KEY
                      (holding RecentlyViewed.STORAGE_KEY ["a"; "b"; "c"] true) ["a"; "b"; "c"])
    by (split; [reflexivity | vm_compute; reflexivity]).
  split; [exact Hl|].
  exact (RecentlyViewed_add_idempotent MiniJson.JSON _ _ "b" Hl ltac:(discriminate) eq_refl
           ltac:(split; vm_compute; reflexivity)).
Defined.

Lemma twelve_tidy : tidy (take 12 fifty).
Proof.
  split; [|split].
  - apply (bool_decide_unpack (NoDup (take 12 fifty))). vm_compute. exact I.
  - apply not_in_decide. vm_compute. reflexivity.
  - vm_compute. lia.
Qed.

Lemma RecentlyViewed_stays_tidy_witness :
  let b := holding RecentlyViewed.STORAGE_KEY (take 12 fifty) true in
  listed MiniJson.JSON RecentlyViewed.STORAGE_KEY b (take 12 fifty)
  /\ tidy (take 12 fifty)
  /\ exists b' l',
      RecentlyViewed.trackCurrentProduct MiniJson.JSON (Some "p13") b = (Normal tt, b')
      /\ listed MiniJson.JSON RecentlyViewed.STORAGE_KEY b' l'
      /\ tidy l'.
Proof.
  cbv zeta.
  assert (Hl : listed MiniJson.JSON RecentlyViewed.STORAGE_KEY
                      (holding RecentlyViewed.STORAGE_KEY (take 12 fifty) true) (take 12 fifty))
    by (split; [reflexivity | vm_compute; reflexivity]).
  split; [exact Hl|]. split; [exact twelve_tidy|].
  destruct (RecentlyViewed_stays_tidy MiniJson.JSON _ _ (Some "p13") Hl twelve_tidy)
    as (b' & l' & Hrun & Hlisted & Htidy & _).
  { intros handle [= <-]. split; vm_compute; reflexivity. }
  exists b', l'. split; [exact Hrun|]. split; [exact Hlisted | exact Htidy].
Defined.

Lemma RecentlyViewed_clear_empties_witness :
  let b := holding RecentlyViewed.STORAGE_KEY ["a"; "b"; "c"] true in
  exists b',
    RecentlyViewed.clear MiniJson.JSON b = (Normal tt, b')
    /\ RecentlyViewed.count MiniJson.JSON b' = (Normal (JNumber (Num 0)), b').
Proof.
  cbv zeta.
  destruct (proj1 (RecentlyViewed_clear_empties MiniJson.JSON
                     (holding RecentlyViewed.STORAGE_KEY ["a"; "b"; "c"] true))
              eq_refl eq_refl ltac:(split; vm_compute; reflexivity))
    as (b' & Hrun & _ & _ & Hcount).
  exists b'. split; assumption.
Defined.

End RecentFacts.

(** ** Cookie consent *)

Module ConsentFacts.
Import StorageSpec StorageFacts CookieConsent ConsentSpec.

(** One [_activateScript]: the element is marked unless it was already,
    and no other element changes. *)
Lemma _activateScript_scripts (i : nat) (pg : Page) :
  scripts (_activateScript i pg)
  = match scripts pg !! i with
    | Some script => if is_activated script then scripts pg
                     else <[i := mark script]> (scripts pg)
    | None => scripts pg
    end.
Proof.
  unfold _activateScript, is_activated, mark.
  destruct (scripts pg !! i) as [script|]; [|reflexivity].
  destruct (truthy_opt (activated script)); [reflexivity|].
  destruct pg as [b bn cp sc ins ev ac mc pc pp bd]. simpl.
  destruct (data_src script) as [src|]; [destruct (truthy_string src)|];
    try destruct (truthy_string (inline script)); reflexivity.
Qed.

Lemma _activateScript_activated (i : nat) (pg : Page) (script : Script) :
  scripts pg !! i = Some script -> is_activated script = true ->
  _activateScript i pg = pg.
Proof.
  intros Hs Ha. unfold _activateScript, is_activated in *. now rewrite Hs, Ha.
Qed.

Lemma _activateScript_frame (i : nat) (pg : Page) :
  browser (_activateScript i pg) = browser pg
  /\ banner (_activateScript i pg) = banner pg
  /\ customerPrivacy (_activateScript i pg) = customerPrivacy pg
  /\ bound (_activateScript i pg) = bound pg.
Proof.
  unfold _activateScript.
  destruct (scripts pg !! i) as [script|]; [|auto].
  destruct (truthy_opt (activated script)); [auto|].
  destruct pg as [b bn cp sc ins ev ac mc pc pp bd]. simpl.
  destruct (data_src script) as [src|]; [destruct (truthy_string src)|];
    try destruct (truthy_string (inline script)); auto.
Qed.

Lemma _activateScript_lookup (i : nat) (pg : Page) (j : nat) :
  scripts (_activateScript i pg) !! j
  = ((fun script => if bool_decide (j = i) && negb (is_activated script)
                    then mark script else script) <$> scripts pg !! j).
Proof.
  rewrite _activateScript_scripts.
  destruct (scripts pg !! i) as [si|] eqn:Hi.
  - destruct (is_activated si) eqn:Ha.
    + destruct (scripts pg !! j) as [sj|] eqn:Hj; simpl; [|reflexivity].
      f_equal. case_bool_decide; [|reflexivity]. subst j.
      rewrite Hi in Hj. injection Hj as <-. now rewrite Ha.
    + destruct (decide (j = i)) as [->|Hne].
      * rewrite list_lookup_insert_eq by (eapply lookup_lt_Some, Hi). rewrite Hi. simpl.
        rewrite Ha. now rewrite bool_decide_eq_true_2.
      * rewrite list_lookup_insert_ne by congruence.
        destruct (scripts pg !! j) as [sj|]; simpl; [|reflexivity].
        now rewrite bool_decide_eq_false_2.
  - destruct (scripts pg !! j) as [sj|] eqn:Hj; simpl; [|reflexivity].
    f_equal. case_bool_decide; [|reflexivity]. congruence.
Qed.

(** A run of [_activateScript] over some positions. *)
Lemma activate_all_lookup (positions : list nat) (pg : Page) (j : nat) :
  scripts (foldl (fun pg i => _activateScript i pg) pg positions) !! j
  = ((fun script => if bool_decide (j ∈ positions) && negb (is_activated script)
                    then mark script else script) <$> scripts pg !! j).
Proof.
  revert pg. induction positions as [|i positions IH]; intros pg; simpl.
  - destruct (scripts pg !! j); reflexivity.
  - rewrite IH, _activateScript_lookup.
    destruct (scripts pg !! j) as [sj|]; simpl; [|reflexivity]. f_equal.
    destruct (is_activated sj) eqn:Ha; simpl.
    + rewrite !andb_false_r. simpl. now rewrite Ha, !andb_false_r.
    + rewrite !andb_true_r. repeat case_bool_decide; simpl; rewrite ?Ha, ?andb_true_r;
        try reflexivity; rewrite elem_of_cons in *; tauto.
Qed.

Lemma activate_all_frame (positions : list nat) (pg : Page) :
  browser (foldl (fun pg i => _activateScript i pg) pg positions) = browser pg
  /\ banner (foldl (fun pg i => _activateScript i pg) pg positions) = banner pg
  /\ customerPrivacy (foldl (fun pg i => _activateScript i pg) pg positions)
     = customerPrivacy pg
  /\ bound (foldl (fun pg i => _activateScript i pg) pg positions) = bound pg.
Proof.
  revert pg. induction positions as [|i positions IH]; intros pg; simpl; [auto|].
  destruct (IH (_activateScript i pg)) as (H1 & H2 & H3 & H4).
  destruct (_activateScript_frame i pg) as (H5 & H6 & H7 & H8).
  rewrite H1, H2, H3, H4. auto.
Qed.

(** When every element at the positions is activated already, the run
    changes nothing. *)
Lemma activate_all_done (positions : list nat) (pg : Page) :
  Forall (fun i => forall script, scripts pg !! i = Some script -> is_activated script = true)
         positions ->
  foldl (fun pg i => _activateScript i pg) pg positions = pg.
Proof.
  induction 1 as [|i positions Hi Hrest IH]; simpl; [reflexivity|].
  assert (Hsame : _activateScript i pg = pg).
  { destruct (scripts pg !! i) as [script|] eqn:Hs.
    - apply (_activateScript_activated i pg script Hs). now apply Hi.
    - unfold _activateScript. now rewrite Hs. }
  now rewrite Hsame.
Qed.

(** The positions [activate_category] runs over. *)
Lemma selected_spec (name : string) (pg : Page) (j : nat) :
  j ∈ List.filter (fun i => match scripts pg !! i with
                            | Some script => String.eqb (category script) name
                            | None => false
                            end)
                  (seq 0 (length (scripts pg)))
  <-> exists script, scripts pg !! j = Some script /\ category script = name.
Proof.
  rewrite list_elem_of_In, List.filter_In, <- list_elem_of_In, elem_of_seq. split.
  - intros [_ H]. destruct (scripts pg !! j) as [script|]; [|discriminate].
    exists script. split; [reflexivity|]. now apply String.eqb_eq.
  - intros (script & Hs & Hc). rewrite Hs. split.
    + apply lookup_lt_Some in Hs. lia.
    + now apply String.eqb_eq.
Qed.

(** [activate_category] marks the elements of the category that are not
    activated yet, and no other element. *)
Lemma activate_category_lookup (name : string) (pg : Page) (j : nat) :
  scripts (activate_category name pg) !! j
  = ((fun script => if String.eqb (category script) name && negb (is_activated script)
                    then mark script else script) <$> scripts pg !! j).
Proof.
  unfold activate_category. rewrite activate_all_lookup.
  destruct (scripts pg !! j) as [script|] eqn:Hs; simpl; [|reflexivity].
  f_equal. destruct (String.eqb_spec (category script) name) as [Hc|Hc].
  - rewrite bool_decide_eq_true_2; [reflexivity|]. apply selected_spec. eauto.
  - rewrite bool_decide_eq_false_2; [reflexivity|]. rewrite selected_spec.
    intros (script' & Hs' & Hc'). congruence.
Qed.


Lemma activate_category_frame (name : string) (pg : Page) :
  browser (activate_category name pg) = browser pg
  /\ banner (activate_category name pg) = banner pg
  /\ customerPrivacy (activate_category name pg) = customerPrivacy pg
  /\ bound (activate_category name pg) = bound pg.
Proof. apply activate_all_frame. Qed.

Lemma browser_set_browser (b : Browser) (pg : Page) : browser (set_browser b pg) = b.
Proof. now destruct pg. Qed.

Lemma set_browser_set_browser (b b' : Browser) (pg : Page) :
  set_browser b' (set_browser b pg) = set_browser b' pg.
Proof. now destruct pg. Qed.

Lemma set_browser_frame (b : Browser) (pg : Page) :
  banner (set_browser b pg) = banner pg
  /\ customerPrivacy (set_browser b pg) = customerPrivacy pg
  /\ loaded (set_browser b pg) = loaded pg
  /\ bound (set_browser b pg) = bound pg.
Proof. now destruct pg. Qed.

(** Activation does not look at the storage. *)
Lemma _activateScript_set_browser (i : nat) (b : Browser) (pg : Page) :
  _activateScript i (set_browser b pg) = set_browser b (_activateScript i pg).
Proof.
  unfold _activateScript. destruct pg as [b0 bn cp sc ins ev ac mc pc pp bd]. simpl.
  destruct (sc !! i) as [script|]; [|reflexivity].
  destruct (truthy_opt (activated script)); [reflexivity|].
  destruct (data_src script) as [src|]; [destruct (truthy_string src)|];
    try destruct (truthy_string (inline script)); reflexivity.
Qed.

Lemma activate_category_set_browser (name : string) (b : Browser) (pg : Page) :
  activate_category name (set_browser b pg) = set_browser b (activate_category name pg).
Proof.
  unfold activate_category.
  assert (Hsc : scripts (set_browser b pg) = scripts pg) by now destruct pg.
  rewrite Hsc. generalize (List.filter
    (fun i => match scripts pg !! i with
              | Some script => String.eqb (category script) name
              | None => false
              end) (seq 0 (length (scripts pg)))).
  intros positions. revert pg Hsc.
  induction positions as [|i positions IH]; intros pg Hsc; simpl; [reflexivity|].
  rewrite _activateScript_set_browser. apply IH. now destruct (_activateScript i pg).
Qed.

Lemma exec_storage {A : Type} (m : M A) (k : A -> Proc Page) (s : Loop Page) :
  exec (storage m k) s
  = match m (browser (page s)) with
    | (Normal a, b) =>
        exec (k a) {| page := set_browser b (page s); pending := pending s; sent := sent s;
                      unhandled := unhandled s |}
    | (Thrown e, b) =>
        {| page := set_browser b (page s); pending := pending s; sent := sent s;
           unhandled := (unhandled s ++ [e])%list |}
    end.
Proof.
  unfold storage. rewrite exec_Read. now destruct (m (browser (page s))) as [[a|e] b].
Qed.

Section WithJson.

Variable JSON : Json.

Lemma getConsent_returns (b : Browser) : exists v, getConsent JSON b = (Normal v, b).
Proof.
  unfold getConsent, try_, bind, getItem, lift, ret.
  destruct (readable (localStorage b)); [|eauto].
  destruct (entries (localStorage b) !! (STORAGE_KEY ++ "_details")) as [details|]; [|eauto].
  destruct (truthy_string details); [|eauto].
  destruct (parse JSON details); eauto.
Qed.

Lemma consented_iff (b : Browser) (v : JsValue) (name : string) :
  getConsent JSON b = (Normal v, b) ->
  consented JSON name b <-> exists x, get_prop v name = Normal x /\ truthy x = true.
Proof.
  intros Hg. unfold consented, hasConsent. rewrite (bind_normal _ _ _ _ _ Hg).
  unfold bind, lift, ret. destruct (get_prop v name) as [x|e]; simpl.
  - split.
    + intros (y & Hy & Ht). exists x. split; [reflexivity|].
      destruct (truthy x); [reflexivity|]. injection Hy as <-. discriminate.
    + intros (y & [= <-] & Ht). exists x. now rewrite Ht.
  - split; [intros (y & Hy & _); discriminate | intros (y & Hy & _); discriminate].
Qed.

(** The browser after [document.dispatchEvent]. *)
Lemma dispatchEvent_runs (type : string) (detail : JsValue) (b : Browser) :
  exists b',
    dispatchEvent type detail b = (Normal tt, b')
    /\ localStorage b' = localStorage b
    /\ dispatched b' = (dispatched b ++ [(type, detail)])%list.
Proof. eexists. split; [reflexivity|]. split; reflexivity. Qed.

(** What a call of [_loadTrackingScripts] does, by the value [getConsent]
    returns. *)
Lemma exec_loadTrackingScripts (s : Loop Page) (v : JsValue) (k : Proc Page) :
  getConsent JSON (browser (page s)) = (Normal v, browser (page s)) ->
  exists b',
    localStorage b' = localStorage (browser (page s))
    /\ dispatched b' = (dispatched (browser (page s)) ++ [("cookie:load-scripts", v)])%list
    /\ exec (_loadTrackingScripts JSON k) s
       = match get_prop v "analytics" with
         | Thrown e =>
             {| page := set_browser b' (page s); pending := pending s; sent := sent s;
                unhandled := (unhandled s ++ [e])%list |}
         | Normal a =>
             let pg1 := (if truthy a then activate_category "analytics" else fun pg => pg)
                          (page s) in
             match get_prop v "marketing" with
             | Thrown e =>
                 {| page := set_browser b' pg1; pending := pending s; sent := sent s;
                    unhandled := (unhandled s ++ [e])%list |}
             | Normal m =>
                 exec k {| page := set_browser b'
                                     ((if truthy m then activate_category "marketing"
                                       else fun pg => pg) pg1);
                           pending := pending s; sent := sent s; unhandled := unhandled s |}
             end
         end.
Proof.
  intros Hg. destruct (dispatchEvent_runs "cookie:load-scripts" v (browser (page s)))
    as (b' & Hd & Hs & Hdd).
  exists b'. split; [exact Hs|]. split; [exact Hdd|].
  unfold _loadTrackingScripts. rewrite exec_storage, Hg, exec_storage.
  cbn [page]. rewrite browser_set_browser, Hd.
  destruct (get_prop v "analytics") as [a|e]; cbn [exec page pending sent unhandled].
  - destruct (get_prop v "marketing") as [m|e]; cbn [exec page pending sent unhandled].
    + f_equal. f_equal. destruct (truthy a), (truthy m);
        rewrite ?activate_category_set_browser, ?set_browser_set_browser; reflexivity.
    + f_equal. destruct (truthy a);
        rewrite ?activate_category_set_browser, ?set_browser_set_browser; reflexivity.
  - now rewrite set_browser_set_browser.
Qed.


Lemma getConsent_same_storage (b b' : Browser) (v : JsValue) :
  getConsent JSON b = (Normal v, b) -> localStorage b' = localStorage b ->
  getConsent JSON b' = (Normal v, b').
Proof.
  unfold getConsent, try_, bind, getItem, lift, ret. intros Hg ->.
  destruct (readable (localStorage b)); [|congruence].
  destruct (entries (localStorage b) !! (STORAGE_KEY ++ "_details")) as [details|];
    [|congruence].
  destruct (truthy_string details); [|congruence].
  destruct (parse JSON details); congruence.
Qed.

Lemma tracked_cases (name : string) :
  tracked name = true <-> name = "analytics" \/ name = "marketing".
Proof.
  unfold tracked. rewrite orb_true_iff, !String.eqb_eq. tauto.
Qed.

(** The two activations of [_loadTrackingScripts] on one element. *)
Lemma load_lookup (a m : bool) (pg : Page) (i : nat) :
  scripts ((if m then activate_category "marketing" else fun pg => pg)
             ((if a then activate_category "analytics" else fun pg => pg) pg)) !! i
  = ((fun script => if negb (is_activated script)
                       && ((a && String.eqb (category script) "analytics")
                           || (m && String.eqb (category script) "marketing"))
                    then mark script else script) <$> scripts pg !! i).
Proof.
  assert (H1 : scripts ((if a then activate_category "analytics" else fun pg => pg) pg) !! i
               = ((fun script => if negb (is_activated script)
                                    && (a && String.eqb (category script) "analytics")
                                 then mark script else script) <$> scripts pg !! i)).
  { destruct a.
    - rewrite activate_category_lookup. destruct (scripts pg !! i) as [script|]; simpl;
        [|reflexivity]. now rewrite andb_comm.
    - destruct (scripts pg !! i) as [script|]; simpl; [|reflexivity].
      now rewrite andb_false_r. }
  destruct m.
  - rewrite activate_category_lookup, H1.
    destruct (scripts pg !! i) as [script|]; simpl; [|reflexivity]. f_equal.
    destruct (is_activated script) eqn:Hact; simpl; [now rewrite Hact, andb_false_r|].
    destruct (a && String.eqb (category script) "analytics") eqn:Ha; simpl.
    + now rewrite andb_false_r.
    + rewrite Hact. now rewrite andb_true_r.
  - rewrite H1. destruct (scripts pg !! i) as [script|]; simpl; [|reflexivity].
    now rewrite orb_false_r.
Qed.

(** With every element of a category activated, [activate_category]
    changes nothing. *)
Lemma activate_category_settled (name : string) (pg : Page) :
  (forall j script, scripts pg !! j = Some script -> category script = name ->
                    is_activated script = true) ->
  activate_category name pg = pg.
Proof.
  intros Hall. unfold activate_category. apply activate_all_done.
  apply Forall_forall. intros j Hj script Hs.
  apply selected_spec in Hj as (script' & Hs' & Hc).
  rewrite Hs in Hs'. injection Hs' as <-. now apply (Hall j).
Qed.

(** X20.  [_loadTrackingScripts] activates a script element exactly
    when it is not activated yet, its category is analytics or marketing and
    [hasConsent] reports consent to that category; every other element stays
    as it is, and with consent to neither category nothing is marked,
    appended or evaluated.  Inline code handed to [eval] is taken to run
    without an error of its own. *)
Theorem scripts_load_only_with_consent (pg : Page) (i : nat) (script : Script) :
  scripts pg !! i = Some script ->
  let s := exec (_loadTrackingScripts JSON Done) (idle pg) in
  (is_activated script = false -> tracked (category script) = true ->
   consented JSON (category script) (browser pg) ->
   scripts (page s) !! i = Some (mark script) /\ unhandled s = [])
  /\ (is_activated script = true \/ tracked (category script) = false
      \/ ~ consented JSON (category script) (browser pg) ->
      scripts (page s) !! i = Some script)
  /\ (~ consented JSON "analytics" (browser pg) ->
      ~ consented JSON "marketing" (browser pg) ->
      loaded (page s) = loaded pg).
Proof.
  intros Hs. cbv zeta.
  destruct (getConsent_returns (browser pg)) as (v & Hg).
  destruct (exec_loadTrackingScripts (idle pg) v Done Hg) as (b' & Hst & Hd & Hexec).
  rewrite Hexec. clear Hexec. change (page (idle pg)) with pg.
  pose proof (consented_iff (browser pg) v "analytics" Hg) as Hca.
  pose proof (consented_iff (browser pg) v "marketing" Hg) as Hcm.
  pose proof (consented_iff (browser pg) v (category script) Hg) as Hc.
  destruct (get_prop v "analytics") as [a|e] eqn:Ha.
  - assert (Hm : exists m, get_prop v "marketing" = Normal m).
    { destruct v; simpl in Ha |- *; try discriminate; eauto. }
    destruct Hm as (m & Hm). rewrite Hm in *. cbn [exec page unhandled].
    assert (Hl : forall p, scripts (set_browser b' p) = scripts p) by (intros p; now destruct p).
    rewrite Hl, (load_lookup (truthy a) (truthy m) pg i), Hs. cbn [fmap option_fmap option_map].
    split; [|split].
    + intros Hact Htr Hcons. split; [|reflexivity]. rewrite Hact. simpl.
      apply tracked_cases in Htr as [Hcat|Hcat]; rewrite Hcat in *.
      * apply Hca in Hcons as (x & [= <-] & Hx). now rewrite Hx.
      * apply Hcm in Hcons as (x & [= <-] & Hx). rewrite Hx. simpl. now rewrite orb_true_r.
    + intros [Hact|[Htr|Hcons]].
      * now rewrite Hact.
      * unfold tracked in Htr. apply orb_false_iff in Htr as [H1 H2].
        now rewrite H1, H2, !andb_false_r.
      * destruct (String.eqb_spec (category script) "analytics") as [Hcat|_].
        -- rewrite Hcat in *. destruct (truthy a) eqn:Hx; [exfalso; apply Hcons, Hca; eauto|].
           destruct (is_activated script), (truthy m); reflexivity.
        -- destruct (String.eqb_spec (category script) "marketing") as [Hcat|_].
           ++ rewrite Hcat in *.
              destruct (truthy m) eqn:Hx; [exfalso; apply Hcons, Hcm; eauto|].
              destruct (is_activated script), (truthy a); reflexivity.
           ++ destruct (is_activated script), (truthy a), (truthy m); reflexivity.
    + intros Hna Hnm.
      destruct (truthy a) eqn:Hx; [exfalso; apply Hna, Hca; eauto|].
      destruct (truthy m) eqn:Hy; [exfalso; apply Hnm, Hcm; eauto|].
      now destruct pg.
  - cbn [page unhandled].
    assert (Hl : forall p, scripts (set_browser b' p) = scripts p) by (intros p; now destruct p).
    rewrite Hl, Hs. split; [|split].
    + intros Hact Htr Hcons. exfalso. apply Hc in Hcons as (x & Hx & _).
      destruct v; simpl in Ha, Hx; discriminate.
    + reflexivity.
    + intros _ _. now destruct pg.
Qed.


(** X21.  A second [_loadTrackingScripts] finds the scripts of the
    consented categories activated: it marks nothing, appends nothing and
    evaluates nothing. *)
Theorem scripts_load_once (pg : Page) :
  let s1 := exec (_loadTrackingScripts JSON Done) (idle pg) in
  let s2 := exec (_loadTrackingScripts JSON Done) s1 in
  loaded (page s2) = loaded (page s1).
Proof.
  cbv zeta.
  destruct (getConsent_returns (browser pg)) as (v & Hg).
  destruct (exec_loadTrackingScripts (idle pg) v Done Hg) as (b1 & Hst1 & _ & Hexec1).
  change (page (idle pg)) with pg in *.
  set (s1 := exec (_loadTrackingScripts JSON Done) (idle pg)) in *.
  assert (Hb1 : browser (page s1) = b1).
  { rewrite Hexec1. destruct (get_prop v "analytics"); [destruct (get_prop v "marketing")|];
      cbn [exec page]; apply browser_set_browser. }
  assert (Hg1 : getConsent JSON (browser (page s1)) = (Normal v, browser (page s1))).
  { rewrite Hb1. now apply (getConsent_same_storage (browser pg)). }
  destruct (exec_loadTrackingScripts s1 v Done Hg1) as (b2 & _ & _ & Hexec2).
  rewrite Hexec2. clear Hexec2.
  assert (Hl : forall b p, loaded (set_browser b p) = loaded p) by (intros b p; now destruct p).
  destruct (get_prop v "analytics") as [a|e] eqn:Ha; [|cbn [page]; apply Hl].
  destruct (get_prop v "marketing") as [m|e] eqn:Hm.
  - cbn [exec page]. rewrite Hl.
    set (P := page s1).
    assert (HP : forall j script, scripts P !! j = Some script ->
                   (truthy a = true -> category script = "analytics" ->
                    is_activated script = true)
                   /\ (truthy m = true -> category script = "marketing" ->
                       is_activated script = true)).
    { intros j script Hj. subst P. rewrite Hexec1 in Hj. cbn [exec page] in Hj.
      assert (Hsc : forall b p, scripts (set_browser b p) = scripts p)
        by (intros b p; now destruct p).
      rewrite Hsc, load_lookup in Hj.
      destruct (scripts pg !! j) as [s0|]; [|discriminate]. simpl in Hj. injection Hj as <-.
      split; intros Ht Hc; rewrite Ht in *; simpl in *.
      - destruct (is_activated s0) eqn:Hact; simpl in *; [exact Hact|].
        destruct (String.eqb_spec (category s0) "analytics") as [_|Hn]; simpl in *;
          [reflexivity|].
        destruct (truthy m && String.eqb (category s0) "marketing"); simpl in *;
          [reflexivity | contradiction].
      - destruct (is_activated s0) eqn:Hact; simpl in *; [exact Hact|].
        destruct (String.eqb_spec (category s0) "marketing") as [_|Hn]; simpl in *.
        + rewrite orb_true_r in *. reflexivity.
        + rewrite orb_false_r in *.
          destruct (truthy a && String.eqb (category s0) "analytics"); simpl in *;
            [reflexivity | contradiction]. }
    assert (H1 : (if truthy a then activate_category "analytics" else fun pg => pg) P = P).
    { destruct (truthy a) eqn:Hta; [|reflexivity]. apply activate_category_settled.
      intros j script Hj Hc. now apply (proj1 (HP j script Hj)). }
    rewrite H1.
    assert (H2 : (if truthy m then activate_category "marketing" else fun pg => pg) P = P).
    { destruct (truthy m) eqn:Htm; [|reflexivity]. apply activate_category_settled.
      intros j script Hj Hc. now apply (proj2 (HP j script Hj)). }
    now rewrite H2.
  - exfalso. destruct v; simpl in Ha, Hm; discriminate.
Qed.


(** *** Storing a consent *)

Lemma exec_setConsent (s : Loop Page) (consent : Consent) (k : Proc Page) :
  readable (localStorage (browser (page s))) = true ->
  writable (localStorage (browser (page s))) = true ->
  exec (_setConsent JSON consent k) s
  = exec k {| page := set_browser (decided JSON consent (browser (page s)))
                                  (told consent (page s));
              pending := pending s; sent := sent s; unhandled := unhandled s |}.
Proof.
  intros Hr Hw. unfold _setConsent. fold (decision consent).
  rewrite exec_storage, (setItem_written _ _ _ Hr Hw). rewrite exec_storage. cbn [page].
  rewrite browser_set_browser.
  rewrite (setItem_written _ _ (written STORAGE_KEY (decision consent) (browser (page s)))
             Hr Hw).
  cbn [exec page pending sent unhandled]. rewrite exec_storage. cbn [page].
  f_equal. unfold told, decided. destruct (page s) as [b bn cp sc ins ev ac mc pc pp bd].
  simpl. destruct cp; reflexivity.
Qed.

Lemma exec_setConsent_refused (s : Loop Page) (consent : Consent) (k : Proc Page) :
  readable (localStorage (browser (page s))) = false
  \/ writable (localStorage (browser (page s))) = false ->
  exists e,
    exec (_setConsent JSON consent k) s
    = {| page := page s; pending := pending s; sent := sent s;
         unhandled := (unhandled s ++ [e])%list |}.
Proof.
  intros H. unfold _setConsent. rewrite exec_storage. unfold setItem at 1.
  assert (Hsame : set_browser (browser (page s)) (page s) = page s) by now destruct (page s).
  destruct (readable (localStorage (browser (page s)))) eqn:Hr; simpl.
  - destruct H as [H|H]; [discriminate|]. rewrite H. simpl. rewrite Hsame. eauto.
  - rewrite Hsame. eauto.
Qed.

Lemma decided_storage (consent : Consent) (b : Browser) :
  readable (localStorage (decided JSON consent b)) = readable (localStorage b)
  /\ writable (localStorage (decided JSON consent b)) = writable (localStorage b)
  /\ entries (localStorage (decided JSON consent b)) !! STORAGE_KEY = Some (decision consent)
  /\ entries (localStorage (decided JSON consent b)) !! (STORAGE_KEY ++ "_details")
     = Some (stringify JSON (to_object consent)).
Proof.
  unfold decided, written. simpl. split; [reflexivity|]. split; [reflexivity|]. split.
  - rewrite lookup_insert_ne by discriminate. apply lookup_insert_eq.
  - apply lookup_insert_eq.
Qed.

(** What is read back from a browser that holds a consent. *)
Lemma getConsent_decided (consent : Consent) (b : Browser) :
  readable (localStorage b) = true ->
  entries (localStorage b) !! (STORAGE_KEY ++ "_details")
  = Some (stringify JSON (to_object consent)) ->
  reads_back JSON (to_object consent) ->
  getConsent JSON b = (Normal (to_object consent), b).
Proof.
  intros Hr He [Ht Hp]. unfold getConsent, try_, bind, getItem, lift, ret.
  now rewrite Hr, He, Ht, Hp.
Qed.

Lemma hasConsent_decided (consent : Consent) (b : Browser) :
  getConsent JSON b = (Normal (to_object consent), b) ->
  hasConsent JSON "analytics" b = (Normal (JBool (analytics consent)), b)
  /\ hasConsent JSON "marketing" b = (Normal (JBool (marketing consent)), b)
  /\ hasConsent JSON "preferences" b = (Normal (JBool (preferences consent)), b).
Proof.
  intros Hg. unfold hasConsent. rewrite !(bind_normal _ _ _ _ _ Hg).
  unfold bind, lift, ret. simpl.
  destruct (analytics consent), (marketing consent), (preferences consent); auto.
Qed.

(** X19.  What [_setConsent] stores is what [getConsent] and
    [hasConsent] read back, category by category, and the stored decision is
    accepted exactly when analytics or marketing is consented to.  The
    [cookie:consent] event is dispatched, the privacy API (when the page has
    it) is handed the consent, and neither the banner nor any script is
    touched. *)
Theorem setConsent_round_trip (pg : Page) (consent : Consent) :
  readable (localStorage (browser pg)) = true ->
  writable (localStorage (browser pg)) = true ->
  reads_back JSON (to_object consent) ->
  let s := exec (_setConsent JSON consent Done) (idle pg) in
  let b := browser (page s) in
  unhandled s = [] /\ pending s = []
  /\ getConsent JSON b = (Normal (to_object consent), b)
  /\ hasConsent JSON "analytics" b = (Normal (JBool (analytics consent)), b)
  /\ hasConsent JSON "marketing" b = (Normal (JBool (marketing consent)), b)
  /\ hasConsent JSON "preferences" b = (Normal (JBool (preferences consent)), b)
  /\ entries (localStorage b) !! STORAGE_KEY
     = Some (if analytics consent || marketing consent then "accepted" else "rejected")
  /\ dispatched b = (dispatched (browser pg) ++ [("cookie:consent", to_object consent)])%list
  /\ (tracking_consent <$> customerPrivacy (page s))
     = ((fun p => tracking_consent p ++ [to_object consent])%list <$> customerPrivacy pg)
  /\ banner (page s) = banner pg
  /\ loaded (page s) = loaded pg.
Proof.
  intros Hr Hw Hrb. cbv zeta. rewrite (exec_setConsent (idle pg)) by assumption.
  cbn [exec page idle pending unhandled]. rewrite browser_set_browser.
  destruct (decided_storage consent (browser pg)) as (Hr' & Hw' & Hk & Hd).
  assert (Hg : getConsent JSON (decided JSON consent (browser pg))
               = (Normal (to_object consent), decided JSON consent (browser pg))).
  { apply getConsent_decided; [now rewrite Hr' | exact Hd | exact Hrb]. }
  destruct (hasConsent_decided consent _ Hg) as (Ha & Hm & Hp).
  repeat (split; [first [reflexivity | assumption]|]).
  unfold told. destruct pg as [b bn cp sc ins ev ac mc pc pp bd]. simpl.
  destruct cp; simpl; auto.
Qed.


(** *** The choices of the banner *)

Lemma exec_with_banner (f : Banner -> Banner) (k : Proc Page) (s : Loop Page) (bnr : Banner) :
  banner (page s) = Some bnr ->
  exec (with_banner f k) s
  = exec k {| page := set_banner (f bnr) (page s); pending := pending s; sent := sent s;
              unhandled := unhandled s |}.
Proof. intros Hb. unfold with_banner. now rewrite exec_Read, Hb. Qed.

Lemma set_banner_frame (v : Banner) (pg : Page) :
  browser (set_banner v pg) = browser pg /\ banner (set_banner v pg) = Some v
  /\ scripts (set_banner v pg) = scripts pg /\ loaded (set_banner v pg) = loaded pg
  /\ bound (set_banner v pg) = bound pg.
Proof. now destruct pg. Qed.

(** [_loadTrackingScripts] in a browser that holds a consent. *)
Lemma load_applies (s : Loop Page) (consent : Consent) :
  getConsent JSON (browser (page s)) = (Normal (to_object consent), browser (page s)) ->
  let s' := exec (_loadTrackingScripts JSON Done) s in
  unhandled s' = unhandled s /\ pending s' = pending s
  /\ banner (page s') = banner (page s)
  /\ bound (page s') = bound (page s)
  /\ localStorage (browser (page s')) = localStorage (browser (page s))
  /\ (forall i, scripts (page s') !! i = (loaded_under consent <$> scripts (page s) !! i)).
Proof.
  intros Hg. cbv zeta.
  destruct (exec_loadTrackingScripts s (to_object consent) Done Hg) as (b' & Hst & _ & Hexec).
  rewrite Hexec. simpl. rewrite browser_set_browser.
  set (P := (if marketing consent then activate_category "marketing" else fun pg => pg)
              ((if analytics consent then activate_category "analytics" else fun pg => pg)
                 (page s))).
  assert (HP : banner P = banner (page s) /\ bound P = bound (page s)).
  { subst P. destruct (marketing consent), (analytics consent);
      repeat match goal with
             | |- context [activate_category ?n ?p] =>
                 destruct (activate_category_frame n p) as (_ & -> & _ & ->)
             end; auto. }
  destruct HP as [HP1 HP2].
  destruct (set_browser_frame b' P) as (H1 & _ & _ & H4).
  rewrite H1, H4, HP1, HP2. repeat split; try assumption.
  intros i. assert (Hsc : scripts (set_browser b' P) = scripts P) by now destruct P.
  rewrite Hsc. subst P. apply load_lookup.
Qed.

Lemma loaded_under_none (consent : Consent) (script : Script) :
  analytics consent || marketing consent = false -> loaded_under consent script = script.
Proof.
  intros H. unfold loaded_under. apply orb_false_iff in H as [-> ->]. simpl.
  now rewrite andb_false_r.
Qed.

(** A choice applied to a page with the banner [bnr]: the consent is
    stored, the banner loses its class at once and is taken away when its
    timer fires, and each element is left as a load under the consent leaves
    it. *)
Lemma choice_applied (pg : Page) (bnr : Banner) (consent : Consent)
    (after : Page -> Page) (rest k : Proc Page) :
  readable (localStorage (browser pg)) = true ->
  writable (localStorage (browser pg)) = true ->
  banner pg = Some bnr ->
  reads_back JSON (to_object consent) ->
  (forall p, browser (after p) = browser p /\ banner (after p) = banner p
             /\ scripts (after p) = scripts p /\ bound (after p) = bound p) ->
  (forall s, exec rest s = exec k {| page := after (page s); pending := pending s;
                                    sent := sent s; unhandled := unhandled s |}) ->
  (k = _loadTrackingScripts JSON Done
   \/ (k = Done /\ analytics consent || marketing consent = false)) ->
  let s := exec (_setConsent JSON consent (_hideBanner rest)) (idle pg) in
  unhandled s = []
  /\ banner (page s) = Some (hiding bnr)
  /\ (op <$> pending s) = [Timeout 300]
  /\ (forall env,
         pending (settle 0 env s) = [] /\ unhandled (settle 0 env s) = []
         /\ banner (page (settle 0 env s)) = Some (hidden (hiding bnr))
         /\ scripts (page (settle 0 env s)) = scripts (page s))
  /\ (forall i, scripts (page s) !! i = (loaded_under consent <$> scripts pg !! i))
  /\ getConsent JSON (browser (page s)) = (Normal (to_object consent), browser (page s))
  /\ entries (localStorage (browser (page s))) !! STORAGE_KEY = Some (decision consent).
Proof.
  intros Hr Hw Hb Hrb Hafter Hrest Hk. cbv zeta.
  rewrite (exec_setConsent (idle pg)) by assumption. cbn [page idle pending sent unhandled].
  set (pg1 := set_browser (decided JSON consent (browser pg)) (told consent pg)).
  assert (H1 : browser pg1 = decided JSON consent (browser pg) /\ banner pg1 = Some bnr
               /\ scripts pg1 = scripts pg).
  { subst pg1. unfold told. destruct pg as [b bn cp sc ins ev ac mc pc pp bd]. simpl in *.
    destruct cp; auto. }
  destruct H1 as (Hb1 & Hbn1 & Hsc1).
  unfold _hideBanner. rewrite (exec_with_banner _ _ _ bnr) by exact Hbn1.
  cbn [page pending sent unhandled]. fold (hiding bnr).
  destruct (set_banner_frame (hiding bnr) pg1) as (Hb2 & Hbn2 & Hsc2 & _ & _).
  set (pg2 := set_banner (hiding bnr) pg1) in *.
  unfold setTimeout. cbn [exec page pending sent unhandled app requests_of].
  rewrite Hrest. cbn [page pending sent unhandled].
  destruct (Hafter pg2) as (Hb3 & Hbn3 & Hsc3 & _).
  set (pg3 := after pg2) in *.
  destruct (decided_storage consent (browser pg)) as (Hr' & Hw' & Hkey & Hd).
  assert (Hg : getConsent JSON (browser pg3) = (Normal (to_object consent), browser pg3)).
  { rewrite Hb3, Hb2, Hb1. apply getConsent_decided; [now rewrite Hr' | exact Hd | exact Hrb]. }
  set (timer := {| op := Timeout 300;
                   resume := fun _ : Settled (Result (Timeout 300)) =>
                     with_banner (fun b => {| display := "none"; is_visible := is_visible b |})
                                 Done |}).
  set (s3 := {| page := pg3; pending := [timer]; sent := []; unhandled := [] |}).
  assert (Hfinal : exists s4,
             exec k s3 = s4 /\ unhandled s4 = [] /\ pending s4 = [timer]
             /\ banner (page s4) = Some (hiding bnr)
             /\ localStorage (browser (page s4)) = localStorage (browser pg3)
             /\ (forall i, scripts (page s4) !! i = (loaded_under consent <$> scripts pg !! i))).
  { destruct Hk as [-> | [-> Hnone]].
    - destruct (load_applies s3 consent Hg) as (Hu & Hp & Hbn & _ & Hst & Hl).
      eexists. split; [reflexivity|]. split; [exact Hu|]. split; [exact Hp|].
      split; [rewrite Hbn; subst s3; simpl; congruence|]. split; [exact Hst|].
      intros i. rewrite Hl. subst s3. simpl. now rewrite Hsc3, Hsc2, Hsc1.
    - exists s3. split; [reflexivity|]. split; [reflexivity|]. split; [reflexivity|].
      split; [subst s3; simpl; congruence|]. split; [reflexivity|].
      intros i. subst s3. simpl. rewrite Hsc3, Hsc2, Hsc1.
      destruct (scripts pg !! i) as [script|]; simpl; [|reflexivity].
      now rewrite loaded_under_none. }
  destruct Hfinal as (s4 & -> & Hu4 & Hp4 & Hbn4 & Hst4 & Hl4).
  split; [exact Hu4|]. split; [exact Hbn4|]. split; [now rewrite Hp4|]. split.
  - intros env. unfold settle. rewrite Hp4. cbn [lookup list_lookup op resume timer].
    subst timer. cbn [op resume].
    rewrite (exec_with_banner _ _ _ (hiding bnr)) by exact Hbn4.
    cbn [exec page pending sent unhandled delete list_delete].
    destruct (set_banner_frame (hidden (hiding bnr)) (page s4)) as (_ & Hbn5 & Hsc5 & _ & _).
    split; [reflexivity|]. split; [exact Hu4|]. split; [exact Hbn5 | exact Hsc5].
  - split; [exact Hl4|]. split.
    + apply (getConsent_same_storage (browser pg3)); assumption.
    + rewrite Hst4, Hb3, Hb2, Hb1. exact Hkey.
Qed.


Lemma set_panel_frame (visible : bool) (p : Page) :
  browser (set_panel visible p) = browser p /\ banner (set_panel visible p) = banner p
  /\ scripts (set_panel visible p) = scripts p /\ bound (set_panel visible p) = bound p.
Proof. now destruct p. Qed.

(** X22.  On a page with the banner, each of [acceptAll],
    [rejectNonEssential] and [savePreferences] stores its consent (all
    categories, none, the checked boxes), takes the banner's visible class
    away at once and hides the element when its timer of 300 ms fires, and
    leaves every script element as a load under that consent leaves it:
    activated when its category is analytics or marketing and consented to.
    Inline code handed to [eval] is taken to run without an error of its
    own. *)
Theorem banner_choice_applies (pg : Page) (bnr : Banner) :
  readable (localStorage (browser pg)) = true ->
  writable (localStorage (browser pg)) = true ->
  banner pg = Some bnr ->
  (forall consent, reads_back JSON (to_object consent)) ->
  let applied (consent : Consent) (s : Loop Page) :=
    unhandled s = []
    /\ banner (page s) = Some (hiding bnr)
    /\ (op <$> pending s) = [Timeout 300]
    /\ (forall env,
           pending (settle 0 env s) = [] /\ unhandled (settle 0 env s) = []
           /\ banner (page (settle 0 env s)) = Some (hidden (hiding bnr))
           /\ scripts (page (settle 0 env s)) = scripts (page s))
    /\ (forall i, scripts (page s) !! i = (loaded_under consent <$> scripts pg !! i))
    /\ getConsent JSON (browser (page s)) = (Normal (to_object consent), browser (page s))
    /\ entries (localStorage (browser (page s))) !! STORAGE_KEY = Some (decision consent) in
  applied {| analytics := true; marketing := true; preferences := true |}
          (exec (acceptAll JSON Done) (idle pg))
  /\ applied {| analytics := false; marketing := false; preferences := false |}
             (exec (rejectNonEssential JSON Done) (idle pg))
  /\ applied (chosen pg) (exec (savePreferences JSON Done) (idle pg)).
Proof.
  intros Hr Hw Hb Hrb. cbv zeta.
  assert (Hid : forall p : Page, browser p = browser p /\ banner p = banner p
                                 /\ scripts p = scripts p /\ bound p = bound p) by auto.
  assert (Hrec : forall (k : Proc Page) s,
             exec k s = exec k {| page := page s; pending := pending s; sent := sent s;
                                  unhandled := unhandled s |}) by (intros k s; now destruct s).
  split; [|split].
  - unfold acceptAll.
    apply (choice_applied pg bnr _ (fun p => p) _ (_loadTrackingScripts JSON Done));
      auto.
  - unfold rejectNonEssential.
    apply (choice_applied pg bnr _ (fun p => p) _ Done); auto.
  - unfold savePreferences. rewrite exec_Read. change (page (idle pg)) with pg.
    cbv zeta. fold (chosen pg).
    destruct (analytics (chosen pg) || marketing (chosen pg)) eqn:Hc.
    + apply (choice_applied pg bnr _ (set_panel false) _ (_loadTrackingScripts JSON Done));
        auto using set_panel_frame.
    + apply (choice_applied pg bnr _ (set_panel false) _ Done); auto using set_panel_frame.
Qed.


(** *** Storage that refuses *)

(** X24.  None of the three choices guards its writes: in a browser
    that refuses the storage the handler ends in an uncaught error before it
    has hidden the banner or loaded a script, the page staying as it was.
    [init] without the privacy API reads the stored decision unguarded as
    well: in a browser that refuses the read it ends in an uncaught error
    with the banner not shown and the buttons not bound. *)
Theorem choices_need_storage (pg : Page) :
  let fails (s : Loop Page) :=
    (exists e, unhandled s = [e]) /\ pending s = [] /\ page s = pg in
  (readable (localStorage (browser pg)) = false
   \/ writable (localStorage (browser pg)) = false ->
   fails (exec (acceptAll JSON Done) (idle pg))
   /\ fails (exec (rejectNonEssential JSON Done) (idle pg))
   /\ fails (exec (savePreferences JSON Done) (idle pg)))
  /\ (readable (localStorage (browser pg)) = false ->
      banner pg <> None -> customerPrivacy pg = None ->
      fails (exec (init JSON Done) (idle pg))).
Proof.
  cbv zeta. split.
  - intros H.
    assert (Hfail : forall consent k,
               (exists e, unhandled (exec (_setConsent JSON consent k) (idle pg)) = [e])
               /\ pending (exec (_setConsent JSON consent k) (idle pg)) = []
               /\ page (exec (_setConsent JSON consent k) (idle pg)) = pg).
    { intros consent k. destruct (exec_setConsent_refused (idle pg) consent k H) as (e & ->).
      simpl. eauto. }
    split; [apply Hfail|]. split; [apply Hfail|].
    unfold savePreferences. rewrite exec_Read. apply Hfail.
  - intros Hr Hb Hc. unfold init. rewrite exec_Read. change (page (idle pg)) with pg.
    destruct (banner pg) as [bnr|]; [|contradiction]. rewrite Hc.
    unfold _setupFallback. rewrite exec_storage. unfold getItem.
    change (page (idle pg)) with pg. rewrite Hr. simpl.
    split; [eauto|]. split; [reflexivity | now destruct pg].
Qed.

(** *** A later visit *)

Lemma exec_setupFallback (s : Loop Page) (k : Proc Page) :
  readable (localStorage (browser (page s))) = true ->
  exec (_setupFallback JSON k) s
  = exec (let consent := entries (localStorage (browser (page s))) !! STORAGE_KEY in
          if bool_decide (consent = Some "accepted") then
            with_banner (fun b => {| display := "none"; is_visible := is_visible b |})
                        (_loadTrackingScripts JSON k)
          else if bool_decide (consent = Some "rejected") then
            with_banner (fun b => {| display := "none"; is_visible := is_visible b |}) k
          else _showBanner k) s.
Proof.
  intros Hr. unfold _setupFallback. rewrite exec_storage. unfold getItem. rewrite Hr.
  cbv zeta. f_equal. now destruct s as [[] ? ? ?].
Qed.

(** X23.  [init] on a page with the banner and without the privacy API
    follows the stored decision: accepted hides the banner and loads the
    scripts under the stored consent, rejected hides the banner and loads
    nothing, anything else shows the banner.  With the privacy API saying the
    user cannot be tracked the banner is shown, whatever is stored.  In each
    case the buttons are bound. *)
Theorem init_follows_stored_decision (pg : Page) (bnr : Banner) :
  banner pg = Some bnr ->
  readable (localStorage (browser pg)) = true ->
  let s := exec (init JSON Done) (idle pg) in
  let stored := entries (localStorage (browser pg)) !! STORAGE_KEY in
  let shows_banner :=
    unhandled s = [] /\ bound (page s) = true
    /\ banner (page s) = Some {| display := ""; is_visible := true |}
    /\ loaded (page s) = loaded pg in
  pending s = []
  /\ (customerPrivacy pg = None -> stored = Some "accepted" ->
      forall consent,
        entries (localStorage (browser pg)) !! (STORAGE_KEY ++ "_details")
        = Some (stringify JSON (to_object consent)) ->
        reads_back JSON (to_object consent) ->
        unhandled s = [] /\ bound (page s) = true
        /\ banner (page s) = Some (hidden bnr)
        /\ (forall i, scripts (page s) !! i = (loaded_under consent <$> scripts pg !! i)))
  /\ (customerPrivacy pg = None -> stored = Some "rejected" ->
      unhandled s = [] /\ bound (page s) = true
      /\ banner (page s) = Some (hidden bnr)
      /\ loaded (page s) = loaded pg)
  /\ (customerPrivacy pg = None -> stored <> Some "accepted" -> stored <> Some "rejected" ->
      shows_banner)
  /\ (forall p, customerPrivacy pg = Some p -> userCanBeTracked p = false -> shows_banner).
Proof.
  intros Hb Hr. cbv zeta. unfold init. rewrite exec_Read. change (page (idle pg)) with pg.
  rewrite Hb.
  destruct (customerPrivacy pg) as [p|] eqn:Hcp.
  - unfold _setupShopifyPrivacy. rewrite exec_Read. change (page (idle pg)) with pg.
    rewrite Hcp. destruct (userCanBeTracked p) eqn:Hu.
    + rewrite (exec_with_banner _ _ _ bnr) by exact Hb. change (page (idle pg)) with pg.
      destruct (getConsent_returns (browser pg)) as (v & Hg).
      match goal with |- context [exec (_loadTrackingScripts JSON ?k) ?s0] =>
        destruct (exec_loadTrackingScripts s0 v k) as (b' & _ & _ & ->);
          [cbn [page]; now rewrite (proj1 (set_banner_frame _ pg))|]
      end.
      split.
      * destruct (get_prop v "analytics"); [destruct (get_prop v "marketing")|]; reflexivity.
      * split; [discriminate|]. split; [discriminate|]. split; [discriminate|].
        intros p0 [= <-] Hu'. congruence.
    + unfold _showBanner. rewrite (exec_with_banner _ _ _ bnr) by exact Hb. change (page (idle pg)) with pg.
      unfold _bindEvents. cbn [exec page pending unhandled idle].
      split; [reflexivity|]. split; [discriminate|]. split; [discriminate|].
      split; [discriminate|]. intros p0 _ _. destruct pg; auto.
  - rewrite (exec_setupFallback (idle pg)) by exact Hr. change (page (idle pg)) with pg.
    cbv zeta.
    destruct (bool_decide (entries (localStorage (browser pg)) !! STORAGE_KEY
                           = Some "accepted")) eqn:Hacc.
    + apply bool_decide_eq_true_1 in Hacc.
      rewrite (exec_with_banner _ _ _ bnr) by exact Hb. change (page (idle pg)) with pg. cbv beta. fold (hidden bnr).
      destruct (set_banner_frame (hidden bnr) pg) as (Hb1 & Hbn1 & Hsc1 & Hl1 & Hbd1).
      match goal with |- context [exec (_loadTrackingScripts JSON _) ?s0] =>
        set (s1 := s0)
      end.
      destruct (getConsent_returns (browser pg)) as (v & Hg).
      assert (Hg1 : getConsent JSON (browser (page s1)) = (Normal v, browser (page s1))).
      { subst s1. cbn [page]. now rewrite Hb1. }
      destruct (exec_loadTrackingScripts s1 v (_bindEvents Done) Hg1) as (b' & _ & _ & Hexec).
      split.
      * rewrite Hexec.
        destruct (get_prop v "analytics"); [destruct (get_prop v "marketing")|]; reflexivity.
      * split; [|repeat split; try congruence; try discriminate].
        intros _ _ consent Hd Hrb.
        assert (Hv : v = to_object consent).
        { pose proof (getConsent_decided consent (browser pg) Hr Hd Hrb) as Hg'.
          congruence. }
        subst v. rewrite Hexec. cbn [get_prop to_object assoc String.eqb default].
        simpl. unfold _bindEvents. cbn [exec page unhandled].
        assert (Hfr : forall b0 p0, banner (set_bound (set_browser b0 p0)) = banner p0
                                    /\ bound (set_bound (set_browser b0 p0)) = true
                                    /\ scripts (set_bound (set_browser b0 p0)) = scripts p0)
          by (intros b0 p0; now destruct p0).
        match goal with |- context [set_bound (set_browser b' ?P)] =>
          destruct (Hfr b' P) as (-> & -> & ->); set (P0 := P)
        end.
        split; [reflexivity|]. split; [reflexivity|]. split.
        -- subst P0. destruct (marketing consent), (analytics consent);
             repeat match goal with
                    | |- context [activate_category ?n ?q] =>
                        destruct (activate_category_frame n q) as (_ & -> & _ & _)
                    end; exact Hbn1.
        -- intros i. subst P0. rewrite load_lookup. subst s1. cbn [page]. now rewrite Hsc1.
    + apply bool_decide_eq_false_1 in Hacc.
      destruct (bool_decide (entries (localStorage (browser pg)) !! STORAGE_KEY
                             = Some "rejected")) eqn:Hrej.
      * apply bool_decide_eq_true_1 in Hrej.
        rewrite (exec_with_banner _ _ _ bnr) by exact Hb. change (page (idle pg)) with pg. cbv beta. fold (hidden bnr).
        unfold _bindEvents. cbn [exec page pending unhandled idle].
        split; [reflexivity|]. split; [intros _ Hs; congruence|].
        split; [|split; [intros _ _ Hn; congruence | discriminate]].
        intros _ _. destruct pg; auto.
      * apply bool_decide_eq_false_1 in Hrej.
        unfold _showBanner. rewrite (exec_with_banner _ _ _ bnr) by exact Hb. change (page (idle pg)) with pg.
        unfold _bindEvents. cbn [exec page pending unhandled idle].
        split; [reflexivity|]. split; [intros _ Hs; congruence|].
        split; [intros _ Hs; congruence|]. split; [|discriminate].
        intros _ _ _. destruct pg; auto.
Qed.


(** *** Asking for a category *)

(** X25.  [hasConsent] of a category gives [false] when nothing usable
    is stored; when an object is stored, the stored value of the category if
    that is truthy and [false] otherwise; [false] for any other stored value
    but [null], for which it throws: [getConsent] returns the parsed [null]
    and the category is read from it outside any [try]. *)
Theorem hasConsent_reads_stored (b : Browser) (name : string) :
  name ∈ categories ->
  (unusable JSON (STORAGE_KEY ++ "_details") b ->
   hasConsent JSON name b = (Normal (JBool false), b))
  /\ (forall details v,
         readable (localStorage b) = true ->
         entries (localStorage b) !! (STORAGE_KEY ++ "_details") = Some details ->
         details <> "" ->
         parse JSON details = Normal v ->
         match v with
         | JNull | JUndefined => exists e, hasConsent JSON name b = (Thrown e, b)
         | JObject props =>
             hasConsent JSON name b
             = (Normal (match assoc name props with
                        | Some x => if truthy x then x else JBool false
                        | None => JBool false
                        end), b)
         | _ => hasConsent JSON name b = (Normal (JBool false), b)
         end).
Proof.
  intros _. split.
  - intros Hu.
    assert (Hg : getConsent JSON b = (Normal no_consent, b)).
    { destruct (getConsent_returns b) as (v & Hg). rewrite Hg. f_equal. f_equal.
      pose proof (proj2 (accessor_safe JSON (STORAGE_KEY ++ "_details") no_consent
                           (fun _ => ret no_consent) b
                           ltac:(intros e b0; exists b0; split; reflexivity)) Hu) as H.
      fold (getConsent JSON) in H. rewrite Hg in H. simpl in H. congruence. }
    unfold hasConsent. rewrite (bind_normal _ _ _ _ _ Hg).
    unfold bind, lift, ret, no_consent, get_prop. cbn [assoc].
    destruct (String.eqb "analytics" name); [reflexivity|].
    destruct (String.eqb "marketing" name); [reflexivity|].
    destruct (String.eqb "preferences" name); reflexivity.
  - intros details v Hr Hd Hne Hp.
    assert (Hg : getConsent JSON b = (Normal v, b)).
    { unfold getConsent, try_, bind, getItem, lift, ret. rewrite Hr, Hd.
      destruct details; [contradiction|]. simpl. now rewrite Hp. }
    unfold hasConsent. rewrite (bind_normal _ _ _ _ _ Hg). unfold bind, lift, ret, get_prop.
    destruct v; try reflexivity; eauto.
    destruct (assoc name props) as [x|]; reflexivity.
Qed.

End WithJson.
(** *** Examples *)

Lemma every_consent_reads_back (consent : Consent) :
  reads_back MiniJson.JSON (to_object consent).
Proof. destruct consent as [[] [] []]; split; vm_compute; reflexivity. Qed.

Lemma scripts_load_only_with_consent_witness :
  let pg := returning {| analytics := true; marketing := false; preferences := true |} in
  let s := exec (_loadTrackingScripts MiniJson.JSON Done) (idle pg) in
  let script := {| category := "analytics"; activated := None;
                   data_src := Some "https://stats.example/a.js"; data_async := Some "";
                   inline := "" |} in
  scripts pg !! 0 = Some script
  /\ consented MiniJson.JSON "analytics" (browser pg)
  /\ scripts (page s) !! 0 = Some (mark script)
  /\ scripts (page s) !! 1 = scripts pg !! 1.
Proof.
  cbv zeta.
  assert (Hc : consented MiniJson.JSON "analytics"
                 (browser (returning {| analytics := true; marketing := false;
                                        preferences := true |})))
    by (exists (JBool true); split; vm_compute; reflexivity).
  split; [reflexivity|]. split; [exact Hc|]. split.
  - apply (proj1 (scripts_load_only_with_consent MiniJson.JSON
                    (returning {| analytics := true; marketing := false; preferences := true |})
                    0 _ eq_refl));
      [reflexivity | reflexivity | exact Hc].
  - apply (proj1 (proj2 (scripts_load_only_with_consent MiniJson.JSON
                           (returning {| analytics := true; marketing := false;
                                         preferences := true |})
                           1 _ eq_refl))).
    right. right. intros (v & Hv & Ht). vm_compute in Hv. injection Hv as <-. discriminate Ht.
Defined.

Lemma setConsent_round_trip_witness :
  let consent := {| analytics := true; marketing := false; preferences := true |} in
  let s := exec (_setConsent MiniJson.JSON consent Done) (idle visit0) in
  reads_back MiniJson.JSON (to_object consent)
  /\ getConsent MiniJson.JSON (browser (page s)) = (Normal (to_object consent), browser (page s))
  /\ hasConsent MiniJson.JSON "marketing" (browser (page s))
     = (Normal (JBool false), browser (page s)).
Proof.
  cbv zeta.
  pose proof (setConsent_round_trip MiniJson.JSON visit0
                {| analytics := true; marketing := false; preferences := true |}
                eq_refl eq_refl (every_consent_reads_back _)) as H.
  cbv zeta in H. destruct H as (_ & _ & Hg & _ & Hm & _).
  split; [apply every_consent_reads_back|]. split; [exact Hg | exact Hm].
Defined.

Lemma banner_choice_applies_witness :
  let bnr := {| display := "none"; is_visible := false |} in
  banner visit0 = Some bnr
  /\ (let s := exec (acceptAll MiniJson.JSON Done) (idle visit0) in
      banner (page s) = Some (hiding bnr)
      /\ entries (localStorage (browser (page s))) !! STORAGE_KEY = Some "accepted")
  /\ (let s := exec (savePreferences MiniJson.JSON Done) (idle visit0) in
      forall i, scripts (page s) !! i = (loaded_under (chosen visit0) <$> scripts visit0 !! i)).
Proof.
  cbv zeta.
  pose proof (banner_choice_applies MiniJson.JSON visit0 _ eq_refl eq_refl eq_refl
                every_consent_reads_back) as H.
  cbv zeta in H. destruct H as (Ha & _ & Hs).
  split; [reflexivity|]. split.
  - destruct Ha as (_ & Hb & _ & _ & _ & _ & Hk). split; [exact Hb | exact Hk].
  - destruct Hs as (_ & _ & _ & _ & Hl & _). exact Hl.
Defined.

Lemma choices_need_storage_witness :
  readable (localStorage (browser blocked0)) = false
  /\ (exists e, unhandled (exec (acceptAll MiniJson.JSON Done) (idle blocked0)) = [e])
  /\ page (exec (init MiniJson.JSON Done) (idle blocked0)) = blocked0.
Proof.
  pose proof (choices_need_storage MiniJson.JSON blocked0) as H.
  cbv zeta in H. destruct H as (Hc & Hi).
  split; [reflexivity|]. split.
  - destruct (Hc (or_introl eq_refl)) as ((He & _) & _). exact He.
  - destruct (Hi eq_refl ltac:(discriminate) eq_refl) as (_ & _ & Hp). exact Hp.
Defined.

Lemma init_follows_stored_decision_witness :
  let consent := {| analytics := true; marketing := false; preferences := false |} in
  let bnr := {| display := "none"; is_visible := false |} in
  let s := exec (init MiniJson.JSON Done) (idle (returning consent)) in
  banner (returning consent) = Some bnr
  /\ readable (localStorage (browser (returning consent))) = true
  /\ banner (page s) = Some (hidden bnr)
  /\ (forall i, scripts (page s) !! i
                = (loaded_under consent <$> scripts (returning consent) !! i))
  /\ (let s0 := exec (init MiniJson.JSON Done) (idle visit0) in
      banner (page s0) = Some {| display := ""; is_visible := true |}).
Proof.
  cbv zeta.
  pose proof (init_follows_stored_decision MiniJson.JSON
                (returning {| analytics := true; marketing := false; preferences := false |})
                _ eq_refl eq_refl) as H.
  cbv zeta in H. destruct H as (_ & Hacc & _).
  destruct (Hacc eq_refl eq_refl _ eq_refl (every_consent_reads_back _))
    as (_ & _ & Hb & Hl).
  pose proof (init_follows_stored_decision MiniJson.JSON visit0 _ eq_refl eq_refl) as H0.
  cbv zeta in H0. destruct H0 as (_ & _ & _ & Hnew & _).
  destruct (Hnew eq_refl ltac:(discriminate) ltac:(discriminate)) as (_ & _ & Hshow & _).
  split; [reflexivity|]. split; [reflexivity|]. split; [exact Hb|]. split; [exact Hl|].
  exact Hshow.
Defined.

Lemma hasConsent_reads_stored_witness :
  let consent := {| analytics := true; marketing := false; preferences := false |} in
  let b := browser (returning consent) in
  ("analytics" ∈ categories)
  /\ hasConsent MiniJson.JSON "analytics" b = (Normal (JBool true), b)
  /\ hasConsent MiniJson.JSON "analytics" (browser blocked0)
     = (Normal (JBool false), browser blocked0).
Proof.
  cbv zeta.
  assert (Hin : "analytics" ∈ categories) by constructor.
  split; [exact Hin|]. split.
  - exact (proj2 (hasConsent_reads_stored MiniJson.JSON
                    (browser (returning {| analytics := true; marketing := false;
                                           preferences := false |})) "analytics" Hin)
             _ (to_object {| analytics := true; marketing := false; preferences := false |})
             eq_refl eq_refl ltac:(discriminate)
             (proj2 (every_consent_reads_back
                       {| analytics := true; marketing := false; preferences := false |}))).
  - apply (proj1 (hasConsent_reads_stored MiniJson.JSON (browser blocked0) "analytics" Hin)).
    left. reflexivity.
Defined.

End ConsentFacts.
